(** * plant_ml dashboard front end: a shallow embedding and its properties

    The page scripts [static/js/dashboard.js] (plant wizard, camera, disease
    detection, crop advice) and the weather script (location, weather lookup,
    weather rendering) are embedded as Rocq functions over an explicit page
    state.  JavaScript strings are sequences of UTF-16 code units, the
    regular expressions of the formatters are run by a backtracking matcher
    that follows the ECMAScript priority order, exceptions are an explicit
    outcome, and the platform (network, camera, clock) enters as arguments. *)

From Stdlib Require Import ZArith NArith List Ascii String Bool Lia.
From Stdlib Require Import Floats.SpecFloat.
From Stdlib Require Import Numbers.DecimalString.
From stdpp Require Import gmap strings list fin_maps.

Set Warnings "-register-all".

(* ===================================================================== *)
(** ** JavaScript strings *)
(* ===================================================================== *)

Module JsString.

(** A string value is its sequence of UTF-16 code units. *)
Abbreviation jsstring := (list N).

(** An ASCII literal. *)
Definition u (s : string) : jsstring :=
  List.map N_of_ascii (list_ascii_of_string s).

Definition nl : jsstring := [10%N].          (* \n *)
Definition q : jsstring := [34%N].           (* the double quote *)
Fixpoint sp (n : nat) : jsstring :=          (* n spaces *)
  match n with O => [] | S n' => 32%N :: sp n' end.

(** Decimal digits of a non-negative integer, as in [String(n)]. *)
Definition digits (n : N) : jsstring :=
  u (NilEmpty.string_of_uint (N.to_uint n)).

(** [\n] *)
Definition is_nl (c : N) : bool := (c =? 10)%N.

(** ECMAScript LineTerminator: LF, CR, LS, PS. *)
Definition is_line_terminator (c : N) : bool :=
  ((c =? 10) || (c =? 13) || (c =? 0x2028) || (c =? 0x2029))%N.

(** [.] without the [s] flag: anything but a line terminator. *)
Definition is_dot (c : N) : bool := negb (is_line_terminator c).

(** [\d] *)
Definition is_digit (c : N) : bool := ((48 <=? c) && (c <=? 57))%N.

(** [\s], also the set removed by [String.prototype.trim]:
    WhiteSpace and LineTerminator. *)
Definition is_space (c : N) : bool :=
  ((c =? 9) || (c =? 10) || (c =? 11) || (c =? 12) || (c =? 13) || (c =? 32)
   || (c =? 0xA0) || (c =? 0x1680)
   || ((0x2000 <=? c) && (c <=? 0x200A))
   || (c =? 0x2028) || (c =? 0x2029) || (c =? 0x202F) || (c =? 0x205F)
   || (c =? 0x3000) || (c =? 0xFEFF))%N.

Fixpoint drop_spaces (s : jsstring) : jsstring :=
  match s with
  | c :: s' => if is_space c then drop_spaces s' else s
  | [] => []
  end.

(** [s.trim()] *)
Definition trim (s : jsstring) : jsstring :=
  rev (drop_spaces (rev (drop_spaces s))).

End JsString.
Import JsString.

(* ===================================================================== *)
(** ** Regular expressions: backtracking matcher and global replace *)
(* ===================================================================== *)

Module Regex.

(** The fragment of the pattern language the page uses.  A pattern has at
    most one capture group, [$1]. *)
Inductive regex : Type :=
| REps
| RChar (p : N -> bool)
| RSeq (r1 r2 : regex)
| RStar (greedy : bool) (r : regex)
| RGroup (r : regex).

Definition RPlus (r : regex) : regex := RSeq r (RStar true r).

Fixpoint RLit (s : jsstring) : regex :=
  match s with
  | [] => REps
  | c :: s' => RSeq (RChar (N.eqb c)) (RLit s')
  end.

(** Value of [$1]: [None] while the group has not taken part. *)
Abbreviation capture := (option jsstring).

(** One way a pattern matches a prefix: the unread rest and the capture. *)
Abbreviation result := (jsstring * capture)%type.

(** [body*] and [body*?]: each iteration must read something, as in
    ECMAScript; a greedy star tries one more iteration before it stops, a
    lazy one stops first.  [fuel] bounds the iterations and is the length of
    the text. *)
Fixpoint star_loop (body : jsstring -> capture -> list result)
    (greedy : bool) (fuel : nat) (s : jsstring) (c : capture)
  : list result :=
  match fuel with
  | O => [(s, c)]
  | S fuel' =>
      let more :=
        flat_map (fun sc =>
                    if (length (fst sc) <? length s)%nat
                    then star_loop body greedy fuel' (fst sc) (snd sc)
                    else [])
                 (body s c) in
      if greedy then more ++ [(s, c)] else (s, c) :: more
  end.

(** All ways [r] matches a prefix of [s], in the order a backtracking
    matcher tries them. *)
Fixpoint rmatch (r : regex) (s : jsstring) (c : capture) : list result :=
  match r with
  | REps => [(s, c)]
  | RChar p =>
      match s with
      | x :: s' => if p x then [(s', c)] else []
      | [] => []
      end
  | RSeq r1 r2 =>
      flat_map (fun sc => rmatch r2 (fst sc) (snd sc)) (rmatch r1 s c)
  | RGroup r1 =>
      List.map (fun sc =>
                  (fst sc, Some (firstn (length s - length (fst sc)) s)))
               (rmatch r1 s c)
  | RStar g r1 => star_loop (rmatch r1) g (length s) s c
  end.

(** The replacement text with [$1] substituted (an unset group gives the
    empty string).  The page's replacement strings use no other [$] form. *)
Fixpoint expand (repl : jsstring) (c : capture) : jsstring :=
  match repl with
  | 36%N :: 49%N :: rest => default [] c ++ expand rest c
  | x :: rest => x :: expand rest c
  | [] => []
  end.

(** [s.replace(/r/g, repl)]: leftmost matches, scanning on after each. *)
Fixpoint replace_from (fuel : nat) (r : regex) (repl s : jsstring)
  : jsstring :=
  match fuel with
  | O => s
  | S fuel' =>
      let step :=
        match s with
        | [] => []
        | x :: s' => x :: replace_from fuel' r repl s'
        end in
      match rmatch r s None with
      | (rest, c) :: _ =>
          if (length rest <? length s)%nat
          then expand repl c ++ replace_from fuel' r repl rest
          else expand repl c ++ step
      | [] => step
      end
  end.

Definition replace_all (r : regex) (repl s : jsstring) : jsstring :=
  replace_from (S (length s)) r repl s.

End Regex.
Import Regex.

(* ===================================================================== *)
(** ** The text formatters *)
(* ===================================================================== *)

(** [/\n/g] *)
Definition re_newline : regex := RChar is_nl.
(** [/\*\*(.*?)\*\*/g] *)
Definition re_bold : regex :=
  RSeq (RLit (u "**")) (RSeq (RGroup (RStar false (RChar is_dot))) (RLit (u "**"))).
(** [/- (.*?)<br>/g] *)
Definition re_bullet : regex :=
  RSeq (RLit (u "- ")) (RSeq (RGroup (RStar false (RChar is_dot))) (RLit (u "<br>"))).
(** [/(<li>.*<\/li>)+/g] *)
Definition re_items : regex :=
  RPlus (RGroup (RSeq (RLit (u "<li>"))
                      (RSeq (RStar true (RChar is_dot)) (RLit (u "</li>"))))).
(** [/\n\n/g] *)
Definition re_blank_line : regex := RSeq (RChar is_nl) (RChar is_nl).
(** [/(\d+\.\s+)/g] *)
Definition re_ordinal : regex :=
  RGroup (RSeq (RPlus (RChar is_digit))
               (RSeq (RChar (N.eqb 46)) (RPlus (RChar is_space)))).

Definition formatDiseaseInfo (info : jsstring) : jsstring :=
  let formatted := replace_all re_newline (u "<br>") info in
  let formatted := replace_all re_bold (u "<strong>$1</strong>") formatted in
  let formatted := replace_all re_bullet (u "<li>$1</li>") formatted in
  let formatted := replace_all re_items (u "<ul>$1</ul>") formatted in
  formatted.

Definition formatCropRecommendations (text : jsstring) : jsstring :=
  let formatted := text in
  let formatted := replace_all re_blank_line (u "<br><br>") formatted in
  let formatted := replace_all re_newline (u "<br>") formatted in
  let formatted := replace_all re_ordinal (u "<strong>$1</strong>") formatted in
  u "<div style=" ++ q ++ u "line-height: 1.8;" ++ q ++ u ">"
    ++ formatted ++ u "</div>".


(* ===================================================================== *)
(** ** JavaScript values *)
(* ===================================================================== *)

Module Js.

(** Numbers are IEEE 754 binary64. *)
Definition prec : Z := 53.
Definition emax : Z := 1024.

(** What [response.json()] can deliver, and [undefined]. An object is the
    list of its own properties; a read takes the first entry of a name. *)
Inductive val : Type :=
| VUndef
| VNull
| VBool (b : bool)
| VNum (x : spec_float)
| VStr (s : jsstring)
| VArr (items : list val)
| VObj (fields : list (string * val)).

(** ToBoolean *)
Definition truthy (v : val) : bool :=
  match v with
  | VUndef | VNull => false
  | VBool b => b
  | VNum (S754_zero _) | VNum S754_nan => false
  | VNum _ => true
  | VStr [] => false
  | VStr _ => true
  | VArr _ | VObj _ => true
  end.

(** [a || b] *)
Definition or_else (a b : val) : val := if truthy a then a else b.

Fixpoint lookup_field (name : string) (fields : list (string * val)) : val :=
  match fields with
  | [] => VUndef
  | (k, v) :: rest => if String.eqb k name then v else lookup_field name rest
  end.

Inductive error : Type :=
| TypeError      (* a property of null or undefined, a call of a non-function,
                    or an object that has no primitive value *)
| URIError
| Rejected.      (* a rejected promise of the platform *)

(** Whether an object has a property of this name of its own. *)
Definition has_own (name : string) (fields : list (string * val)) : bool :=
  existsb (fun kv => String.eqb (fst kv) name) fields.

(** Go on with the value of a conversion, or with its error. *)
Definition map_result {A B} (f : A -> B) (r : error + A) : error + B :=
  match r with
  | inl e => inl e
  | inr a => inr (f a)
  end.

(** The texts of the elements of an array, from left to right, or the
    error of the first element that has none. *)
Definition texts_of (text : val -> error + jsstring)
  : list val -> error + list jsstring :=
  fix texts (l : list val) : error + list jsstring :=
    match l with
    | [] => inr []
    | e :: rest =>
        match text e with
        | inl err => inl err
        | inr s => map_result (cons s) (texts rest)
        end
    end.

(** [v.name], for the property names the page reads (none of them is a
    built-in property of strings, numbers or arrays). *)
Definition get (v : val) (name : string) : error + val :=
  match v with
  | VUndef | VNull => inl TypeError
  | VObj fields => inr (lookup_field name fields)
  | _ => inr VUndef
  end.

(** [v[0]] *)
Definition get0 (v : val) : error + val :=
  match v with
  | VUndef | VNull => inl TypeError
  | VArr items => inr (hd VUndef items)
  | VStr (c :: _) => inr (VStr [c])
  | VObj fields => inr (lookup_field "0" fields)
  | _ => inr VUndef
  end.

(** [v === 'literal'] *)
Definition strict_eq_str (v : val) (lit : jsstring) : bool :=
  match v with
  | VStr s => bool_decide (s = lit)
  | _ => false
  end.

(** The number and string conversions of the platform that the page relies
    on but does not define. *)
Class Platform : Type := {
  (** Number::toString of a finite non-zero number *)
  FiniteToString : bool -> positive -> Z -> jsstring;
  (** StringToNumber *)
  StringToNumber : jsstring -> spec_float;
  (** Number.prototype.toFixed(2) *)
  toFixed2 : spec_float -> jsstring;
  (** encodeURIComponent; [None] is its URIError *)
  encodeURIComponent : jsstring -> option jsstring
}.

Section Conversions.
Context {P : Platform}.

Definition number_to_string (x : spec_float) : jsstring :=
  match x with
  | S754_zero _ => u "0"
  | S754_nan => u "NaN"
  | S754_infinity false => u "Infinity"
  | S754_infinity true => u "-Infinity"
  | S754_finite s m e => FiniteToString s m e
  end.

Definition join_comma (parts : list jsstring) : jsstring :=
  match parts with
  | [] => []
  | p :: ps => p ++ flat_map (fun x => 44%N :: x) ps
  end.

(** ToString, as a template literal applies it.  An object that
    [JSON.parse] made gets its text from [Object.prototype.toString], unless
    it has a property [toString] of its own: that one is found first and is
    not callable, [valueOf] gives the object back, and the conversion throws
    a TypeError.  An array joins the texts of its elements, the first
    element without a text throwing. *)
Fixpoint to_string (v : val) : error + jsstring :=
  match v with
  | VUndef => inr (u "undefined")
  | VNull => inr (u "null")
  | VBool true => inr (u "true")
  | VBool false => inr (u "false")
  | VNum x => inr (number_to_string x)
  | VStr s => inr s
  | VArr items =>
      map_result join_comma
        (texts_of (fun e => match e with
                            | VUndef | VNull => inr []
                            | _ => to_string e
                            end) items)
  | VObj fields =>
      if has_own "toString" fields then inl TypeError
      else inr (u "[object Object]")
  end.

(** ToNumber, as [>] and [*] apply it; an object or an array goes through
    its primitive value, with the same TypeError. *)
Definition to_number (v : val) : error + spec_float :=
  match v with
  | VUndef => inr S754_nan
  | VNull => inr (S754_zero false)
  | VBool true => inr (S754_finite false 4503599627370496 (-52))
  | VBool false => inr (S754_zero false)
  | VNum x => inr x
  | VStr s => inr (StringToNumber s)
  | VArr _ => map_result StringToNumber (to_string v)
  | VObj fields =>
      if has_own "toString" fields then inl TypeError else inr S754_nan
  end.

End Conversions.

(** The literal [0.8]: the binary64 number nearest to 8/10. *)
Definition lit_0_8 : spec_float := S754_finite false 7205759403792794 (-53).
(** The literal [100]. *)
Definition lit_100 : spec_float := S754_finite false 7036874417766400 (-46).

End Js.
Import Js.

(* ===================================================================== *)
(** ** The page: document, media devices, module variables *)
(* ===================================================================== *)

Module Page.

(** A media stream is the list of its tracks. *)
Definition stream : Type := list nat.

(** A [File]: the parts it was built from ([None] is a [null] blob),
    its name and its type. *)
Record file : Type := File {
  file_parts : list (option jsstring);
  file_name : jsstring;
  file_type : jsstring
}.

(** The properties of an element that the scripts read or write. *)
Record element : Type := Element {
  value : jsstring;
  innerHTML : jsstring;
  textContent : jsstring;
  disabled : bool;
  display : jsstring;            (* style.display *)
  opacity : jsstring;            (* style.opacity *)
  pointerEvents : jsstring;      (* style.pointerEvents *)
  classList : gset string;
  srcObject : option stream;
  videoWidth : N;
  videoHeight : N;
  width : N;
  height : N
}.

Definition set_value (v : jsstring) (e : element) : element :=
  Element v (innerHTML e) (textContent e) (disabled e) (display e) (opacity e)
          (pointerEvents e) (classList e) (srcObject e) (videoWidth e)
          (videoHeight e) (width e) (height e).
Definition set_innerHTML (v : jsstring) (e : element) : element :=
  Element (value e) v (textContent e) (disabled e) (display e) (opacity e)
          (pointerEvents e) (classList e) (srcObject e) (videoWidth e)
          (videoHeight e) (width e) (height e).
Definition set_textContent (v : jsstring) (e : element) : element :=
  Element (value e) (innerHTML e) v (disabled e) (display e) (opacity e)
          (pointerEvents e) (classList e) (srcObject e) (videoWidth e)
          (videoHeight e) (width e) (height e).
Definition set_disabled (v : bool) (e : element) : element :=
  Element (value e) (innerHTML e) (textContent e) v (display e) (opacity e)
          (pointerEvents e) (classList e) (srcObject e) (videoWidth e)
          (videoHeight e) (width e) (height e).
Definition set_display (v : jsstring) (e : element) : element :=
  Element (value e) (innerHTML e) (textContent e) (disabled e) v (opacity e)
          (pointerEvents e) (classList e) (srcObject e) (videoWidth e)
          (videoHeight e) (width e) (height e).
Definition set_opacity (v : jsstring) (e : element) : element :=
  Element (value e) (innerHTML e) (textContent e) (disabled e) (display e) v
          (pointerEvents e) (classList e) (srcObject e) (videoWidth e)
          (videoHeight e) (width e) (height e).
Definition set_pointerEvents (v : jsstring) (e : element) : element :=
  Element (value e) (innerHTML e) (textContent e) (disabled e) (display e)
          (opacity e) v (classList e) (srcObject e) (videoWidth e)
          (videoHeight e) (width e) (height e).
Definition set_classList (v : gset string) (e : element) : element :=
  Element (value e) (innerHTML e) (textContent e) (disabled e) (display e)
          (opacity e) (pointerEvents e) v (srcObject e) (videoWidth e)
          (videoHeight e) (width e) (height e).
Definition set_srcObject (v : option stream) (e : element) : element :=
  Element (value e) (innerHTML e) (textContent e) (disabled e) (display e)
          (opacity e) (pointerEvents e) (classList e) v (videoWidth e)
          (videoHeight e) (width e) (height e).
Definition set_width (v : N) (e : element) : element :=
  Element (value e) (innerHTML e) (textContent e) (disabled e) (display e)
          (opacity e) (pointerEvents e) (classList e) (srcObject e)
          (videoWidth e) (videoHeight e) v (height e).
Definition set_height (v : N) (e : element) : element :=
  Element (value e) (innerHTML e) (textContent e) (disabled e) (display e)
          (opacity e) (pointerEvents e) (classList e) (srcObject e)
          (videoWidth e) (videoHeight e) (width e) v.

(** [classList.add(c)] and [classList.remove(c)] *)
Definition class_add (c : string) (e : element) : element :=
  set_classList ({[c]} ∪ classList e) e.
Definition class_remove (c : string) (e : element) : element :=
  set_classList (classList e ∖ {[c]}) e.

(** A part of a multipart body. *)
Inductive part : Type :=
| PFile (f : file)
| PText (s : jsstring).

(** What the page does to the outside, in order. *)
Inductive event : Type :=
| EAlert (message : jsstring)
| EFetch (url : jsstring) (method : string) (body : list (string * part))
| EConsoleError (label : jsstring)
| EDrawImage (w h : N).

Definition is_fetch (e : event) : bool :=
  match e with EFetch _ _ _ => true | _ => false end.

Record page : Type := MkPage {
  (** [let selectedImage = null] *)
  selectedImage : option file;
  (** [let selectedPlant = null]; later a string *)
  selectedPlant : option jsstring;
  (** [let cameraStream = null] *)
  cameraStream : option stream;
  (** elements by id *)
  dom : gmap string element;
  (** whether an element of class [camera-container] exists *)
  container : bool;
  (** text of the elements of class [camera-guide-text], in document order *)
  guides : list jsstring;
  (** the tracks that are capturing *)
  live : gset nat;
  log : list event
}.

Definition with_selectedImage (v : option file) (s : page) : page :=
  MkPage v (selectedPlant s) (cameraStream s) (dom s) (container s)
         (guides s) (live s) (log s).
Definition with_selectedPlant (v : option jsstring) (s : page) : page :=
  MkPage (selectedImage s) v (cameraStream s) (dom s) (container s)
         (guides s) (live s) (log s).
Definition with_cameraStream (v : option stream) (s : page) : page :=
  MkPage (selectedImage s) (selectedPlant s) v (dom s) (container s)
         (guides s) (live s) (log s).
Definition with_dom (v : gmap string element) (s : page) : page :=
  MkPage (selectedImage s) (selectedPlant s) (cameraStream s) v (container s)
         (guides s) (live s) (log s).
Definition with_guides (v : list jsstring) (s : page) : page :=
  MkPage (selectedImage s) (selectedPlant s) (cameraStream s) (dom s)
         (container s) v (live s) (log s).
Definition with_live (v : gset nat) (s : page) : page :=
  MkPage (selectedImage s) (selectedPlant s) (cameraStream s) (dom s)
         (container s) (guides s) v (log s).
Definition with_log (v : list event) (s : page) : page :=
  MkPage (selectedImage s) (selectedPlant s) (cameraStream s) (dom s)
         (container s) (guides s) (live s) v.

(** The module variable [selectedPlant] as a value. *)
Definition plant_val (p : option jsstring) : val :=
  match p with
  | None => VNull
  | Some s => VStr s
  end.

(** *** Statements: a state and exception monad *)

Inductive outcome (A : Type) : Type :=
| Done (a : A)
| Throw (e : error).
Arguments Done {A} a.
Arguments Throw {A} e.

Definition M (A : Type) : Type := page -> outcome A * page.

Definition ret {A} (a : A) : M A := fun s => (Done a, s).
Definition throw {A} (e : error) : M A := fun s => (Throw e, s).
Definition bind {A B} (m : M A) (k : A -> M B) : M B :=
  fun s =>
    match m s with
    | (Done a, s') => k a s'
    | (Throw e, s') => (Throw e, s')
    end.
(** [try { body } catch (error) { handler }] *)
Definition try_catch {A} (body : M A) (handler : error -> M A) : M A :=
  fun s =>
    match body s with
    | (Done a, s') => (Done a, s')
    | (Throw e, s') => handler e s'
    end.
Definition lift {A} (r : error + A) : M A :=
  match r with
  | inl e => throw e
  | inr a => ret a
  end.

Definition gets {A} (f : page -> A) : M A := fun s => (Done (f s), s).
Definition modify (f : page -> page) : M unit := fun s => (Done tt, f s).

Declare Scope js_scope.
Delimit Scope js_scope with js.
Notation "x <- m ;; k" := (bind m (fun x => k))
  (at level 100, m at next level, k at level 200, right associativity)
  : js_scope.
Notation "m ;; k" := (bind m (fun _ => k))
  (at level 100, k at level 200, right associativity) : js_scope.
Open Scope js_scope.

(** *** The document *)

(** A reference to an element, or [null]. *)
Definition ref : Type := option string.

Definition has_element (d : gmap string element) (id : string) : bool :=
  match d !! id with
  | Some _ => true
  | None => false
  end.

(** [document.getElementById(id)] *)
Definition getElementById (id : string) : M ref :=
  gets (fun s => if has_element (dom s) id then Some id else None).

(** [r.field], a TypeError on [null] *)
Definition read {A} (r : ref) (field : element -> A) : M A :=
  fun s =>
    match r with
    | Some id =>
        match dom s !! id with
        | Some e => (Done (field e), s)
        | None => (Throw TypeError, s)
        end
    | None => (Throw TypeError, s)
    end.

(** [r.field = v], a TypeError on [null] *)
Definition update (r : ref) (f : element -> element) : M unit :=
  match r with
  | Some id => modify (fun s => with_dom (alter f id (dom s)) s)
  | None => throw TypeError
  end.

(** [if (r) r.field = v] *)
Definition update_if (r : ref) (f : element -> element) : M unit :=
  match r with
  | Some _ => update r f
  | None => ret tt
  end.

Definition emit (e : event) : M unit :=
  modify (fun s => with_log (log s ++ [e]) s).

Definition alert (message : jsstring) : M unit := emit (EAlert message).
Definition console_error (label : jsstring) : M unit :=
  emit (EConsoleError label).

End Page.
Import Page.

(* ===================================================================== *)
(** ** Text of the page *)
(* ===================================================================== *)

Module Text.

Definition glyph_tick : jsstring := [0x2713%N].
Definition glyph_camera : jsstring := [0xD83D%N; 0xDCF8%N].
Definition glyph_cross : jsstring := [0x274C%N].
Definition glyph_done : jsstring := [0x2705%N].
Definition glyph_warning : jsstring := [0x26A0%N; 0xFE0F%N].
Definition glyph_herb : jsstring := [0xD83C%N; 0xDF3F%N].
Definition glyph_microbe : jsstring := [0xD83E%N; 0xDDA0%N].
Definition glyph_chart : jsstring := [0xD83D%N; 0xDCCA%N].
Definition glyph_reload : jsstring := [0xD83D%N; 0xDD04%N].
Definition glyph_degree : jsstring := [0xB0%N].

(** [`${selectedPlant}`] *)
Definition plant_text (p : option jsstring) : jsstring :=
  match p with
  | None => u "null"
  | Some s => s
  end.

Definition msg_select_plant : jsstring :=
  glyph_warning ++ u " Please select a plant type first!".
Definition msg_select_image : jsstring :=
  glyph_warning ++ u " Please select or capture an image!".
Definition msg_enter_city : jsstring :=
  glyph_warning ++ u " Please enter a city name or use your location!".
Definition msg_camera : jsstring :=
  glyph_cross ++ u " Unable to access camera. Please:" ++ nl
    ++ u "1. Allow camera permission" ++ nl
    ++ u "2. Use HTTPS or localhost" ++ nl
    ++ u "3. Or use file upload instead".
Definition placeholder_city : jsstring := u "Detecting location...".

Definition html_selected_plant (plant : jsstring) : jsstring :=
  nl ++ sp 12 ++ u "<strong>" ++ glyph_tick
    ++ u " Selected Plant:</strong> " ++ plant ++ u "<br>"
    ++ nl ++ sp 12
    ++ u "<small>Please upload or capture a clear image of a "
    ++ plant ++ u " leaf.</small>" ++ nl ++ sp 8.

Definition guide_text (plant : jsstring) : jsstring :=
  glyph_camera ++ u " Position " ++ plant ++ u " leaf in center".

Definition html_captured (dataURL plant : jsstring) : jsstring :=
  nl ++ sp 12 ++ u "<div class=" ++ q ++ u "preview-container" ++ q
    ++ u ">" ++ nl ++ sp 16 ++ u "<img src=" ++ q ++ dataURL
    ++ q ++ u " alt=" ++ q ++ u "Captured Image" ++ q ++ u ">" ++ nl
    ++ sp 16 ++ u "<p class=" ++ q ++ u "preview-label" ++ q ++ u ">"
    ++ glyph_done ++ u " Captured: " ++ plant
    ++ u " leaf image</p>" ++ nl ++ sp 12 ++ u "</div>" ++ nl ++ sp 8.

Definition html_result_open : jsstring :=
  u "<div class=" ++ q ++ u "result-success" ++ q ++ u ">"
    ++ u "<h3>" ++ glyph_done ++ u " Analysis Complete</h3>".

Definition html_plant_info (plant : jsstring) : jsstring :=
  u "<div class=" ++ q ++ u "plant-info" ++ q ++ u ">" ++ nl ++ sp 16
    ++ u "<strong>" ++ glyph_herb ++ u " Plant:</strong> "
    ++ plant ++ nl ++ sp 12 ++ u "</div>".

Definition html_model_result (badge percent disease : jsstring) : jsstring :=
  nl ++ sp 20 ++ u "<div class=" ++ q ++ u "confidence-badge "
    ++ badge
    ++ q ++ u ">" ++ nl ++ sp 24 ++ u "<strong>Confidence:</strong> "
    ++ percent ++ u "%" ++ nl ++ sp 20
    ++ u "</div>" ++ nl ++ sp 20 ++ u "<div class=" ++ q
    ++ u "disease-name" ++ q ++ u ">" ++ nl ++ sp 24 ++ u "<strong>"
    ++ glyph_microbe ++ u " Disease:</strong> " ++ disease
    ++ nl ++ sp 20 ++ u "</div>" ++ nl ++ sp 16.

Definition html_ai_badge : jsstring :=
  u "<div class=" ++ q ++ u "ai-badge" ++ q ++ u ">" ++ glyph_chart
    ++ u " Analyzed by Gemini AI</div>".

Definition html_disease_info (info : jsstring) : jsstring :=
  nl ++ sp 16 ++ u "<div class=" ++ q ++ u "disease-info-content" ++ q
    ++ u ">" ++ nl ++ sp 20 ++ info
    ++ nl ++ sp 16 ++ u "</div>" ++ nl ++ sp 12 ++ u "</div>".

Definition html_detect_failed (message plant : jsstring) : jsstring :=
  nl ++ sp 16 ++ u "<div class=" ++ q ++ u "result-error" ++ q ++ u ">"
    ++ nl ++ sp 20 ++ u "<h3>" ++ glyph_warning ++ u " "
    ++ message ++ u "</h3>" ++ nl ++ sp 20
    ++ u "<p>Please try again with a clear image of a "
    ++ plant ++ u " leaf.</p>" ++ nl ++ sp 16 ++ u "</div>"
    ++ nl ++ sp 12.

Definition html_detect_error : jsstring :=
  nl ++ sp 12 ++ u "<div class=" ++ q ++ u "result-error" ++ q ++ u ">"
    ++ nl ++ sp 16 ++ u "<h3>" ++ glyph_cross ++ u " Error</h3>" ++ nl
    ++ sp 16 ++ u "<p>Failed to detect disease. Please try again.</p>"
    ++ nl ++ sp 12 ++ u "</div>" ++ nl ++ sp 8.

Definition html_weather_loading : jsstring :=
  u "<p>" ++ glyph_reload ++ u " Loading weather data...</p>".

Definition html_red (message : jsstring) : jsstring :=
  u "<p style=" ++ q ++ u "color: red;" ++ q ++ u ">" ++ glyph_cross
    ++ u " " ++ message ++ u "</p>".

Definition html_weather_error : jsstring :=
  html_red (u "Error fetching weather data. Please try again.").

Definition html_weather (temperature humidity wind precipitation : jsstring)
  : jsstring :=
  nl ++ sp 8 ++ u "<div class=" ++ q ++ u "weather-item" ++ q ++ u ">"
    ++ nl ++ sp 12 ++ u "<h3>" ++ temperature
    ++ glyph_degree ++ u "C</h3>" ++ nl ++ sp 12 ++ u "<p>Temperature</p>"
    ++ nl ++ sp 8 ++ u "</div>" ++ nl ++ sp 8 ++ u "<div class=" ++ q
    ++ u "weather-item" ++ q ++ u ">" ++ nl ++ sp 12 ++ u "<h3>"
    ++ humidity ++ u "%</h3>" ++ nl ++ sp 12
    ++ u "<p>Humidity</p>" ++ nl ++ sp 8 ++ u "</div>" ++ nl ++ sp 8
    ++ u "<div class=" ++ q ++ u "weather-item" ++ q ++ u ">" ++ nl
    ++ sp 12 ++ u "<h3>" ++ wind ++ u " km/h</h3>"
    ++ nl ++ sp 12 ++ u "<p>Wind Speed</p>" ++ nl ++ sp 8 ++ u "</div>"
    ++ nl ++ sp 8 ++ u "<div class=" ++ q ++ u "weather-item" ++ q ++ u ">"
    ++ nl ++ sp 12 ++ u "<h3>" ++ precipitation ++ u " mm</h3>"
    ++ nl ++ sp 12 ++ u "<p>Precipitation</p>" ++ nl ++ sp 8 ++ u "</div>"
    ++ nl ++ sp 4.

Definition html_weather_loaded : jsstring :=
  u "<p style=" ++ q ++ u "color: var(--green-primary);" ++ q ++ u ">"
    ++ glyph_done ++ u " Weather data loaded! Select soil type and click "
    ++ q ++ u "Get Crop Recommendations" ++ q ++ u "</p>".

End Text.
Import Text.

(* ===================================================================== *)
(** ** dashboard.js: wizard and camera *)
(* ===================================================================== *)

Definition plantSelected : M unit :=
  plantSelect <- getElementById "plantSelect" ;;
  chosen <- read plantSelect value ;;
  modify (with_selectedPlant (Some chosen)) ;;
  imageUploadSection <- getElementById "imageUploadSection" ;;
  imageInput <- getElementById "imageInput" ;;
  selectedPlantInfo <- getElementById "selectedPlantInfo" ;;
  step1 <- getElementById "step1-indicator" ;;
  step2 <- getElementById "step2-indicator" ;;
  plant <- gets selectedPlant ;;
  if truthy (plant_val plant) then
    update imageUploadSection (set_opacity (u "1")) ;;
    update imageUploadSection (set_pointerEvents (u "auto")) ;;
    update imageInput (set_disabled false) ;;
    update selectedPlantInfo (set_display (u "block")) ;;
    update selectedPlantInfo
           (set_innerHTML (html_selected_plant (plant_text plant))) ;;
    update step1 (class_add "completed") ;;
    update step2 (class_add "active") ;;
    resultDisplay <- getElementById "resultDisplay" ;;
    update resultDisplay (set_innerHTML []) ;;
    imagePreview <- getElementById "imagePreview" ;;
    update imagePreview (set_innerHTML []) ;;
    modify (with_selectedImage None) ;;
    detectBtn <- getElementById "detectBtn" ;;
    update detectBtn (set_disabled true)
  else
    update imageUploadSection (set_opacity (u "0.5")) ;;
    update imageUploadSection (set_pointerEvents (u "none")) ;;
    update imageInput (set_disabled true) ;;
    update selectedPlantInfo (set_display (u "none")) ;;
    update step1 (class_remove "completed") ;;
    update step2 (class_remove "active").

(** [cameraStream.getTracks().forEach(track => track.stop())] *)
Definition stop_tracks (st : stream) : M unit :=
  modify (fun s => with_live (live s ∖ list_to_set st) s).

Definition stopCamera : M unit :=
  active <- gets cameraStream ;;
  match active with
  | Some st =>
      stop_tracks st ;;
      modify (with_cameraStream None)
  | None => ret tt
  end ;;
  video <- getElementById "cameraVideo" ;;
  update video (set_srcObject None) ;;
  startBtn <- getElementById "startCameraBtn" ;;
  captureBtn <- getElementById "captureBtn" ;;
  stopBtn <- getElementById "stopCameraBtn" ;;
  update_if startBtn (set_display (u "inline-block")) ;;
  update_if captureBtn (set_display (u "none")) ;;
  update_if stopBtn (set_display (u "none")) ;;
  guideText <- gets guides ;;
  match guideText with
  | _ :: others => modify (with_guides others)
  | [] => ret tt
  end.

Definition switchToUpload : M unit :=
  uploadBtn <- getElementById "uploadBtn" ;;
  update uploadBtn (class_add "active") ;;
  cameraBtn <- getElementById "cameraBtn" ;;
  update cameraBtn (class_remove "active") ;;
  uploadOption <- getElementById "uploadOption" ;;
  update uploadOption (set_display (u "block")) ;;
  cameraOption <- getElementById "cameraOption" ;;
  update cameraOption (set_display (u "none")) ;;
  stopCamera.

(** [await navigator.mediaDevices.getUserMedia(constraints)]: the platform
    grants a stream whose tracks start capturing, or rejects. *)
Definition getUserMedia (grant : option stream) : M stream :=
  match grant with
  | Some st =>
      modify (fun s => with_live (live s ∪ list_to_set st) s) ;;
      ret st
  | None => throw Rejected
  end.

Definition startCamera (grant : option stream) : M unit :=
  video <- getElementById "cameraVideo" ;;
  startBtn <- getElementById "startCameraBtn" ;;
  captureBtn <- getElementById "captureBtn" ;;
  stopBtn <- getElementById "stopCameraBtn" ;;
  try_catch
    (st <- getUserMedia grant ;;
     modify (with_cameraStream (Some st)) ;;
     active <- gets cameraStream ;;
     update video (set_srcObject active) ;;
     update startBtn (set_display (u "none")) ;;
     update captureBtn (set_display (u "inline-block")) ;;
     update stopBtn (set_display (u "inline-block")) ;;
     hasContainer <- gets container ;;
     existing <- gets guides ;;
     match existing with
     | [] =>
         plant <- gets selectedPlant ;;
         if hasContainer
         then modify (fun s =>
                with_guides (guides s ++ [guide_text (plant_text plant)]) s)
         else throw TypeError
     | _ :: _ => ret tt
     end)
    (fun _ =>
       console_error (u "Camera error:") ;;
       alert msg_camera).

(** [captureImage()] up to the call of [canvas.toBlob]. *)
Definition captureImage : M unit :=
  video <- getElementById "cameraVideo" ;;
  canvas <- getElementById "cameraCanvas" ;;
  read canvas (fun _ => tt) ;;                 (* canvas.getContext('2d') *)
  vw <- read video videoWidth ;;
  update canvas (set_width vw) ;;
  vh <- read video videoHeight ;;
  update canvas (set_height vh) ;;
  w <- read canvas width ;;
  h <- read canvas height ;;
  emit (EDrawImage w h).

(** The callback given to [canvas.toBlob]; [blob] is its argument, [now]
    is [Date.now()] and [dataURL] is [canvas.toDataURL()]. *)
Definition captureImage_callback (blob : option jsstring) (now : N)
    (dataURL : jsstring) : M unit :=
  plant <- gets selectedPlant ;;
  let fileName := plant_text plant ++ u "_" ++ digits now ++ u ".jpg" in
  modify (with_selectedImage (Some (File [blob] fileName (u "image/jpeg")))) ;;
  previewDiv <- getElementById "imagePreview" ;;
  plant <- gets selectedPlant ;;
  update previewDiv (set_innerHTML (html_captured dataURL (plant_text plant))) ;;
  detectBtn <- getElementById "detectBtn" ;;
  update detectBtn (set_disabled false) ;;
  step2 <- getElementById "step2-indicator" ;;
  step3 <- getElementById "step3-indicator" ;;
  update step2 (class_add "completed") ;;
  update step3 (class_add "active") ;;
  stopCamera.

(* ===================================================================== *)
(** ** dashboard.js: disease detection *)
(* ===================================================================== *)

(** How a request ends: [fetch] rejects, [response.json()] rejects, or the
    body parses to a value. *)
Inductive response : Type :=
| NetworkError
| BadJson
| Json (data : val).

(** [await fetch(url, ...)] followed by [await response.json()] *)
Definition fetch_json (url : jsstring) (method : string)
    (body : list (string * part)) (resp : response) : M val :=
  emit (EFetch url method body) ;;
  match resp with
  | Json data => ret data
  | NetworkError | BadJson => throw Rejected
  end.

(** [info.replace(...)] needs a string: anything else has no callable
    [replace]. *)
Definition as_text (v : val) : M jsstring :=
  match v with
  | VStr s => ret s
  | _ => throw TypeError
  end.

Section Handlers.
Context {P : Platform}.

(** [x > 0.8 ? 'high-confidence' : 'medium-confidence'] on a number *)
Definition badge_of (x : spec_float) : jsstring :=
  if SFltb lit_0_8 x then u "high-confidence" else u "medium-confidence".

(** [data.confidence > 0.8 ? 'high-confidence' : 'medium-confidence'] *)
Definition confidence_class (confidence : val) : error + jsstring :=
  map_result badge_of (to_number confidence).

(** [(x * 100).toFixed(2)] on a number *)
Definition percent_of (x : spec_float) : jsstring :=
  toFixed2 (SFmul prec emax x lit_100).

(** [(data.confidence * 100).toFixed(2)] *)
Definition confidence_percent (confidence : val) : error + jsstring :=
  map_result percent_of (to_number confidence).

Definition detectDisease (resp : response) : M unit :=
  plant <- gets selectedPlant ;;
  if negb (truthy (plant_val plant)) then
    alert msg_select_plant
  else
  image <- gets selectedImage ;;
  match image with
  | None => alert msg_select_image
  | Some img =>
  languageSelect <- getElementById "languageSelect" ;;
  language <- read languageSelect value ;;
  loadingSpinner <- getElementById "loadingSpinner" ;;
  resultDisplay <- getElementById "resultDisplay" ;;
  analyzingPlant <- getElementById "analyzingPlant" ;;
  update loadingSpinner (set_display (u "block")) ;;
  update resultDisplay (set_innerHTML []) ;;
  plant <- gets selectedPlant ;;
  update analyzingPlant (set_textContent (plant_text plant)) ;;
  let formData :=
    [("image", PFile img); ("language", PText language);
     ("plant_name", PText (plant_text plant))] in
  try_catch
    (data <- fetch_json (u "/api/detect-disease") "POST" formData resp ;;
     update loadingSpinner (set_display (u "none")) ;;
     success <- lift (get data "success") ;;
     if truthy success then
       let resultHTML := html_result_open in
       plant_name <- lift (get data "plant_name") ;;
       plant <- gets selectedPlant ;;
       shown <- lift (to_string (or_else plant_name (plant_val plant))) ;;
       let resultHTML := resultHTML ++ html_plant_info shown in
       method <- lift (get data "method") ;;
       resultHTML <-
         (if strict_eq_str method (u "model") then
            confidence <- lift (get data "confidence") ;;
            badge <- lift (confidence_class confidence) ;;
            percent <- lift (confidence_percent confidence) ;;
            disease_name <- lift (get data "disease_name") ;;
            disease <- lift (to_string disease_name) ;;
            ret (resultHTML ++ html_model_result badge percent disease)
          else
            ret (resultHTML ++ html_ai_badge)) ;;
       disease_info <- lift (get data "disease_info") ;;
       info <- as_text disease_info ;;
       let resultHTML :=
         resultHTML ++ html_disease_info (formatDiseaseInfo info) in
       update resultDisplay (set_innerHTML resultHTML) ;;
       step3 <- getElementById "step3-indicator" ;;
       update step3 (class_add "completed")
     else
       message <- lift (get data "message") ;;
       text <- lift (to_string message) ;;
       plant <- gets selectedPlant ;;
       update resultDisplay
              (set_innerHTML (html_detect_failed text (plant_text plant))))
    (fun _ =>
       update loadingSpinner (set_display (u "none")) ;;
       update resultDisplay (set_innerHTML html_detect_error) ;;
       console_error (u "Detection error:"))
  end.

(* ===================================================================== *)
(** ** The weather script *)
(* ===================================================================== *)

(** The text an input's [value] setter stores: [null] gives the empty
    string, anything else its ToString. *)
Definition input_text (v : val) : error + jsstring :=
  match v with
  | VNull => inr []
  | _ => to_string v
  end.

(** An assignment to [value] converts its right side to a text; where the
    element is missing it throws its TypeError before that, with the page
    in the same state. *)
Definition displayWeather (weatherData cityName : val) : M unit :=
  weatherDisplay <- getElementById "weatherDisplay" ;;
  current <- lift (get weatherData "current") ;;
  daily <- lift (get weatherData "daily") ;;
  temperature_2m <- lift (get current "temperature_2m") ;;
  temperature_text <- lift (to_string temperature_2m) ;;
  relative_humidity_2m <- lift (get current "relative_humidity_2m") ;;
  humidity_text <- lift (to_string relative_humidity_2m) ;;
  wind_speed_10m <- lift (get current "wind_speed_10m") ;;
  wind_text <- lift (to_string wind_speed_10m) ;;
  precipitation <- lift (get current "precipitation") ;;
  precipitation_text <- lift (to_string precipitation) ;;
  let weatherHTML :=
    html_weather temperature_text humidity_text wind_text precipitation_text in
  update weatherDisplay (set_innerHTML weatherHTML) ;;
  temperature <- getElementById "temperature" ;;
  temperature_value <- lift (input_text temperature_2m) ;;
  update temperature (set_value temperature_value) ;;
  humidity <- getElementById "humidity" ;;
  humidity_value <- lift (input_text relative_humidity_2m) ;;
  update humidity (set_value humidity_value) ;;
  rainfall <- getElementById "rainfall" ;;
  precipitation_sum <- lift (get daily "precipitation_sum") ;;
  first_day <- lift (get0 precipitation_sum) ;;
  rainfall_value <-
    lift (input_text (or_else first_day (VNum (S754_zero false)))) ;;
  update rainfall (set_value rainfall_value) ;;
  cropBtn <- getElementById "cropRecommendBtn" ;;
  update_if cropBtn (set_disabled false) ;;
  cropDisplay <- getElementById "cropDisplay" ;;
  update_if cropDisplay (set_innerHTML html_weather_loaded).

Definition encode_component (s : jsstring) : M jsstring :=
  match encodeURIComponent s with
  | Some e => ret e
  | None => throw URIError
  end.

Definition getWeather (resp : response) : M unit :=
  cityInput <- getElementById "cityInput" ;;
  typed <- read cityInput value ;;
  let city := trim typed in
  weatherDisplay <- getElementById "weatherDisplay" ;;
  if negb (truthy (VStr city)) || bool_decide (city = placeholder_city) then
    alert msg_enter_city
  else
    update weatherDisplay (set_innerHTML html_weather_loading) ;;
    try_catch
      (encoded <- encode_component city ;;
       data <- fetch_json (u "/api/weather?city=" ++ encoded) "GET" [] resp ;;
       success <- lift (get data "success") ;;
       if truthy success then
         weather <- lift (get data "weather") ;;
         cityName <- lift (get data "city") ;;
         displayWeather weather cityName
       else
         message <- lift (get data "message") ;;
         text <- lift (to_string message) ;;
         update weatherDisplay (set_innerHTML (html_red text)))
      (fun _ =>
         update weatherDisplay (set_innerHTML html_weather_error) ;;
         console_error (u "Weather error:")).

End Handlers.

(* ===================================================================== *)
(** ** The remaining handlers *)
(* ===================================================================== *)

Definition glyph_pin : jsstring := [0xD83D%N; 0xDCCD%N].

Definition html_preview (dataURL plant : jsstring) : jsstring :=
  nl ++ sp 16 ++ u "<div class=" ++ q ++ u "preview-container" ++ q
    ++ u ">" ++ nl ++ sp 20 ++ u "<img src=" ++ q ++ dataURL
    ++ q ++ u " alt=" ++ q ++ u "Preview" ++ q ++ u ">" ++ nl ++ sp 20
    ++ u "<p class=" ++ q ++ u "preview-label" ++ q ++ u ">" ++ glyph_done
    ++ u " Selected: " ++ plant ++ u " leaf image</p>" ++ nl
    ++ sp 16 ++ u "</div>" ++ nl ++ sp 12.

Definition msg_no_geolocation : jsstring :=
  glyph_cross ++ u " Geolocation is not supported by your browser".
Definition html_locating : jsstring :=
  u "<p>" ++ glyph_pin ++ u " Getting your location...</p>".
Definition html_location_error : jsstring :=
  html_red (u "Error fetching location data").
Definition html_location_denied : jsstring :=
  html_red (u "Unable to get your location. Please enter city manually.").
Definition your_location : jsstring := u "Your Location".

Definition msg_fetch_weather_first : jsstring :=
  glyph_warning ++ u " Please fetch weather data first!".
Definition msg_select_soil : jsstring :=
  glyph_warning ++ u " Please select soil type!".
Definition html_crop_loading : jsstring :=
  u "<p>" ++ glyph_reload ++ u " Loading recommendations...</p>".
Definition html_crop_error : jsstring :=
  html_red (u "Error getting recommendations.").

Definition forecast_url (lat lon : jsstring) : jsstring :=
  u "https://api.open-meteo.com/v1/forecast?latitude=" ++ lat
    ++ u "&longitude=" ++ lon
    ++ u "&current=temperature_2m,relative_humidity_2m,precipitation,weather_code,wind_speed_10m&daily=temperature_2m_max,temperature_2m_min,precipitation_sum&timezone=auto".

Definition geocoding_url (lat lon : jsstring) : jsstring :=
  u "https://geocoding-api.open-meteo.com/v1/search?latitude=" ++ lat
    ++ u "&longitude=" ++ lon ++ u "&count=1&language=en&format=json".

Definition switchToCamera : M unit :=
  cameraBtn <- getElementById "cameraBtn" ;;
  update cameraBtn (class_add "active") ;;
  uploadBtn <- getElementById "uploadBtn" ;;
  update uploadBtn (class_remove "active") ;;
  uploadOption <- getElementById "uploadOption" ;;
  update uploadOption (set_display (u "none")) ;;
  cameraOption <- getElementById "cameraOption" ;;
  update cameraOption (set_display (u "block")).

(** [previewImage(event)] up to [reader.readAsDataURL(file)]; [chosen] is
    [event.target.files[0]], [None] when no file was chosen. *)
Definition previewImage (chosen : option file) : M unit :=
  match chosen with
  | Some f => modify (with_selectedImage (Some f))
  | None => ret tt
  end.

(** [reader.onload]; [result] is [e.target.result], the data URL. *)
Definition previewImage_onload (result : jsstring) : M unit :=
  previewDiv <- getElementById "imagePreview" ;;
  plant <- gets selectedPlant ;;
  update previewDiv (set_innerHTML (html_preview result (plant_text plant))) ;;
  detectBtn <- getElementById "detectBtn" ;;
  update detectBtn (set_disabled false) ;;
  step2 <- getElementById "step2-indicator" ;;
  step3 <- getElementById "step3-indicator" ;;
  update step2 (class_add "completed") ;;
  update step3 (class_add "active").

(** [window.addEventListener('beforeunload', () => { stopCamera(); })] *)
Definition on_beforeunload : M unit := stopCamera.

Section Location.
Context {P : Platform}.

(** [v.length > 0]: an array and a string have their length, an object
    answers with its own property of that name and any other value has
    none. *)
Definition length_above_zero (v : val) : error + bool :=
  match v with
  | VUndef | VNull => inl TypeError
  | VArr items => inr (0 <? length items)%nat
  | VStr s => inr (0 <? length s)%nat
  | VObj fields =>
      map_result (SFltb (S754_zero false))
                 (to_number (lookup_field "length" fields))
  | VBool _ | VNum _ => inr false
  end.

(** [getUserLocation()] up to the call of [getCurrentPosition];
    [supported] is whether [navigator.geolocation] exists.  It returns the
    two elements its callbacks hold on to, or nothing when it has
    registered no callback. *)
Definition getUserLocation (supported : bool) : M (option (ref * ref)) :=
  cityInput <- getElementById "cityInput" ;;
  weatherDisplay <- getElementById "weatherDisplay" ;;
  if negb supported then
    alert msg_no_geolocation ;;
    ret None
  else
    update weatherDisplay (set_innerHTML html_locating) ;;
    update cityInput (set_value placeholder_city) ;;
    ret (Some (cityInput, weatherDisplay)).

(** The success callback of [getCurrentPosition]: the position and how the
    two requests end. *)
Definition getUserLocation_located (cityInput weatherDisplay : ref)
    (lat lon : spec_float) (forecast geocoding : response) : M unit :=
  try_catch
    (let weatherUrl :=
       forecast_url (number_to_string lat) (number_to_string lon) in
     weatherData <- fetch_json weatherUrl "GET" [] forecast ;;
     let geoUrl :=
       geocoding_url (number_to_string lat) (number_to_string lon) in
     geoData <- fetch_json geoUrl "GET" [] geocoding ;;
     results <- lift (get geoData "results") ;;
     cityName <-
       (if truthy results then
          some <- lift (length_above_zero results) ;;
          if (some : bool) then
            first <- lift (get0 results) ;;
            lift (get first "name")
          else ret (VStr your_location)
        else ret (VStr your_location)) ;;
     city <- lift (input_text cityName) ;;
     update cityInput (set_value city) ;;
     displayWeather weatherData cityName)
    (fun _ =>
       update weatherDisplay (set_innerHTML html_location_error) ;;
       update cityInput (set_value []) ;;
       console_error (u "Location error:")).

(** The error callback of [getCurrentPosition]. *)
Definition getUserLocation_denied (cityInput weatherDisplay : ref) : M unit :=
  update weatherDisplay (set_innerHTML html_location_denied) ;;
  update cityInput (set_value []) ;;
  console_error (u "Geolocation error:").

End Location.

Section Crop.
Context {P : Platform}.
(** [parseFloat] and [JSON.stringify] of the platform. *)
Variable parseFloat : jsstring -> spec_float.
Variable JSON_stringify : val -> jsstring.

(** The request body: the JSON text of the four fields.  The log keeps
    the url, the method and the body of a request; a body that is one text
    is the single part ["body"]. *)
Definition crop_request (temperature humidity rainfall soilType : jsstring)
  : list (string * part) :=
  [("body",
    PText (JSON_stringify
             (VObj [("temperature", VNum (parseFloat temperature));
                    ("humidity", VNum (parseFloat humidity));
                    ("rainfall", VNum (parseFloat rainfall));
                    ("soil_type", VStr soilType)])))].

Definition getCropRecommendation (resp : response) : M unit :=
  temperatureInput <- getElementById "temperature" ;;
  temperature <- read temperatureInput value ;;
  humidityInput <- getElementById "humidity" ;;
  humidity <- read humidityInput value ;;
  rainfallInput <- getElementById "rainfall" ;;
  rainfall <- read rainfallInput value ;;
  soilTypeSelect <- getElementById "soilType" ;;
  soilType <- read soilTypeSelect value ;;
  if negb (truthy (VStr temperature)) || negb (truthy (VStr humidity))
     || negb (truthy (VStr rainfall)) then
    alert msg_fetch_weather_first
  else if negb (truthy (VStr soilType)) then
    alert msg_select_soil
  else
    cropDisplay <- getElementById "cropDisplay" ;;
    update cropDisplay (set_innerHTML html_crop_loading) ;;
    try_catch
      (data <- fetch_json (u "/api/crop-recommendation") "POST"
                 (crop_request temperature humidity rainfall soilType) resp ;;
       success <- lift (get data "success") ;;
       if truthy success then
         recommendations <- lift (get data "recommendations") ;;
         text <- as_text recommendations ;;
         let formattedText := formatCropRecommendations text in
         update cropDisplay (set_innerHTML formattedText)
       else
         message <- lift (get data "message") ;;
         text <- lift (to_string message) ;;
         update cropDisplay (set_innerHTML (html_red text)))
      (fun _ =>
         update cropDisplay (set_innerHTML html_crop_error) ;;
         console_error (u "Recommendation error:")).

End Crop.

(* ===================================================================== *)
(** ** Specifications *)
(* ===================================================================== *)

Module CropSpec.

(** Every newline becomes a line break. *)
Definition nl_to_br (s : jsstring) : jsstring :=
  flat_map (fun c => if is_nl c then u "<br>" else [c]) s.

(** Pairs of newlines, left to right, become two line breaks. *)
Fixpoint blank_lines_to_br (s : jsstring) : jsstring :=
  match s with
  | [] => []
  | x :: s' =>
      match s' with
      | y :: s'' =>
          if is_nl x && is_nl y
          then u "<br><br>" ++ blank_lines_to_br s''
          else x :: blank_lines_to_br s'
      | [] => [x]
      end
  end.

(** The longest prefix of code units in a class, and what follows it. *)
Fixpoint span (p : N -> bool) (s : jsstring) : jsstring :=
  match s with
  | x :: s' => if p x then x :: span p s' else []
  | [] => []
  end.
Fixpoint skip (p : N -> bool) (s : jsstring) : jsstring :=
  match s with
  | x :: s' => if p x then skip p s' else s
  | [] => []
  end.

(** An ordinal marker at the head of [s]: digits, a full stop, white space,
    each run as long as it can be.  Gives the marker and the text after. *)
Definition ordinal_at (s : jsstring) : option (jsstring * jsstring) :=
  match span is_digit s, skip is_digit s with
  | _ :: _, 46%N :: r =>
      match span is_space r with
      | _ :: _ => Some (span is_digit s ++ [46%N] ++ span is_space r,
                        skip is_space r)
      | [] => None
      end
  | _, _ => None
  end.

(** [Bolded s out]: [out] is [s] with every marker, found left to right
    and wherever it stands, wrapped in a strong tag. *)
Inductive Bolded : jsstring -> jsstring -> Prop :=
| Bolded_end : Bolded [] []
| Bolded_marker s marker rest out :
    ordinal_at s = Some (marker, rest) ->
    Bolded rest out ->
    Bolded s (u "<strong>" ++ marker ++ u "</strong>" ++ out)
| Bolded_other x s out :
    ordinal_at (x :: s) = None ->
    Bolded s out ->
    Bolded (x :: s) (x :: out).

(** The formatter as the specification words it: only a marker that leads
    a line is set in bold. *)
Fixpoint split_lines (s : jsstring) : list jsstring :=
  match s with
  | [] => [[]]
  | x :: s' =>
      if is_nl x then [] :: split_lines s'
      else match split_lines s' with
           | l :: ls => (x :: l) :: ls
           | [] => [[x]]
           end
  end.

Definition bold_leading (line : jsstring) : jsstring :=
  match ordinal_at line with
  | Some (marker, rest) => u "<strong>" ++ marker ++ u "</strong>" ++ rest
  | None => line
  end.

Fixpoint join_br (ls : list jsstring) : jsstring :=
  match ls with
  | [] => []
  | [l] => l
  | l :: ls' => l ++ u "<br>" ++ join_br ls'
  end.

Definition formatCropRecommendations_leading_only (text : jsstring)
  : jsstring :=
  u "<div style=" ++ q ++ u "line-height: 1.8;" ++ q ++ u ">"
    ++ join_br (List.map bold_leading (split_lines text)) ++ u "</div>".

End CropSpec.
Import CropSpec.

(** What a greedy star over one class of code units yields: the longest
    run first, then each shorter one. *)
Fixpoint star_char_results (p : N -> bool) (s : jsstring) (c : capture)
  : list result :=
  match s with
  | x :: s' =>
      if p x then star_char_results p s' c ++ [(s, c)] else [(s, c)]
  | [] => [([], c)]
  end.

(** The part of [re_ordinal] after the digits. *)
Definition re_after_digits : regex :=
  RSeq (RChar (N.eqb 46)) (RPlus (RChar is_space)).

(** The exact value of a finite number in units of 2^-1074, the spacing of
    the smallest binary64 numbers. *)
Definition in_ulps (x : spec_float) : option Z :=
  match x with
  | S754_zero _ => Some 0%Z
  | S754_finite s m e => Some (cond_Zopp s (Z.pos m * 2 ^ (e + 1074)))%Z
  | S754_infinity _ | S754_nan => None
  end.

(** The elements with these ids are all in the document. *)
Definition present (ids : list string) (s : page) : bool :=
  forallb (has_element (dom s)) ids.

(** The loading spinner is hidden. *)
Definition spinner_hidden (s : page) : Prop :=
  display <$> dom s !! "loadingSpinner" = Some (u "none").

(** A statement keeps a property of the page, however it ends. *)
Definition keeps (I : page -> Prop) {A} (m : M A) : Prop :=
  forall s, I s -> I (snd (m s)).

(** A property of the page that no write of [f] to an element disturbs. *)
Definition dom_stable (I : page -> Prop) (f : element -> element) : Prop :=
  forall s id, I s -> I (with_dom (alter f id (dom s)) s).

(** A property of the page that does not read the log. *)
Definition log_stable (I : page -> Prop) : Prop :=
  forall s l, I s -> I (with_log l s).

(** The module variables and the devices once the stream is released. *)
Definition release_camera (s : page) : page :=
  match cameraStream s with
  | Some st => with_cameraStream None (with_live (live s ∖ list_to_set st) s)
  | None => s
  end.

(** The camera controls at rest. *)
Definition camera_idle (d : gmap string element) : gmap string element :=
  alter (set_display (u "none")) "stopCameraBtn"
    (alter (set_display (u "none")) "captureBtn"
       (alter (set_display (u "inline-block")) "startCameraBtn"
          (alter (set_srcObject None) "cameraVideo" d))).

(** What [camera_idle] does to the element of a given id. *)
Definition camera_idle_at (id : string) (e : element) : element :=
  if decide (id = "stopCameraBtn") then set_display (u "none") e
  else if decide (id = "captureBtn") then set_display (u "none") e
  else if decide (id = "startCameraBtn") then set_display (u "inline-block") e
  else if decide (id = "cameraVideo") then set_srcObject None e
  else e.

(** At most one guide overlay is in the document. *)
Definition one_guide (s : page) : Prop := (length (guides s) <= 1)%nat.

(** The requests among some events. *)
Definition requests (l : list event) : list event := List.filter is_fetch l.

(** A platform to evaluate examples on; its conversions are stand-ins. *)
#[export] Instance sample_platform : Platform := {|
  FiniteToString := fun _ _ _ => u "1";
  StringToNumber := fun _ => S754_nan;
  toFixed2 := fun _ => u "0.00";
  encodeURIComponent := fun s => Some s
|}.

Module Sample.

Definition blank : element :=
  Element [] [] [] false [] [] [] ∅ None 0 0 0 0.

Definition leaf : file := File [Some (u "jpeg")] (u "leaf.jpg") (u "image/jpeg").

Definition all_ids : list string :=
  ["plantSelect"; "imageUploadSection"; "imageInput"; "selectedPlantInfo";
   "step1-indicator"; "step2-indicator"; "step3-indicator"; "resultDisplay";
   "imagePreview"; "detectBtn"; "cameraVideo"; "cameraCanvas";
   "startCameraBtn"; "captureBtn"; "stopCameraBtn"; "languageSelect";
   "loadingSpinner"; "analyzingPlant"; "cityInput"; "weatherDisplay";
   "temperature"; "humidity"; "rainfall"; "cropRecommendBtn"; "cropDisplay"].

Definition document_of (ids : list string) : gmap string element :=
  list_to_map (List.map (fun id => (id, blank)) ids).

(** A freshly loaded page. *)
Definition fresh : page :=
  MkPage None None None (document_of all_ids) true [] ∅ [].

(** Tomato was chosen, an image picked and a result shown; the camera runs
    on track 1 and the plant select is back on its empty option. *)
Definition busy : page :=
  MkPage (Some leaf) (Some (u "Tomato")) (Some [1%nat])
         (<["resultDisplay" := set_innerHTML (u "<p>old result</p>") blank]>
            (document_of all_ids))
         true [guide_text (u "Tomato")] {[1%nat]} [].

(** [busy] on a page without the preview element. *)
Definition no_preview : page :=
  with_dom (delete "imagePreview" (dom busy)) busy.

(** The file a capture at time 1700000000000 stores. *)
Definition captured : file :=
  File [Some (u "jpeg")] (u "Tomato_1700000000000.jpg") (u "image/jpeg").

(** [busy] with Tomato chosen once more in the plant select. *)
Definition choosing : page :=
  with_dom (<["plantSelect" := set_value (u "Tomato") blank]> (dom busy)) busy.

(** [busy] with the camera off. *)
Definition ready : page := with_cameraStream None busy.

(** A fresh page with three spaces typed as the city. *)
Definition typing : page :=
  with_dom (<["cityInput" := set_value (u "   ") blank]> (dom fresh)) fresh.

(** The text of the formatter example: a bold word and two bullets. *)
Definition bold_and_bullets : jsstring :=
  u "**Bold**" ++ nl ++ u "- a" ++ nl ++ u "- b".


(** A weather snapshot without daily precipitation entries. *)
Definition current : list (string * val) :=
  [("temperature_2m", VNum lit_100); ("relative_humidity_2m", VNum lit_100);
   ("wind_speed_10m", VNum (S754_zero false));
   ("precipitation", VNum (S754_zero false))].
Definition daily : list (string * val) := [("precipitation_sum", VArr [])].
Definition weather : list (string * val) :=
  [("current", VObj current); ("daily", VObj daily)].

(** A weather snapshot with 100 mm on the first day. *)
Definition wet : list (string * val) :=
  [("current", VObj current);
   ("daily", VObj [("precipitation_sum", VArr [VNum lit_100])])].

(** A weather snapshot whose daily part has no precipitation sums. *)
Definition no_sums : list (string * val) :=
  [("current", VObj current); ("daily", VObj [])].

(** A fresh page whose rainfall input holds 12. *)
Definition rained : page :=
  with_dom (<["rainfall" := set_value (u "12") blank]> (dom fresh)) fresh.

(** [ready] on a page without the result display. *)
Definition no_result : page :=
  with_dom (delete "resultDisplay" (dom ready)) ready.

(** [busy] on a page that holds two guide overlays. *)
Definition two_guides : page :=
  with_guides [guide_text (u "Tomato"); guide_text (u "Tomato")] busy.

End Sample.

(** *** What the further properties speak of *)

(** Code units that none of the patterns of [formatDiseaseInfo] can start
    on or run over: no newline, [*], [-] or [<], and nothing that ends a
    line. *)
Definition plain (c : N) : bool :=
  is_dot c && negb (c =? 42)%N && negb (c =? 45)%N && negb (c =? 60)%N.

(** What a lazy star over one class of code units yields: the shortest
    run first. *)
Fixpoint lazy_char_results (p : N -> bool) (s : jsstring) (c : capture)
  : list result :=
  match s with
  | x :: s' =>
      if p x then (s, c) :: lazy_char_results p s' c else [(s, c)]
  | [] => [([], c)]
  end.

(** One list item of the items pattern. *)
Definition re_item : regex :=
  RGroup (RSeq (RLit (u "<li>"))
               (RSeq (RStar true (RChar is_dot)) (RLit (u "</li>")))).


(** The requests issued so far are [l]. *)
Definition requested (l : list event) (s : page) : Prop :=
  requests (log s) = l.

(** The detect button is enabled only while an image is selected. *)
Definition detect_guarded (s : page) : Prop :=
  disabled <$> dom s !! "detectBtn" = Some false -> selectedImage s <> None.

(** The surrogate code units. *)
Definition is_surrogate (c : N) : bool := ((0xD800 <=? c) && (c <=? 0xDFFF))%N.

(** A platform whose [encodeURIComponent] refuses every surrogate; its
    conversions are stand-ins. *)
Definition strict_platform : Platform := {|
  FiniteToString := fun _ _ _ => u "1";
  StringToNumber := fun _ => S754_nan;
  toFixed2 := fun _ => u "0.00";
  encodeURIComponent := fun s => if existsb is_surrogate s then None else Some s
|}.

(** A property of the page that a write of [f] to the element [id] does
    not disturb. *)
Definition dom_stable_at (I : page -> Prop) (id : string)
    (f : element -> element) : Prop :=
  forall s, I s -> I (with_dom (alter f id (dom s)) s).

(** An image is selected. *)
Definition image_selected (s : page) : Prop := selectedImage s <> None.

(** The document once [plantSelected] has seen a plant chosen, and once it
    has seen the empty option chosen. *)
Definition plant_chosen (plant : jsstring) (d : gmap string element)
  : gmap string element :=
  alter (set_disabled true) "detectBtn"
    (alter (set_innerHTML []) "imagePreview"
       (alter (set_innerHTML []) "resultDisplay"
          (alter (class_add "active") "step2-indicator"
             (alter (class_add "completed") "step1-indicator"
                (alter (set_innerHTML (html_selected_plant plant))
                       "selectedPlantInfo"
                   (alter (set_display (u "block")) "selectedPlantInfo"
                      (alter (set_disabled false) "imageInput"
                         (alter (set_pointerEvents (u "auto"))
                                "imageUploadSection"
                            (alter (set_opacity (u "1"))
                                   "imageUploadSection" d))))))))).

Definition plant_cleared (d : gmap string element) : gmap string element :=
  alter (class_remove "active") "step2-indicator"
    (alter (class_remove "completed") "step1-indicator"
       (alter (set_display (u "none")) "selectedPlantInfo"
          (alter (set_disabled true) "imageInput"
             (alter (set_pointerEvents (u "none")) "imageUploadSection"
                (alter (set_opacity (u "0.5")) "imageUploadSection" d))))).

(** Pages and answers for the properties of the remaining handlers. *)
Module Scene.

(** The ids of [Sample.all_ids], those of the mode switch and the soil
    select. *)
Definition all_ids : list string :=
  Sample.all_ids
    ++ ["uploadBtn"; "cameraBtn"; "uploadOption"; "cameraOption"; "soilType"].

(** The page with [v] as the value of a blank element [id]. *)
Definition fill (id : string) (v : jsstring) (s : page) : page :=
  with_dom (<[id := set_value v Sample.blank]> (dom s)) s.

(** A fresh page with Pune typed as the city, between two spaces. *)
Definition city : page := fill "cityInput" (u " Pune ") Sample.fresh.

(** A fresh page with a lone surrogate typed as the city. *)
Definition bad_city : page := fill "cityInput" [0xD800%N] Sample.fresh.

(** The weather is filled in and no soil type is chosen. *)
Definition farm : page :=
  fill "soilType" []
    (fill "rainfall" (u "0")
       (fill "humidity" (u "60") (fill "temperature" (u "30") Sample.fresh))).

(** [farm] with a soil type chosen. *)
Definition field : page := fill "soilType" (u "Loamy") farm.

(** The camera runs on a page that has the mode switch. *)
Definition filming : page :=
  with_dom (Sample.document_of all_ids) Sample.busy.

(** Stand-ins for [parseFloat] and [JSON.stringify]. *)
Definition parseFloat (s : jsstring) : spec_float := S754_nan.
Definition JSON_stringify (v : val) : jsstring := u "{}".

(** Answers of the backend and of the geocoding service. *)
Definition unrenderable : list (string * val) := [("success", VBool true)].
Definition not_a_leaf : list (string * val) :=
  [("success", VBool false); ("message", VStr (u "Not a leaf"))].
Definition narrative : list (string * val) :=
  [("success", VBool true); ("method", VStr (u "gemini"));
   ("disease_info", VStr (u "Healthy"))].
Definition advice : list (string * val) :=
  [("success", VBool true); ("recommendations", VStr (u "1. Rice"))].
Definition found : list (string * val) :=
  [("results", VArr [VObj [("name", VStr (u "Pune"))]])].
Definition no_daily : list (string * val) :=
  [("current", VObj Sample.current)].

End Scene.

(* ===================================================================== *)
(** ** Properties of the matcher and of the formatters *)
(* ===================================================================== *)

Section MatcherFacts.

Lemma ltb_cons {A} (x : A) (s : list A) :
  (length s <? length (x :: s))%nat = true.
Proof. apply Nat.ltb_lt. simpl. lia. Qed.

Lemma replace_from_newline fuel s :
  (length s < fuel)%nat ->
  replace_from fuel re_newline (u "<br>") s = nl_to_br s.
Proof.
  revert fuel. induction s as [|x s IH]; intros [|fuel] Hlen; simpl in Hlen; try lia.
  - reflexivity.
  - cbn [replace_from re_newline rmatch].
    destruct (is_nl x) eqn:Hx.
    + rewrite ltb_cons, IH by lia. cbn [nl_to_br flat_map]. rewrite Hx. reflexivity.
    + rewrite IH by lia. cbn [nl_to_br flat_map]. rewrite Hx. reflexivity.
Qed.

Lemma replace_all_newline s :
  replace_all re_newline (u "<br>") s = nl_to_br s.
Proof. apply replace_from_newline. lia. Qed.

Lemma nl_to_br_app s t : nl_to_br (s ++ t) = nl_to_br s ++ nl_to_br t.
Proof. unfold nl_to_br. apply flat_map_app. Qed.

Lemma blank_lines_to_br_cons2 x y s :
  blank_lines_to_br (x :: y :: s) =
  if is_nl x && is_nl y
  then u "<br><br>" ++ blank_lines_to_br s
  else x :: blank_lines_to_br (y :: s).
Proof. reflexivity. Qed.

Lemma nl_to_br_cons x s :
  nl_to_br (x :: s) = (if is_nl x then u "<br>" else [x]) ++ nl_to_br s.
Proof. reflexivity. Qed.

Lemma replace_from_blank_line n : forall fuel s,
  (length s <= n)%nat -> (length s < fuel)%nat ->
  replace_from fuel re_blank_line (u "<br><br>") s = blank_lines_to_br s.
Proof.
  induction n as [|n IH]; intros [|fuel] s Hn Hlen; try lia.
  - destruct s; simpl in *; [reflexivity | lia].
  - destruct s as [|x [|y s]]; simpl in Hn, Hlen.
    + reflexivity.
    + cbn [replace_from re_blank_line rmatch flat_map fst snd].
      destruct (is_nl x); cbn [flat_map rmatch app fst snd];
        (destruct fuel; [lia | reflexivity]).
    + rewrite blank_lines_to_br_cons2.
      cbn [replace_from re_blank_line rmatch flat_map fst snd].
      destruct (is_nl x); cbn [flat_map rmatch app fst snd andb].
      * destruct (is_nl y); cbn [flat_map rmatch app fst snd].
        -- replace (length s <? length (x :: y :: s))%nat with true
             by (symmetry; apply Nat.ltb_lt; simpl; lia).
           rewrite IH by lia. reflexivity.
        -- rewrite IH by (simpl; lia). reflexivity.
      * rewrite IH by (simpl; lia). reflexivity.
Qed.

Lemma nl_to_br_blank_lines n : forall s, (length s <= n)%nat ->
  nl_to_br (blank_lines_to_br s) = nl_to_br s.
Proof.
  induction n as [|n IH]; intros s Hn.
  - destruct s; simpl in *; [reflexivity | lia].
  - destruct s as [|x [|y s]]; simpl in Hn; try reflexivity.
    rewrite blank_lines_to_br_cons2.
    destruct (is_nl x) eqn:Hx; cbn [andb].
    + destruct (is_nl y) eqn:Hy.
      * rewrite nl_to_br_app, IH by lia.
        rewrite !nl_to_br_cons, Hx, Hy. reflexivity.
      * rewrite nl_to_br_cons, IH by (simpl; lia).
        rewrite (nl_to_br_cons x). reflexivity.
    + rewrite nl_to_br_cons, IH by (simpl; lia).
      rewrite (nl_to_br_cons x). reflexivity.
Qed.

Lemma star_loop_char p s : forall fuel c,
  (length s <= fuel)%nat ->
  star_loop (rmatch (RChar p)) true fuel s c = star_char_results p s c.
Proof.
  induction s as [|x s IH]; intros [|fuel] c Hlen; simpl in Hlen; try lia;
    try reflexivity.
  cbn [star_loop rmatch star_char_results].
  destruct (p x); [|reflexivity].
  cbn [flat_map fst snd]. rewrite ltb_cons, app_nil_r, IH by lia.
  reflexivity.
Qed.

Lemma rmatch_plus_char p s c :
  rmatch (RPlus (RChar p)) s c =
  match s with
  | x :: s' => if p x then star_char_results p s' c else []
  | [] => []
  end.
Proof.
  unfold RPlus. cbn [rmatch]. destruct s as [|x s]; [reflexivity|].
  destruct (p x); [|reflexivity].
  cbn [flat_map fst snd]. rewrite app_nil_r. apply star_loop_char. lia.
Qed.

Lemma star_char_results_head p s c :
  exists tl, star_char_results p s c = (skip p s, c) :: tl.
Proof.
  induction s as [|x s [tl IH]]; cbn [star_char_results skip].
  - eauto.
  - destruct (p x); [|eauto]. rewrite IH. cbn [app]. eauto.
Qed.

Lemma flat_map_after_run (p : N -> bool) (k : jsstring -> capture -> list result) s c :
  (forall x t, p x = true -> k (x :: t) c = []) ->
  flat_map (fun sc => k (fst sc) (snd sc)) (star_char_results p s c)
  = k (skip p s) c.
Proof.
  intros Hk. induction s as [|x s IH]; cbn [star_char_results skip].
  - cbn [flat_map fst snd]. apply app_nil_r.
  - destruct (p x) eqn:Hx.
    + rewrite flat_map_app, IH. cbn [flat_map fst snd].
      rewrite (Hk _ _ Hx). rewrite !app_nil_r. reflexivity.
    + cbn [flat_map fst snd]. apply app_nil_r.
Qed.

Lemma after_digits_digit x t c :
  is_digit x = true -> rmatch re_after_digits (x :: t) c = [].
Proof.
  intros Hx. unfold re_after_digits. cbn [rmatch].
  destruct (N.eqb_spec 46 x) as [<-|_]; [discriminate Hx | reflexivity].
Qed.

Lemma rmatch_after_digits t c :
  rmatch re_after_digits t c =
  match t with
  | 46%N :: z :: r =>
      if is_space z then star_char_results is_space r c else []
  | _ => []
  end.
Proof.
  unfold re_after_digits. cbn [rmatch]. destruct t as [|y t]; [reflexivity|].
  destruct (N.eqb_spec 46 y) as [<-|Hy].
  - cbn [flat_map fst snd]. rewrite app_nil_r, rmatch_plus_char.
    destruct t; reflexivity.
  - cbn [flat_map]. destruct y as [|y]; [reflexivity|].
    repeat (destruct y as [y|y|]; try reflexivity). congruence.
Qed.

Lemma rmatch_digits_then s c :
  rmatch (RSeq (RPlus (RChar is_digit)) re_after_digits) s c =
  match s with
  | x :: s' =>
      if is_digit x then rmatch re_after_digits (skip is_digit s') c else []
  | [] => []
  end.
Proof.
  cbn [rmatch]. rewrite rmatch_plus_char. destruct s as [|x s]; [reflexivity|].
  destruct (is_digit x); [|reflexivity].
  apply (flat_map_after_run is_digit (rmatch re_after_digits)).
  intros; by apply after_digits_digit.
Qed.

Lemma span_skip p s : span p s ++ skip p s = s.
Proof.
  induction s as [|x s IH]; cbn [span skip]; [reflexivity|].
  destruct (p x); [|reflexivity]. cbn [app]. by rewrite IH.
Qed.

Lemma ordinal_at_split s marker rest :
  ordinal_at s = Some (marker, rest) ->
  s = marker ++ rest /\ (length rest < length s)%nat.
Proof.
  unfold ordinal_at. intros H.
  destruct (span is_digit s) as [|d ds] eqn:Hd; [discriminate|].
  destruct (skip is_digit s) as [|y r] eqn:Hs; [discriminate|].
  destruct (N.eq_dec y 46%N) as [->|Hy].
  2:{ destruct y as [|y]; [discriminate|].
      repeat (destruct y as [y|y|]; try discriminate). congruence. }
  destruct (span is_space r) as [|w ws] eqn:Hw; [discriminate|].
  injection H as <- <-.
  assert (Hsplit : s = ((d :: ds) ++ [46%N] ++ w :: ws) ++ skip is_space r).
  { rewrite <- (span_skip is_digit s) at 1. rewrite Hd, Hs.
    rewrite <- (span_skip is_space r) at 1. rewrite Hw.
    rewrite <- !app_assoc. reflexivity. }
  split; [exact Hsplit|].
  rewrite Hsplit, !length_app. simpl. lia.
Qed.

Lemma rmatch_group r s c :
  rmatch (RGroup r) s c =
  List.map (fun sc => (fst sc, Some (firstn (length s - length (fst sc)) s)))
           (rmatch r s c).
Proof. reflexivity. Qed.

Lemma rmatch_ordinal s :
  match ordinal_at s with
  | Some (marker, rest) =>
      exists tl, rmatch re_ordinal s None = (rest, Some marker) :: tl
  | None => rmatch re_ordinal s None = []
  end.
Proof.
  destruct (ordinal_at s) as [[marker rest]|] eqn:Hord.
  - destruct (ordinal_at_split _ _ _ Hord) as [Hsplit Hlt].
    revert Hord. unfold ordinal_at, re_ordinal.
    change (RSeq (RChar (N.eqb 46)) (RPlus (RChar is_space)))
      with re_after_digits.
    rewrite rmatch_group, rmatch_digits_then.
    destruct s as [|x s']; [discriminate|]. cbn [span skip].
    destruct (is_digit x); [|discriminate].
    rewrite rmatch_after_digits.
    destruct (skip is_digit s') as [|y r]; [discriminate|].
    destruct y as [|y]; [discriminate|].
    repeat (destruct y as [y|y|]; try discriminate).
    destruct r as [|z r']; [discriminate|]. cbn [span skip].
    destruct (is_space z); [|discriminate].
    intros [= Hm Hr].
    destruct (star_char_results_head is_space r' None) as [tl ->].
    cbn [List.map fst snd]. eexists. f_equal. f_equal; [exact Hr|].
    rewrite Hr. f_equal. rewrite Hsplit at 1 2.
    rewrite length_app, Nat.add_sub. apply take_app_length.
  - revert Hord. unfold ordinal_at, re_ordinal.
    change (RSeq (RChar (N.eqb 46)) (RPlus (RChar is_space)))
      with re_after_digits.
    rewrite rmatch_group, rmatch_digits_then.
    destruct s as [|x s']; [reflexivity|]. cbn [span skip].
    destruct (is_digit x); [|reflexivity].
    rewrite rmatch_after_digits.
    destruct (skip is_digit s') as [|y r]; [reflexivity|].
    destruct y as [|y]; [reflexivity|].
    repeat (destruct y as [y|y|]; try reflexivity).
    destruct r as [|z r']; [reflexivity|]. cbn [span skip].
    destruct (is_space z); [discriminate | reflexivity].
Qed.

Lemma expand_strong c :
  expand (u "<strong>$1</strong>") c
  = u "<strong>" ++ default [] c ++ u "</strong>".
Proof. reflexivity. Qed.

Lemma replace_from_ordinal n : forall fuel s,
  (length s <= n)%nat -> (length s < fuel)%nat ->
  Bolded s (replace_from fuel re_ordinal (u "<strong>$1</strong>") s).
Proof.
  induction n as [|n IH]; intros [|fuel] s Hn Hlen; try lia.
  - destruct s; simpl in Hn; [|lia]. cbv. constructor.
  - cbn [replace_from].
    pose proof (rmatch_ordinal s) as H.
    destruct (ordinal_at s) as [[marker rest]|] eqn:Hord.
    + destruct H as [tl ->].
      destruct (ordinal_at_split _ _ _ Hord) as [_ Hlt].
      replace (length rest <? length s)%nat with true
        by (symmetry; by apply Nat.ltb_lt).
      rewrite expand_strong. change (default [] (Some marker)) with marker.
      rewrite <- !app_assoc.
      eapply Bolded_marker; [exact Hord|]. apply IH; lia.
    + rewrite H. destruct s as [|x s]; [constructor|].
      apply Bolded_other; [exact Hord|]. apply IH; simpl in *; lia.
Qed.

Lemma Bolded_functional s out1 :
  Bolded s out1 -> forall out2, Bolded s out2 -> out1 = out2.
Proof.
  induction 1 as [|s m r o Hord _ IH|x s o Hord _ IH]; intros out2 H2.
  - inversion H2 as [|? ? ? ? Hord'|]; subst; [reflexivity|].
    discriminate Hord'.
  - inversion H2 as [|? ? ? ? Hord'|? ? ? Hord']; subst.
    + discriminate Hord.
    + rewrite Hord in Hord'. injection Hord' as <- <-.
      by rewrite (IH _ ltac:(eassumption)).
    + congruence.
  - inversion H2 as [|? ? ? ? Hord'|? ? ? Hord']; subst.
    + congruence.
    + by rewrite (IH _ ltac:(eassumption)).
Qed.

End MatcherFacts.

(** *** formatDiseaseInfo *)

(** C3: on the text ["**Bold**\n- a\n- b"] the formatter returns the bold
    word in a strong tag, a line break and one list around a single item for
    "a"; the last bullet has no newline after it, so the bullet pattern,
    which ends in the line break, does not match it and "- b" stays as
    plain text outside the list. *)
Theorem formatDiseaseInfo_last_bullet_not_listed :
  formatDiseaseInfo Sample.bold_and_bullets
  = u "<strong>Bold</strong><br><ul><li>a</li></ul>- b".
Proof. vm_compute. reflexivity. Qed.

(** With a newline after the last bullet both bullets become items of one
    list. *)
Lemma formatDiseaseInfo_bullets_with_final_newline :
  formatDiseaseInfo (Sample.bold_and_bullets ++ nl)
  = u "<strong>Bold</strong><br><ul><li>a</li><li>b</li></ul>".
Proof. vm_compute. reflexivity. Qed.

(** *** formatCropRecommendations *)

(** C8, as the code has it: for every text the result is the line-height
    container around a body made in two steps.  First every newline of the
    text becomes a line break (so a blank line becomes two of them).  Then,
    in the text with its line breaks, every marker, a run of digits, a full
    stop and a run of white space found left to right wherever it stands,
    is wrapped in a strong tag.  The markers are sought once the newlines
    are gone, so a newline is never the white space of a marker. *)
Theorem formatCropRecommendations_bolds_every_marker (text : jsstring) :
  exists body,
    formatCropRecommendations text
    = u "<div style=" ++ q ++ u "line-height: 1.8;" ++ q ++ u ">"
        ++ body ++ u "</div>"
    /\ Bolded (nl_to_br text) body.
Proof.
  unfold formatCropRecommendations. eexists. split; [reflexivity|].
  unfold replace_all at 2 3.
  rewrite (replace_from_blank_line (length text)) by lia.
  rewrite replace_from_newline by lia.
  rewrite (nl_to_br_blank_lines (length text)) by lia.
  eapply replace_from_ordinal; [reflexivity | lia].
Qed.

(** C8, as the claim has it, fails: in "Year 2024. Good" the year stands in
    the middle of the line and is set in bold all the same, which a
    formatter that bolds leading markers only would not do. *)
Lemma formatCropRecommendations_not_leading_only :
  formatCropRecommendations (u "Year 2024. Good")
  = u "<div style=" ++ q ++ u "line-height: 1.8;" ++ q ++ u ">"
      ++ u "Year <strong>2024. </strong>Good</div>"
  /\ formatCropRecommendations (u "Year 2024. Good")
     <> formatCropRecommendations_leading_only (u "Year 2024. Good").
Proof. split; [vm_compute; reflexivity | vm_compute; discriminate]. Qed.

(** A number and a full stop that only a newline follows are no marker:
    the newline is a line break by the time the markers are sought. *)
Lemma formatCropRecommendations_stop_before_newline :
  formatCropRecommendations (u "1." ++ nl ++ u "Rice")
  = u "<div style=" ++ q ++ u "line-height: 1.8;" ++ q ++ u ">"
      ++ u "1.<br>Rice</div>"
  /\ formatCropRecommendations (u "Year 2024." ++ nl ++ u "Good")
     = u "<div style=" ++ q ++ u "line-height: 1.8;" ++ q ++ u ">"
         ++ u "Year 2024.<br>Good</div>".
Proof. split; vm_compute; reflexivity. Qed.

(** On a numbered list the code and the reading of the claim agree. *)
Lemma formatCropRecommendations_numbered_list :
  formatCropRecommendations (u "1. Rice" ++ nl ++ nl ++ u "2. Wheat")
  = formatCropRecommendations_leading_only
      (u "1. Rice" ++ nl ++ nl ++ u "2. Wheat").
Proof. vm_compute. reflexivity. Qed.

(* ===================================================================== *)
(** ** Properties of the comparison with 0.8 *)
(* ===================================================================== *)

Section Binary64.
Open Scope Z_scope.



Lemma lit_0_8_nearest :
  in_ulps lit_0_8 = Some (7205759403792794 * 2 ^ (-53 + 1074))
  /\ Z.abs (5 * 7205759403792794 - 4 * 2 ^ 53) * 2 <= 5.
Proof. split; [reflexivity | vm_compute; discriminate]. Qed.

Lemma lit_0_8_is_8_div_10 :
  SFdiv prec emax (binary_normalize prec emax 8 0 false)
                  (binary_normalize prec emax 10 0 false) = lit_0_8.
Proof. vm_compute. reflexivity. Qed.



End Binary64.

(* ===================================================================== *)
(** ** Properties of the handlers *)
(* ===================================================================== *)

(** *** The document under writes *)

Section Exec.

Lemma has_element_alter f j (d : gmap string element) i :
  has_element (alter f j d) i = has_element d i.
Proof.
  unfold has_element. destruct (decide (j = i)) as [->|Hne].
  - rewrite lookup_alter_eq. by destruct (d !! i).
  - by rewrite lookup_alter_ne.
Qed.

Lemma has_element_lookup (d : gmap string element) i e :
  d !! i = Some e -> has_element d i = true.
Proof. unfold has_element. by intros ->. Qed.

End Exec.

(** Turn [present ids s = true] into one fact per id. *)
Ltac split_present H :=
  unfold present in H; cbn [forallb] in H;
  repeat (apply andb_prop in H; let H' := fresh "Hin" in destruct H as [H' H]);
  clear H.

(** Run a handler on a page whose lookups are known, all at once. *)
Ltac run :=
  repeat (progress (
    cbv [bind getElementById gets read update update_if modify ret throw emit
         alert console_error lift try_catch stop_tracks fetch_json as_text
         encode_component getUserMedia];
    cbn [dom with_dom with_selectedPlant with_selectedImage with_cameraStream
         negb andb orb with_guides with_live with_log selectedImage selectedPlant
         cameraStream container guides live log fst snd];
    rewrite ?has_element_alter;
    repeat match goal with
           | H : has_element _ _ = _ |- _ => rewrite H
           | H : dom _ !! _ = Some _ |- _ => rewrite H
           end)).

(** *** Running a handler one statement at a time *)

Section Steps.

Lemma run_ret {A B} (a : A) (k : A -> M B) s : bind (ret a) k s = k a s.
Proof. reflexivity. Qed.
Lemma run_gets {A B} (f : page -> A) (k : A -> M B) s :
  bind (gets f) k s = k (f s) s.
Proof. reflexivity. Qed.
Lemma run_modify {B} (f : page -> page) (k : unit -> M B) s :
  bind (modify f) k s = k tt (f s).
Proof. reflexivity. Qed.
Lemma run_emit {B} e (k : unit -> M B) s :
  bind (emit e) k s = k tt (with_log (log s ++ [e]) s).
Proof. reflexivity. Qed.
Lemma run_getElementById {B} id (k : ref -> M B) s :
  has_element (dom s) id = true ->
  bind (getElementById id) k s = k (Some id) s.
Proof. unfold bind, getElementById, gets. by intros ->. Qed.
Lemma run_getElementById_any {B} id (k : ref -> M B) s :
  bind (getElementById id) k s
  = k (if has_element (dom s) id then Some id else None) s.
Proof. reflexivity. Qed.
Lemma run_read {A B} id (f : element -> A) (k : A -> M B) s e :
  dom s !! id = Some e ->
  bind (read (Some id) f) k s = k (f e) s.
Proof. unfold bind, read. by intros ->. Qed.
Lemma run_update {B} id f (k : unit -> M B) s :
  bind (update (Some id) f) k s = k tt (with_dom (alter f id (dom s)) s).
Proof. reflexivity. Qed.
Lemma run_update_last id f s :
  update (Some id) f s = (Done tt, with_dom (alter f id (dom s)) s).
Proof. reflexivity. Qed.
Lemma run_update_if {B} r f (k : unit -> M B) s :
  bind (update_if r f) k s
  = k tt match r with
         | Some id => with_dom (alter f id (dom s)) s
         | None => s
         end.
Proof. by destruct r. Qed.
Lemma run_update_if_last r f s :
  update_if r f s
  = (Done tt, match r with
              | Some id => with_dom (alter f id (dom s)) s
              | None => s
              end).
Proof. by destruct r. Qed.
Lemma run_lift {A B} (a : A) (k : A -> M B) s :
  bind (lift (inr a)) k s = k a s.
Proof. reflexivity. Qed.
Lemma run_throw {A B} e (k : A -> M B) s :
  bind (throw e) k s = (Throw e, s).
Proof. reflexivity. Qed.
Lemma run_bind_assoc {A B C} (m : M A) (k : A -> M B) (h : B -> M C) s :
  bind (bind m k) h s = bind m (fun a => bind (k a) h) s.
Proof. unfold bind. destruct (m s) as [[a|e] s']; reflexivity. Qed.

(** *** Properties that statements keep *)

Lemma keeps_ret I {A} (a : A) : keeps I (ret a).
Proof. by intros s. Qed.
Lemma keeps_throw I {A} e : keeps I (@throw A e).
Proof. by intros s. Qed.
Lemma keeps_gets I {A} (f : page -> A) : keeps I (gets f).
Proof. by intros s. Qed.
Lemma keeps_lift I {A} (r : error + A) : keeps I (lift r).
Proof. destruct r as [e|a]; by intros st. Qed.
Lemma keeps_getElementById I id : keeps I (getElementById id).
Proof. by intros s. Qed.
Lemma keeps_as_text I v : keeps I (as_text v).
Proof. destruct v; by intros st. Qed.
Lemma keeps_bind I {A B} (m : M A) (k : A -> M B) :
  keeps I m -> (forall a, keeps I (k a)) -> keeps I (bind m k).
Proof.
  intros Hm Hk s HI. unfold bind. specialize (Hm s HI).
  destruct (m s) as [[a|e] s']; cbn [snd] in *; [by apply Hk | done].
Qed.
Lemma keeps_try I {A} (body : M A) (handler : error -> M A) :
  keeps I body -> (forall e, keeps I (handler e)) ->
  keeps I (try_catch body handler).
Proof.
  intros Hm Hk s HI. unfold try_catch. specialize (Hm s HI).
  destruct (body s) as [[a|e] s']; cbn [snd] in *; [done | by apply Hk].
Qed.
Lemma keeps_update I r f : dom_stable I f -> keeps I (update r f).
Proof. intros Hf s HI. destruct r; cbn; [by apply Hf | done]. Qed.
Lemma keeps_update_if I r f : dom_stable I f -> keeps I (update_if r f).
Proof. intros Hf s HI. destruct r; cbn; [by apply Hf | done]. Qed.
Lemma keeps_modify I (f : page -> page) :
  (forall s, I s -> I (f s)) -> keeps I (modify f).
Proof. intros Hf s HI. by apply Hf. Qed.
Lemma keeps_read I {A} r (f : element -> A) : keeps I (read r f).
Proof.
  intros s HI. unfold read. destruct r as [id|]; [|done].
  by destruct (dom s !! id).
Qed.
Lemma keeps_emit I e : log_stable I -> keeps I (emit e).
Proof. intros Hl s HI. cbn. by apply Hl. Qed.

Lemma spinner_hidden_log_stable : log_stable spinner_hidden.
Proof. by intros s l. Qed.

Lemma spinner_hidden_dom_stable f :
  (forall e, display (f e) = display e) -> dom_stable spinner_hidden f.
Proof.
  intros Hf s id. unfold spinner_hidden. cbn [dom with_dom].
  destruct (decide (id = "loadingSpinner")) as [->|Hne].
  - rewrite lookup_alter_eq. destruct (dom s !! "loadingSpinner") as [e|]; [|done].
    cbn. by rewrite Hf.
  - by rewrite lookup_alter_ne.
Qed.

Lemma spinner_hidden_after_hide s (d : gmap string element) :
  has_element d "loadingSpinner" = true ->
  spinner_hidden
    (with_dom (alter (set_display (u "none")) "loadingSpinner" d) s).
Proof.
  unfold has_element, spinner_hidden. cbn [dom with_dom].
  rewrite lookup_alter_eq. by destruct (d !! "loadingSpinner").
Qed.

Lemma spinner_hidden_has s :
  spinner_hidden s -> has_element (dom s) "loadingSpinner" = true.
Proof.
  unfold has_element, spinner_hidden. by destruct (dom s !! "loadingSpinner").
Qed.

Lemma drop_spaces_blank v : forallb is_space v = true -> drop_spaces v = [].
Proof.
  induction v as [|c v IH]; cbn [forallb drop_spaces]; [done|].
  intros [Hc Hv]%andb_prop. rewrite Hc. by apply IH.
Qed.

Lemma trim_blank v : forallb is_space v = true -> trim v = [].
Proof. intros Hv. unfold trim. rewrite (drop_spaces_blank v Hv). reflexivity. Qed.

Lemma requests_snoc_alert l message :
  requests (l ++ [EAlert message]) = requests l.
Proof. unfold requests. rewrite List.filter_app. apply app_nil_r. Qed.

Lemma lookup_has_element (d : gmap string element) id :
  has_element d id = true -> exists e, d !! id = Some e.
Proof. unfold has_element. destruct (d !! id); [eauto | discriminate]. Qed.

(** Induction on values, with the elements of an array at hand. *)
Lemma val_elements_ind (Q : val -> Prop) :
  Q VUndef -> Q VNull -> (forall b, Q (VBool b)) -> (forall x, Q (VNum x)) ->
  (forall s, Q (VStr s)) ->
  (forall items, Forall Q items -> Q (VArr items)) ->
  (forall fields, Q (VObj fields)) ->
  forall v, Q v.
Proof.
  intros Hundef Hnull Hbool Hnum Hstr Harr Hobj. fix IH 1.
  intros [| |b|x|s|items|fields];
    [exact Hundef|exact Hnull|apply Hbool|apply Hnum|apply Hstr| |apply Hobj].
  apply Harr. induction items as [|e items IHitems]; constructor;
    [apply IH | exact IHitems].
Qed.

Lemma texts_of_error (text : val -> error + jsstring) l e :
  Forall (fun v => forall e', text v = inl e' -> e' = TypeError) l ->
  texts_of text l = inl e -> e = TypeError.
Proof.
  intros Hl. revert e. induction Hl as [|x l Hx _ IH]; intros e;
    cbn [texts_of]; [discriminate|].
  destruct (text x) as [e1|s] eqn:Hhead.
  - intros [= <-]. by apply Hx.
  - unfold map_result. destruct (texts_of text l) as [e2|parts];
      [intros [= <-]; by apply IH | discriminate].
Qed.

(** A conversion to text fails with a TypeError only. *)
Lemma to_string_error {P : Platform} v e :
  to_string v = inl e -> e = TypeError.
Proof.
  revert e. induction v as [| |[]| | |items IHitems|fields]
    using val_elements_ind; intros e; cbn [to_string]; try discriminate.
  - unfold map_result.
    destruct (texts_of _ items) as [e'|parts] eqn:Htexts; [|discriminate].
    intros [= <-]. eapply texts_of_error; [|exact Htexts].
    eapply Forall_impl; [exact IHitems|]. intros v Hv e1.
    destruct v; try discriminate; apply Hv.
  - destruct (has_own _ _); [by intros [= <-] | discriminate].
Qed.

(** A value that has a text can be given to an input. *)
Lemma input_text_of_text {P : Platform} v text :
  to_string v = inr text -> exists shown, input_text v = inr shown.
Proof. destruct v; cbn; eauto. Qed.

End Steps.

(** Project fields out of an updated page. *)
Ltac page_simpl :=
  cbv beta iota;
  cbn [dom with_dom with_selectedPlant with_selectedImage with_cameraStream
       with_guides with_live with_log selectedImage selectedPlant
       cameraStream container guides live log fst snd negb get get0];
  rewrite ?has_element_alter.

(** Run the first statement of a handler. *)
Ltac step :=
  first
    [ rewrite run_ret
    | rewrite run_gets
    | rewrite run_modify
    | rewrite run_emit
    | rewrite run_lift
    | rewrite run_update
    | rewrite run_bind_assoc
    | rewrite run_getElementById by (page_simpl; assumption)
    | erewrite run_read; [|solve [page_simpl; eassumption]] ];
  page_simpl.

(** One rule of the [keeps] calculus, chosen by the shape of the
    statement; [side] settles what the rule asks of the property. *)
Ltac keeps_step side :=
  lazymatch goal with
  | |- keeps _ (ret _) => apply keeps_ret
  | |- keeps _ (throw _) => apply keeps_throw
  | |- keeps _ (gets _) => apply keeps_gets
  | |- keeps _ (lift _) => apply keeps_lift
  | |- keeps _ (getElementById _) => apply keeps_getElementById
  | |- keeps _ (as_text _) => apply keeps_as_text
  | |- keeps _ (read _ _) => apply keeps_read
  | |- keeps _ (emit _) => apply keeps_emit; side
  | |- keeps _ (update _ _) => apply keeps_update; side
  | |- keeps _ (update_if _ _) => apply keeps_update_if; side
  | |- keeps _ (modify _) => apply keeps_modify; side
  | |- keeps _ (try_catch _ _) => apply keeps_try; [|intros ?]
  | |- keeps _ (bind _ _) => apply keeps_bind; [|intros ?]
  | |- keeps _ (if ?b then _ else _) => destruct b
  | |- keeps _ (match ?x with _ => _ end) => destruct x
  end.

Ltac spinner_side :=
  first [ apply spinner_hidden_log_stable
        | apply spinner_hidden_dom_stable; intros []; reflexivity ].

Ltac keeps_spinner :=
  unfold console_error, alert; repeat keeps_step spinner_side.

(** *** The camera *)

Section Camera.

Lemma alter_missing f id (d : gmap string element) :
  has_element d id = false -> alter f id d = d.
Proof.
  unfold has_element. intros Hmiss. apply map_eq. intros i.
  destruct (decide (id = i)) as [<-|Hne].
  - rewrite lookup_alter_eq. by destruct (d !! id).
  - by rewrite lookup_alter_ne.
Qed.

Lemma has_element_camera_idle d id :
  has_element (camera_idle d) id = has_element d id.
Proof. unfold camera_idle. by rewrite !has_element_alter. Qed.

Lemma stopCamera_eq s :
  stopCamera s =
  if has_element (dom s) "cameraVideo"
  then (Done tt,
        with_guides (tail (guides s))
          (with_dom (camera_idle (dom s)) (release_camera s)))
  else (Throw TypeError, release_camera s).
Proof.
  destruct s as [img plant cam d cont g lv lg].
  unfold stopCamera, release_camera, camera_idle, stop_tracks.
  rewrite run_gets. page_simpl.
  assert (Hrest : forall s1 : page, dom s1 = d -> guides s1 = g ->
    (video <- getElementById "cameraVideo" ;;
     update video (set_srcObject None) ;;
     startBtn <- getElementById "startCameraBtn" ;;
     captureBtn <- getElementById "captureBtn" ;;
     stopBtn <- getElementById "stopCameraBtn" ;;
     update_if startBtn (set_display (u "inline-block")) ;;
     update_if captureBtn (set_display (u "none")) ;;
     update_if stopBtn (set_display (u "none")) ;;
     guideText <- gets guides ;;
     match guideText with
     | _ :: others => modify (with_guides others)
     | [] => ret tt
     end) s1
    = if has_element d "cameraVideo"
      then (Done tt,
            with_guides (tail g)
              (with_dom
                 (alter (set_display (u "none")) "stopCameraBtn"
                    (alter (set_display (u "none")) "captureBtn"
                       (alter (set_display (u "inline-block")) "startCameraBtn"
                          (alter (set_srcObject None) "cameraVideo" d))))
                 s1))
      else (Throw TypeError, s1)).
  { intros s1 Hd Hg.
    destruct s1 as [img1 plant1 cam1 d1 cont1 g1 lv1 lg1].
    cbn [dom guides] in Hd, Hg. subst d1 g1.
    destruct (has_element d "cameraVideo") eqn:Hvideo;
      destruct (has_element d "startCameraBtn") eqn:Hstart;
      destruct (has_element d "captureBtn") eqn:Hcapture;
      destruct (has_element d "stopCameraBtn") eqn:Hstop;
      run; try reflexivity;
      rewrite ?(alter_missing _ "stopCameraBtn")
        by (by rewrite ?has_element_alter);
      rewrite ?(alter_missing _ "captureBtn")
        by (by rewrite ?has_element_alter);
      rewrite ?(alter_missing _ "startCameraBtn")
        by (by rewrite ?has_element_alter);
      destruct g; reflexivity. }
  destruct cam as [st|].
  - rewrite run_bind_assoc, run_modify, run_modify. page_simpl.
    by rewrite Hrest.
  - rewrite run_ret. by rewrite Hrest.
Qed.

Lemma lookup_camera_idle d id :
  camera_idle d !! id = camera_idle_at id <$> d !! id.
Proof.
  unfold camera_idle, camera_idle_at.
  destruct (decide (id = "stopCameraBtn")) as [->|Hstop].
  { rewrite lookup_alter_eq, !lookup_alter_ne by done. reflexivity. }
  rewrite lookup_alter_ne by done.
  destruct (decide (id = "captureBtn")) as [->|Hcapture].
  { rewrite lookup_alter_eq, !lookup_alter_ne by done. reflexivity. }
  rewrite lookup_alter_ne by done.
  destruct (decide (id = "startCameraBtn")) as [->|Hstart].
  { rewrite lookup_alter_eq, !lookup_alter_ne by done. reflexivity. }
  rewrite lookup_alter_ne by done.
  destruct (decide (id = "cameraVideo")) as [->|Hvideo].
  { rewrite lookup_alter_eq. reflexivity. }
  rewrite lookup_alter_ne by done. by destruct (d !! id).
Qed.

Lemma camera_idle_at_idempotent id e :
  camera_idle_at id (camera_idle_at id e) = camera_idle_at id e.
Proof. unfold camera_idle_at. repeat case_decide; reflexivity. Qed.

Lemma camera_idle_idempotent d : camera_idle (camera_idle d) = camera_idle d.
Proof.
  apply map_eq. intros id. rewrite !lookup_camera_idle.
  destruct (d !! id) as [e|]; [|reflexivity].
  cbn. by rewrite camera_idle_at_idempotent.
Qed.

Lemma tail_one {A} (l : list A) : (length l <= 1)%nat -> tail l = [].
Proof. destruct l as [|x [|y l]]; cbn; [done | done | lia]. Qed.

Lemma stopCamera_releases s st :
  cameraStream s = Some st ->
  cameraStream (snd (stopCamera s)) = None
  /\ live (snd (stopCamera s)) = live s ∖ list_to_set st
  /\ selectedImage (snd (stopCamera s)) = selectedImage s
  /\ (has_element (dom s) "cameraVideo" = true ->
      fst (stopCamera s) = Done tt).
Proof.
  intros Hcam. rewrite stopCamera_eq. unfold release_camera. rewrite Hcam.
  by destruct (has_element (dom s) "cameraVideo").
Qed.



Lemma one_guide_dom_stable f : dom_stable one_guide f.
Proof. by intros s id. Qed.

Lemma one_guide_log_stable : log_stable one_guide.
Proof. by intros s l. Qed.

Lemma stopCamera_one_guide : keeps one_guide stopCamera.
Proof.
  intros s Hs. rewrite stopCamera_eq. unfold one_guide, release_camera in *.
  destruct (has_element (dom s) "cameraVideo"), (cameraStream s); cbn;
    try done; destruct (guides s); cbn in *; lia.
Qed.

Lemma startCamera_one_guide grant : keeps one_guide (startCamera grant).
Proof.
  intros s Hs. destruct s as [img plant cam d cont g lv lg].
  unfold one_guide in *. cbn [guides] in Hs. unfold startCamera.
  destruct (has_element d "cameraVideo") eqn:Hvideo;
    destruct (has_element d "startCameraBtn") eqn:Hstart;
    destruct (has_element d "captureBtn") eqn:Hcapture;
    destruct (has_element d "stopCameraBtn") eqn:Hstop;
    destruct grant as [st|]; destruct cont; destruct g as [|g0 g];
    run; cbn [length app]; cbn [length] in Hs; lia.
Qed.

End Camera.

Ltac one_guide_side :=
  first [ apply one_guide_log_stable
        | apply one_guide_dom_stable
        | intros []; unfold one_guide; cbn [guides]; done ].

Ltac keeps_one_guide :=
  unfold console_error, alert, fetch_json, stop_tracks, encode_component;
  repeat first [ apply stopCamera_one_guide | keeps_step one_guide_side ].

(** *** The handlers *)

Section Claims.
Context {P : Platform}.

(** C1: when no plant is selected (the variable is null or the empty
    string) or no image is selected, [detectDisease] only shows an alert and
    returns: the page is as before but for that alert in the log, and no
    request has been issued, whatever the network would have answered. *)
Theorem detectDisease_guard (resp : response) (s : page) :
  truthy (plant_val (selectedPlant s)) = false \/ selectedImage s = None ->
  detectDisease resp s
  = (Done tt,
     with_log (log s ++ [EAlert (if truthy (plant_val (selectedPlant s))
                                 then msg_select_image
                                 else msg_select_plant)]) s)
  /\ requests (log (snd (detectDisease resp s))) = requests (log s).
Proof.
  intros Hguard. unfold detectDisease.
  destruct (truthy (plant_val (selectedPlant s))) eqn:Hplant.
  - destruct Hguard as [|Himage]; [discriminate|].
    run. rewrite Hplant. run. rewrite Himage. run.
    split; [reflexivity|]. unfold requests. rewrite List.filter_app.
    apply app_nil_r.
  - run. rewrite Hplant. run.
    split; [reflexivity|]. unfold requests. rewrite List.filter_app.
    apply app_nil_r.
Qed.



(** Just above 0.8 the badge is high, at 0.8 and for a missing confidence
    it is medium, [true] counts as 1, and an object with a property
    [toString] of its own has no badge. *)
Lemma confidence_class_examples :
  confidence_class (VNum (S754_finite false 7205759403792795 (-53)))
  = inr (u "high-confidence")
  /\ confidence_class (VNum lit_0_8) = inr (u "medium-confidence")
  /\ confidence_class VUndef = inr (u "medium-confidence")
  /\ confidence_class (VBool true) = inr (u "high-confidence")
  /\ confidence_class (VObj [("toString", VNum (S754_zero false))])
     = inl TypeError.
Proof. repeat split. Qed.

(** C10, as the code has it: once the guard is passed on a page that holds
    the four elements used before the try block (language select, loading
    spinner, result display and analyzing-plant label), the loading spinner
    is hidden when the handler is done, whether the request fails, the body
    does not parse, or the backend answers with any value at all (a success
    envelope, a failure envelope, or something that makes the rendering
    throw). *)
Theorem detectDisease_hides_spinner (resp : response) (s : page) (img : file) :
  truthy (plant_val (selectedPlant s)) = true ->
  selectedImage s = Some img ->
  present ["languageSelect"; "loadingSpinner"; "resultDisplay";
           "analyzingPlant"] s = true ->
  display <$> dom (snd (detectDisease resp s)) !! "loadingSpinner"
  = Some (u "none").
Proof.
  intros Hplant Himage Hpresent. split_present Hpresent.
  assert (Hlang : exists e, dom s !! "languageSelect" = Some e).
  { unfold has_element in Hin.
    destruct (dom s !! "languageSelect"); [eauto | discriminate]. }
  destruct Hlang as [lang Hlang].
  change (spinner_hidden (snd (detectDisease resp s))).
  unfold detectDisease.
  step. rewrite Hplant. page_simpl. step. rewrite Himage. page_simpl.
  do 9 step.
  match goal with
  | |- spinner_hidden (snd (try_catch _ _ ?s1)) =>
      assert (Hspin : has_element (dom s1) "loadingSpinner" = true)
        by (page_simpl; assumption);
      generalize dependent s1
  end.
  intros s1 Hspin.
  assert (Hcatch : forall s2,
    has_element (dom s2) "loadingSpinner" = true ->
    spinner_hidden (snd
      ((update (Some "loadingSpinner") (set_display (u "none")) ;;
        update (Some "resultDisplay") (set_innerHTML html_detect_error) ;;
        console_error (u "Detection error:")) s2))).
  { intros s2 Hs2. step.
    match goal with
    | |- spinner_hidden (snd (?m ?s3)) =>
        assert (Hk : keeps spinner_hidden m) by keeps_spinner; apply Hk
    end.
    by apply spinner_hidden_after_hide. }
  unfold try_catch, fetch_json. step. step.
  destruct resp as [| |data].
  - rewrite run_throw. apply Hcatch. page_simpl. assumption.
  - rewrite run_throw. apply Hcatch. page_simpl. assumption.
  - do 2 step.
    match goal with
    | |- context [bind ?m ?k ?s2] =>
        assert (Hkeep : keeps spinner_hidden (bind m k)) by keeps_spinner;
        assert (Hs2 : spinner_hidden s2)
          by (apply spinner_hidden_after_hide; page_simpl; assumption);
        specialize (Hkeep s2 Hs2);
        destruct (bind m k s2) as [[a|e] s3]
    end.
    + exact Hkeep.
    + apply Hcatch. by apply spinner_hidden_has.
Qed.

(** C4: when the city input is empty, holds white space only, or holds the
    placeholder "Detecting location...", [getWeather] shows an alert and
    returns without a request. *)
Theorem getWeather_rejects_blank_city (resp : response) (s : page)
    (input : element) :
  dom s !! "cityInput" = Some input ->
  value input = []
  \/ forallb is_space (value input) = true
  \/ value input = placeholder_city ->
  getWeather resp s
  = (Done tt, with_log (log s ++ [EAlert msg_enter_city]) s)
  /\ requests (log (snd (getWeather resp s))) = requests (log s).
Proof.
  intros Hinput Hcity.
  pose proof (has_element_lookup _ _ _ Hinput) as Hhas.
  assert (Hgo : getWeather resp s
                = (Done tt, with_log (log s ++ [EAlert msg_enter_city]) s)).
  { unfold getWeather. repeat step. rewrite run_getElementById_any.
    assert (Hreject : negb (truthy (VStr (trim (value input))))
                      || bool_decide (trim (value input) = placeholder_city)
                      = true).
    { destruct Hcity as [Hempty | [Hblank | Hplace]].
      - by rewrite Hempty.
      - by rewrite trim_blank.
      - rewrite Hplace. apply orb_true_iff. right. by apply bool_decide_eq_true. }
    rewrite Hreject. reflexivity. }
  split; [exact Hgo|]. rewrite Hgo. cbn [snd log with_log].
  apply requests_snoc_alert.
Qed.

(** C5, as the code has it: on a page that holds the plant select and the
    eight elements the handler writes (image upload section, image input,
    selected-plant info, the indicators of steps 1 and 2, result display,
    image preview and detect button), [plantSelected] returns normally and
    takes the value of the plant select, whatever was selected before.
    When that value is not empty the selected image is reset to null, the
    result display is cleared and the detect button is disabled; when it is
    empty all three are left as they are. *)
Theorem plantSelected_resets_on_choice (s : page) (select : element) :
  dom s !! "plantSelect" = Some select ->
  present ["imageUploadSection"; "imageInput"; "selectedPlantInfo";
           "step1-indicator"; "step2-indicator"; "resultDisplay";
           "imagePreview"; "detectBtn"] s = true ->
  let r := plantSelected s in
  fst r = Done tt
  /\ selectedPlant (snd r) = Some (value select)
  /\ (value select <> [] ->
      selectedImage (snd r) = None
      /\ innerHTML <$> dom (snd r) !! "resultDisplay" = Some []
      /\ disabled <$> dom (snd r) !! "detectBtn" = Some true)
  /\ (value select = [] ->
      selectedImage (snd r) = selectedImage s
      /\ dom (snd r) !! "resultDisplay" = dom s !! "resultDisplay"
      /\ dom (snd r) !! "detectBtn" = dom s !! "detectBtn").
Proof.
  intros Hselect Hpresent r. split_present Hpresent.
  pose proof (has_element_lookup _ _ _ Hselect) as Hhas.
  destruct (lookup_has_element _ _ Hin4) as [result Hresult].
  destruct (lookup_has_element _ _ Hin6) as [button Hbutton].
  subst r. unfold plantSelected. repeat step.
  destruct (value select) as [|c chosen] eqn:Hvalue.
  - cbn [plant_val truthy]. repeat step. rewrite run_update_last. page_simpl.
    repeat split; try done; by rewrite !lookup_alter_ne by done.
  - cbn [plant_val truthy]. repeat step. rewrite run_update_last. page_simpl.
    repeat split; try done.
    + rewrite !lookup_alter_ne by done. rewrite lookup_alter_eq.
      rewrite !lookup_alter_ne by done. by rewrite Hresult.
    + rewrite lookup_alter_eq. rewrite !lookup_alter_ne by done.
      by rewrite Hbutton.
Qed.

(** C9, as the code has it: on a page with the four elements that are
    written, for a weather object whose current readings have a text and
    whose [daily.precipitation_sum[0]] can be read (neither [daily] nor
    [daily.precipitation_sum] is null or undefined), [displayWeather]
    returns normally and sets the rainfall input to "0" when the first
    entry is absent or falsy, and to the text of the first entry when that
    is a truthy number. *)
Theorem displayWeather_rainfall (s : page) (cityName : val)
    (weather current : list (string * val)) (sums first_day : val)
    (temperature humidity wind precipitation : jsstring) :
  lookup_field "current" weather = VObj current ->
  to_string (lookup_field "temperature_2m" current) = inr temperature ->
  to_string (lookup_field "relative_humidity_2m" current) = inr humidity ->
  to_string (lookup_field "wind_speed_10m" current) = inr wind ->
  to_string (lookup_field "precipitation" current) = inr precipitation ->
  get (lookup_field "daily" weather) "precipitation_sum" = inr sums ->
  get0 sums = inr first_day ->
  present ["weatherDisplay"; "temperature"; "humidity"; "rainfall"] s = true ->
  let r := displayWeather (VObj weather) cityName s in
  (truthy first_day = false ->
   fst r = Done tt /\ value <$> dom (snd r) !! "rainfall" = Some (u "0"))
  /\ (forall x, first_day = VNum x -> truthy first_day = true ->
      fst r = Done tt
      /\ value <$> dom (snd r) !! "rainfall" = Some (number_to_string x)).
Proof.
  intros Hcurrent Htemperature Hhumidity Hwind Hprecipitation Hsums Hfirst
    Hpresent r.
  split_present Hpresent.
  destruct (lookup_has_element _ _ Hin2) as [rain Hrain].
  destruct (input_text_of_text _ _ Htemperature) as [tv Htv].
  destruct (input_text_of_text _ _ Hhumidity) as [hv Hhv].
  assert (Hrun : forall shown,
    input_text (or_else first_day (VNum (S754_zero false))) = inr shown ->
    fst r = Done tt /\ value <$> dom (snd r) !! "rainfall" = Some shown).
  { intros shown Hshown. subst r. unfold displayWeather.
    step. cbn [get]. rewrite Hcurrent. do 2 step.
    cbn [get]. step. rewrite Htemperature. step.
    step. rewrite Hhumidity. step.
    step. rewrite Hwind. step.
    step. rewrite Hprecipitation. step.
    do 2 step. rewrite Htv. do 2 step.
    step. rewrite Hhv. do 2 step.
    step. rewrite Hsums. step. rewrite Hfirst. step.
    rewrite Hshown. do 2 step.
    rewrite run_getElementById_any, run_update_if. page_simpl.
    rewrite run_getElementById_any, run_update_if_last. page_simpl.
    destruct (has_element (dom s) "cropRecommendBtn");
      page_simpl; destruct (has_element (dom s) "cropDisplay");
      page_simpl; (split; [reflexivity|]);
      rewrite ?lookup_alter_ne by done; rewrite lookup_alter_eq;
      rewrite !lookup_alter_ne by done; by rewrite Hrain. }
  split.
  - intros Hfalsy. apply Hrun. unfold or_else. by rewrite Hfalsy.
  - intros x Hx Htruthy. apply Hrun. unfold or_else.
    by rewrite Htruthy, Hx.
Qed.

(** C7, as the code has it: from every page with at most one guide
    overlay, which is what the guard of [startCamera] maintains, a second
    [stopCamera] ends as the first did and leaves its final state as it
    is.  After a call no stream is held; with no stream held no track is
    touched; and where the video element exists the call returns normally
    with the video source detached, the start button shown, the capture
    and stop buttons hidden (each if it exists) and no guide overlay
    left. *)
Theorem stopCamera_idempotent (s : page) :
  one_guide s ->
  stopCamera (snd (stopCamera s)) = stopCamera s
  /\ cameraStream (snd (stopCamera s)) = None
  /\ (cameraStream s = None -> live (snd (stopCamera s)) = live s)
  /\ (has_element (dom s) "cameraVideo" = true ->
      let s' := snd (stopCamera s) in
      fst (stopCamera s) = Done tt
      /\ srcObject <$> dom s' !! "cameraVideo" = Some None
      /\ display <$> dom s' !! "startCameraBtn"
         = (fun _ => u "inline-block") <$> dom s !! "startCameraBtn"
      /\ display <$> dom s' !! "captureBtn"
         = (fun _ => u "none") <$> dom s !! "captureBtn"
      /\ display <$> dom s' !! "stopCameraBtn"
         = (fun _ => u "none") <$> dom s !! "stopCameraBtn"
      /\ guides s' = []).
Proof.
  intros Hguide. unfold one_guide in Hguide.
  destruct s as [img plant cam d cont g lv lg]. cbn [guides] in Hguide.
  rewrite (stopCamera_eq (MkPage img plant cam d cont g lv lg)).
  cbn [dom guides cameraStream live].
  destruct (has_element d "cameraVideo") eqn:Hvideo; cbn [fst snd].
  - repeat split.
    + rewrite stopCamera_eq. destruct cam; cbn; rewrite has_element_camera_idle, Hvideo,
        camera_idle_idempotent, (tail_one g Hguide); reflexivity.
    + by destruct cam.
    + by intros ->.
    + destruct cam; cbn [snd dom with_dom with_guides release_camera];
        rewrite lookup_camera_idle; unfold has_element in Hvideo;
        by destruct (d !! "cameraVideo").
    + destruct cam; cbn [snd dom with_dom with_guides release_camera];
        rewrite lookup_camera_idle; by destruct (d !! "startCameraBtn").
    + destruct cam; cbn [snd dom with_dom with_guides release_camera];
        rewrite lookup_camera_idle; by destruct (d !! "captureBtn").
    + destruct cam; cbn [snd dom with_dom with_guides release_camera];
        rewrite lookup_camera_idle; by destruct (d !! "stopCameraBtn").
    + destruct cam; cbn; by apply tail_one.
  - repeat split; try discriminate.
    + rewrite stopCamera_eq. destruct cam; cbn; by rewrite Hvideo.
    + by destruct cam.
    + by intros ->.
Qed.

(** C6, as the code has it: when the callback of [toBlob] runs on a page
    that holds a stream and has the preview, the detect button and the two
    step indicators, the named file is the selected image, no stream is held
    any more and every track of the stream has been stopped. *)
Theorem captureImage_callback_stops_camera (blob : option jsstring)
    (now : N) (dataURL : jsstring) (s : page) (st : stream) :
  cameraStream s = Some st ->
  present ["imagePreview"; "detectBtn"; "step2-indicator";
           "step3-indicator"] s = true ->
  let r := captureImage_callback blob now dataURL s in
  selectedImage (snd r)
  = Some (File [blob]
               (plant_text (selectedPlant s) ++ u "_" ++ digits now ++ u ".jpg")
               (u "image/jpeg"))
  /\ cameraStream (snd r) = None
  /\ (forall t, t ∈ st -> t ∉ live (snd r))
  /\ (has_element (dom s) "cameraVideo" = true -> fst r = Done tt).
Proof.
  intros Hcam Hpresent r. split_present Hpresent.
  subst r. unfold captureImage_callback. repeat step.
  match goal with
  | |- context [stopCamera ?s5] =>
      destruct (stopCamera_releases s5 st Hcam) as (Hoff & Hlive & Himg & Hdone)
  end.
  rewrite Himg, Hoff, Hlive. page_simpl. repeat split.
  - intros t Ht. rewrite elem_of_difference, elem_of_list_to_set. tauto.
  - intros Hvideo. apply Hdone. page_simpl. exact Hvideo.
Qed.

(** No handler brings a second guide overlay into the document. *)
Theorem one_guide_invariant (resp : response) (grant : option stream)
    (blob : option jsstring) (now : N) (dataURL : jsstring)
    (weatherData cityName : val) :
  keeps one_guide plantSelected
  /\ keeps one_guide stopCamera
  /\ keeps one_guide switchToUpload
  /\ keeps one_guide (startCamera grant)
  /\ keeps one_guide captureImage
  /\ keeps one_guide (captureImage_callback blob now dataURL)
  /\ keeps one_guide (detectDisease resp)
  /\ keeps one_guide (displayWeather weatherData cityName)
  /\ keeps one_guide (getWeather resp).
Proof.
  assert (Hweather : forall w c, keeps one_guide (displayWeather w c)).
  { intros w c. unfold displayWeather. keeps_one_guide. }
  repeat split.
  - unfold plantSelected. keeps_one_guide.
  - apply stopCamera_one_guide.
  - unfold switchToUpload. keeps_one_guide.
  - apply startCamera_one_guide.
  - unfold captureImage. keeps_one_guide.
  - unfold captureImage_callback. keeps_one_guide.
  - unfold detectDisease. keeps_one_guide.
  - apply Hweather.
  - unfold getWeather. keeps_one_guide; apply Hweather.
Qed.

End Claims.

(* ===================================================================== *)
(** ** The properties on sample pages *)
(* ===================================================================== *)

(** C1 on a freshly loaded page: nothing is selected. *)
Lemma detectDisease_guard_witness :
  (truthy (plant_val (selectedPlant Sample.fresh)) = false
   \/ selectedImage Sample.fresh = None)
  /\ detectDisease NetworkError Sample.fresh
     = (Done tt, with_log (log Sample.fresh ++ [EAlert msg_select_plant])
                          Sample.fresh)
  /\ requests (log (snd (detectDisease NetworkError Sample.fresh)))
     = requests (log Sample.fresh).
Proof.
  split; [left; reflexivity|].
  apply (detectDisease_guard NetworkError Sample.fresh). left. reflexivity.
Defined.


(** C10 on a request that fails. *)
Lemma detectDisease_hides_spinner_witness :
  present ["languageSelect"; "loadingSpinner"; "resultDisplay";
           "analyzingPlant"] Sample.ready = true
  /\ display <$> dom (snd (detectDisease NetworkError Sample.ready))
                   !! "loadingSpinner"
     = Some (u "none").
Proof.
  split; [reflexivity|].
  apply (detectDisease_hides_spinner NetworkError Sample.ready Sample.leaf);
    reflexivity.
Defined.

(** C10, as the claim has it, fails: on a page without the result display
    the run passes the guard, shows the spinner and throws at the result
    display, before the [try]; the spinner stays visible and no request is
    issued. *)
Lemma detectDisease_leaves_spinner_on :
  truthy (plant_val (selectedPlant Sample.no_result)) = true
  /\ selectedImage Sample.no_result = Some Sample.leaf
  /\ fst (detectDisease NetworkError Sample.no_result) = Throw TypeError
  /\ display <$> dom (snd (detectDisease NetworkError Sample.no_result))
                   !! "loadingSpinner" = Some (u "block")
  /\ requests (log (snd (detectDisease NetworkError Sample.no_result))) = [].
Proof. repeat (split; [vm_compute; reflexivity|]). vm_compute. reflexivity. Qed.

(** C4 on a city of three spaces. *)
Lemma getWeather_rejects_blank_city_witness :
  forallb is_space (u "   ") = true
  /\ getWeather NetworkError Sample.typing
     = (Done tt, with_log (log Sample.typing ++ [EAlert msg_enter_city])
                          Sample.typing)
  /\ requests (log (snd (getWeather NetworkError Sample.typing)))
     = requests (log Sample.typing).
Proof.
  split; [reflexivity|].
  apply (getWeather_rejects_blank_city NetworkError Sample.typing
           (set_value (u "   ") Sample.blank)).
  - reflexivity.
  - right. left. reflexivity.
Defined.

(** C5 on Tomato chosen again. *)
Lemma plantSelected_resets_on_choice_witness :
  fst (plantSelected Sample.choosing) = Done tt
  /\ selectedPlant (snd (plantSelected Sample.choosing)) = Some (u "Tomato")
  /\ (u "Tomato" <> [] ->
      selectedImage (snd (plantSelected Sample.choosing)) = None
      /\ innerHTML <$> dom (snd (plantSelected Sample.choosing))
                       !! "resultDisplay" = Some []
      /\ disabled <$> dom (snd (plantSelected Sample.choosing))
                      !! "detectBtn" = Some true)
  /\ (u "Tomato" = [] ->
      selectedImage (snd (plantSelected Sample.choosing))
      = selectedImage Sample.choosing
      /\ dom (snd (plantSelected Sample.choosing)) !! "resultDisplay"
         = dom Sample.choosing !! "resultDisplay"
      /\ dom (snd (plantSelected Sample.choosing)) !! "detectBtn"
         = dom Sample.choosing !! "detectBtn").
Proof.
  apply (plantSelected_resets_on_choice Sample.choosing
           (set_value (u "Tomato") Sample.blank)); reflexivity.
Defined.

(** C5, as the claim has it, fails: with the empty option chosen on a page
    that holds an image and shows a result, the image stays selected, the
    result stays on display and the detect button stays enabled. *)
Lemma plantSelected_keeps_image_on_empty_choice :
  fst (plantSelected Sample.busy) = Done tt
  /\ selectedPlant (snd (plantSelected Sample.busy)) = Some []
  /\ selectedImage (snd (plantSelected Sample.busy)) = Some Sample.leaf
  /\ innerHTML <$> dom (snd (plantSelected Sample.busy)) !! "resultDisplay"
     = Some (u "<p>old result</p>")
  /\ disabled <$> dom (snd (plantSelected Sample.busy)) !! "detectBtn"
     = Some false
  /\ ~ (selectedImage (snd (plantSelected Sample.busy)) = None
        /\ innerHTML <$> dom (snd (plantSelected Sample.busy))
                         !! "resultDisplay" = Some []
        /\ disabled <$> dom (snd (plantSelected Sample.busy)) !! "detectBtn"
           = Some true).
Proof.
  repeat (split; [vm_compute; reflexivity|]).
  intros (Himage & _). vm_compute in Himage. discriminate Himage.
Qed.

(** C6 on a page with the camera running. *)
Lemma captureImage_callback_stops_camera_witness :
  cameraStream Sample.busy = Some [1%nat]
  /\ selectedImage
       (snd (captureImage_callback (Some (u "jpeg")) 1700000000000
               (u "data:,") Sample.busy))
     = Some (File [Some (u "jpeg")]
                  (plant_text (selectedPlant Sample.busy) ++ u "_"
                     ++ digits 1700000000000 ++ u ".jpg")
                  (u "image/jpeg"))
  /\ cameraStream
       (snd (captureImage_callback (Some (u "jpeg")) 1700000000000
               (u "data:,") Sample.busy)) = None
  /\ (forall t, t ∈ [1%nat] ->
      t ∉ live (snd (captureImage_callback (Some (u "jpeg")) 1700000000000
                       (u "data:,") Sample.busy)))
  /\ (has_element (dom Sample.busy) "cameraVideo" = true ->
      fst (captureImage_callback (Some (u "jpeg")) 1700000000000
             (u "data:,") Sample.busy) = Done tt).
Proof.
  split; [reflexivity|].
  apply (captureImage_callback_stops_camera (Some (u "jpeg")) 1700000000000
           (u "data:,") Sample.busy [1%nat]); reflexivity.
Defined.

(** C6, as the claim has it, fails: on a page without the preview element
    the callback stores the file and then throws at the preview, before it
    reaches [stopCamera]; the stream is still held and its track is still
    capturing. *)
Lemma captureImage_callback_leaves_camera_on :
  fst (captureImage_callback (Some (u "jpeg")) 1700000000000 (u "data:,")
         Sample.no_preview) = Throw TypeError
  /\ selectedImage
       (snd (captureImage_callback (Some (u "jpeg")) 1700000000000
               (u "data:,") Sample.no_preview)) = Some Sample.captured
  /\ cameraStream
       (snd (captureImage_callback (Some (u "jpeg")) 1700000000000
               (u "data:,") Sample.no_preview)) = Some [1%nat]
  /\ 1%nat ∈ live
       (snd (captureImage_callback (Some (u "jpeg")) 1700000000000
               (u "data:,") Sample.no_preview)).
Proof.
  split; [vm_compute; reflexivity|].
  split; [vm_compute; reflexivity|].
  split; [vm_compute; reflexivity|].
  apply (bool_decide_unpack _). vm_compute. exact I.
Qed.

(** C7 on a page with the camera running and its guide overlay. *)
Lemma stopCamera_idempotent_witness :
  one_guide Sample.busy
  /\ stopCamera (snd (stopCamera Sample.busy)) = stopCamera Sample.busy
  /\ cameraStream (snd (stopCamera Sample.busy)) = None
  /\ guides (snd (stopCamera Sample.busy)) = [].
Proof.
  assert (Hguide : one_guide Sample.busy) by (unfold one_guide; cbn; lia).
  destruct (stopCamera_idempotent Sample.busy Hguide)
    as (Hsame & Hoff & _ & Hrest).
  destruct (Hrest eq_refl) as (_ & _ & _ & _ & _ & Hgone).
  repeat split; assumption.
Defined.

(** C7, as the claim has it, fails: on a page that holds two guide
    overlays each call removes one, so the second call leaves another page
    than the first. *)
Lemma stopCamera_twice_removes_two_guides :
  guides (snd (stopCamera Sample.two_guides)) = [guide_text (u "Tomato")]
  /\ guides (snd (stopCamera (snd (stopCamera Sample.two_guides)))) = []
  /\ snd (stopCamera (snd (stopCamera Sample.two_guides)))
     <> snd (stopCamera Sample.two_guides).
Proof.
  split; [vm_compute; reflexivity|]. split; [vm_compute; reflexivity|].
  intros Hsame. apply (f_equal guides) in Hsame. vm_compute in Hsame.
  discriminate Hsame.
Qed.

(** C9 on a snapshot with 100 mm on the first day. *)
Lemma displayWeather_rainfall_witness :
  fst (displayWeather (VObj Sample.wet) VUndef Sample.fresh) = Done tt
  /\ value <$> dom (snd (displayWeather (VObj Sample.wet) VUndef
                           Sample.fresh)) !! "rainfall"
     = Some (number_to_string lit_100).
Proof.
  exact (proj2 (displayWeather_rainfall Sample.fresh VUndef Sample.wet
           Sample.current (VArr [VNum lit_100]) (VNum lit_100)
           (number_to_string lit_100) (number_to_string lit_100)
           (u "0") (u "0")
           eq_refl eq_refl eq_refl eq_refl eq_refl eq_refl eq_refl eq_refl)
           lit_100 eq_refl eq_refl).
Defined.

(** C9, as the claim has it, fails: where the daily part has no
    precipitation sums the first entry is absent, the read of it throws,
    and the rainfall input keeps the 12 it held instead of being set to
    0. *)
Lemma displayWeather_keeps_rainfall_without_sums :
  lookup_field "precipitation_sum" [] = VUndef
  /\ fst (displayWeather (VObj Sample.no_sums) VUndef Sample.rained)
     = Throw TypeError
  /\ value <$> dom (snd (displayWeather (VObj Sample.no_sums) VUndef
                           Sample.rained)) !! "rainfall"
     = Some (u "12").
Proof. repeat (split; [vm_compute; reflexivity|]). vm_compute. reflexivity. Qed.
(* ===================================================================== *)
(** ** Further properties of the matcher and of the formatters *)
(* ===================================================================== *)

Section ReplaceFacts.

(** More fuel than the text is long changes nothing. *)
Lemma replace_from_fuel r repl n : forall s fuel1 fuel2,
  (length s <= n)%nat -> (length s < fuel1)%nat -> (length s < fuel2)%nat ->
  replace_from fuel1 r repl s = replace_from fuel2 r repl s.
Proof.
  induction n as [|n IH]; intros s [|f1] [|f2] Hn H1 H2; try lia.
  - destruct s; [|simpl in Hn; lia]. reflexivity.
  - cbn [replace_from].
    assert (Hstep : match s with
                    | [] => []
                    | x :: s' => x :: replace_from f1 r repl s'
                    end
                    = match s with
                      | [] => []
                      | x :: s' => x :: replace_from f2 r repl s'
                      end).
    { destruct s as [|x s']; [reflexivity|]. simpl in *.
      f_equal. apply IH; lia. }
    destruct (rmatch r s None) as [|[rest c] tl]; [exact Hstep|].
    destruct (Nat.ltb_spec (length rest) (length s)) as [Hlt|Hge].
    + f_equal. apply IH; lia.
    + f_equal. exact Hstep.
Qed.

Lemma replace_all_fuel r repl s fuel :
  (length s < fuel)%nat -> replace_from fuel r repl s = replace_all r repl s.
Proof.
  intros H. unfold replace_all. apply (replace_from_fuel r repl (length s)); lia.
Qed.

Lemma replace_all_skip r repl x s :
  rmatch r (x :: s) None = [] ->
  replace_all r repl (x :: s) = x :: replace_all r repl s.
Proof.
  intros H. unfold replace_all at 1. cbn [replace_from length]. rewrite H.
  reflexivity.
Qed.

Lemma replace_all_hit r repl s rest c tl :
  rmatch r s None = (rest, c) :: tl ->
  (length rest < length s)%nat ->
  replace_all r repl s = expand repl c ++ replace_all r repl rest.
Proof.
  intros H Hlt. unfold replace_all at 1. cbn [replace_from]. rewrite H.
  replace (length rest <? length s)%nat with true
    by (symmetry; by apply Nat.ltb_lt).
  f_equal. apply replace_all_fuel. lia.
Qed.

Lemma replace_all_end r repl :
  rmatch r [] None = [] -> replace_all r repl [] = [].
Proof. intros H. unfold replace_all. cbn. by rewrite H. Qed.

(** A pattern that can start on none of the code units of a text leaves
    the text as it is. *)
Lemma replace_all_absent r repl (start : N -> bool) s :
  (forall x t, start x = false -> rmatch r (x :: t) None = []) ->
  rmatch r [] None = [] ->
  Forall (fun x => start x = false) s ->
  replace_all r repl s = s.
Proof.
  intros Hstart Hend. induction 1 as [|x s Hx _ IH].
  - by apply replace_all_end.
  - rewrite replace_all_skip by (by apply Hstart). by rewrite IH.
Qed.

Lemma replace_all_app_absent r repl (start : N -> bool) a s :
  (forall x t, start x = false -> rmatch r (x :: t) None = []) ->
  Forall (fun x => start x = false) a ->
  replace_all r repl (a ++ s) = a ++ replace_all r repl s.
Proof.
  intros Hstart. induction 1 as [|x a Hx _ IH]; [reflexivity|].
  cbn [app]. rewrite replace_all_skip by (by apply Hstart). by rewrite IH.
Qed.

(** *** What a match and a replacement are made of *)

Section Closed.
Variable Pre : jsstring -> capture -> Prop.
Hypothesis Pre_tail : forall x t c, Pre (x :: t) c -> Pre t c.
Hypothesis Pre_group :
  forall s c rest c1 k, Pre s c -> Pre rest c1 -> Pre rest (Some (firstn k s)).

Lemma star_loop_closed body g :
  (forall t c, Pre t c -> Forall (fun sc => Pre (fst sc) (snd sc)) (body t c)) ->
  forall fuel t c, Pre t c ->
  Forall (fun sc => Pre (fst sc) (snd sc)) (star_loop body g fuel t c).
Proof.
  intros Hbody. induction fuel as [|fuel IH]; intros t c Ht; cbn [star_loop].
  - by constructor.
  - assert (Hmore : Forall (fun sc => Pre (fst sc) (snd sc))
      (flat_map (fun sc => if (length (fst sc) <? length t)%nat
                           then star_loop body g fuel (fst sc) (snd sc)
                           else []) (body t c))).
    { apply Forall_flat_map. eapply Forall_impl; [apply (Hbody t c Ht)|].
      intros [t1 c1] H1. cbn [fst snd] in *.
      destruct (length t1 <? length t)%nat; [by apply IH | constructor]. }
    destruct g.
    + apply Forall_app. split; [exact Hmore | by constructor].
    + by constructor.
Qed.

Lemma rmatch_closed r : forall s c,
  Pre s c -> Forall (fun sc => Pre (fst sc) (snd sc)) (rmatch r s c).
Proof.
  induction r as [|p|r1 IH1 r2 IH2|g r IH|r IH]; intros s c Hs; cbn [rmatch].
  - by constructor.
  - destruct s as [|x s]; [constructor|].
    destruct (p x); [|constructor]. constructor; [|constructor].
    by apply (Pre_tail x).
  - apply Forall_flat_map. eapply Forall_impl; [apply (IH1 s c Hs)|].
    intros [s1 c1] H1. by apply IH2.
  - by apply star_loop_closed.
  - apply Forall_map. eapply Forall_impl; [apply (IH s c Hs)|].
    intros [s1 c1] H1. cbn [fst snd] in *. by eapply Pre_group.
Qed.

End Closed.

Lemma expand_forall (Q : N -> Prop) c n : forall repl,
  (length repl <= n)%nat ->
  Forall Q repl -> Forall Q (default [] c) -> Forall Q (expand repl c).
Proof.
  induction n as [|n IH]; intros repl Hn Hrepl Hc.
  - destruct repl; [constructor | simpl in Hn; lia].
  - destruct repl as [|x rest]; [constructor|].
    apply Forall_cons in Hrepl as [Hx Hrest]. simpl in Hn.
    assert (Hplain : Forall Q (x :: expand rest c))
      by (constructor; [exact Hx | apply IH; [lia | done | done]]).
    destruct rest as [|y rest'].
    { cbn. destruct x as [|x]; [by constructor|].
      repeat (destruct x as [x|x|]; try by constructor). }
    apply Forall_cons in Hrest as [Hy Hrest']. simpl in Hn.
    assert (Hgroup : Forall Q (default [] c ++ expand rest' c))
      by (apply Forall_app; split; [done | apply IH; [lia | done | done]]).
    destruct (N.eq_dec x 36%N) as [->|Hx36];
      [destruct (N.eq_dec y 49%N) as [->|Hy49]|].
    + exact Hgroup.
    + replace (expand (36%N :: y :: rest') c)
        with (36%N :: expand (y :: rest') c); [exact Hplain|].
      destruct y as [|y]; [reflexivity|].
      repeat (destruct y as [y|y|]; try reflexivity). congruence.
    + replace (expand (x :: y :: rest') c) with (x :: expand (y :: rest') c);
        [exact Hplain|].
      destruct x as [|x]; [reflexivity|].
      repeat (destruct x as [x|x|]; try reflexivity). congruence.
Qed.

(** A global replace writes only code units of the text and of the
    replacement. *)
Lemma replace_from_forall (Q : N -> Prop) r repl n : forall fuel s,
  (length s <= n)%nat ->
  Forall Q repl -> Forall Q s -> Forall Q (replace_from fuel r repl s).
Proof.
  intros fuel s Hn Hrepl. revert fuel s Hn.
  induction n as [|n IH]; intros fuel s Hn Hs.
  - destruct s; [|simpl in Hn; lia]. destruct fuel; [constructor|].
    cbn [replace_from].
    pose proof (rmatch_closed
      (fun t c => Forall Q t /\ Forall Q (default [] c))
      ltac:(intros x t c [Ht Hc]; split; [by apply Forall_cons in Ht as [_ Ht]|done])
      ltac:(intros s0 c0 rest c1 k [H0 _] [H1 _]; split; [done|by apply Forall_take])
      r [] None ltac:(split; constructor)) as Hm.
    destruct (rmatch r [] None) as [|[rest c] tl]; [constructor|].
    apply Forall_cons in Hm as [[_ Hc] _].
    cbn. rewrite app_nil_r. by apply (expand_forall Q c (length repl)).
  - destruct fuel as [|fuel]; [exact Hs|]. cbn [replace_from].
    pose proof (rmatch_closed
      (fun t c => Forall Q t /\ Forall Q (default [] c))
      ltac:(intros x t c [Ht Hc]; split; [by apply Forall_cons in Ht as [_ Ht]|done])
      ltac:(intros s0 c0 rest c1 k [H0 _] [H1 _]; split; [done|by apply Forall_take])
      r s None ltac:(split; [done|constructor])) as Hm.
    pose proof (rmatch_closed
      (fun t c => (length t <= length s)%nat)
      ltac:(intros x t c Ht; cbv beta in *; simpl in Ht; lia)
      ltac:(intros s0 c0 rest c1 k _ H1; exact H1)
      r s None ltac:(cbv beta; lia)) as Hlen.
    assert (Hstep : Forall Q match s with
                             | [] => []
                             | x :: s' => x :: replace_from fuel r repl s'
                             end).
    { destruct s as [|x s']; [constructor|].
      apply Forall_cons in Hs as [Hx Hs']. constructor; [exact Hx|].
      apply IH; [simpl in Hn; lia | exact Hs']. }
    destruct (rmatch r s None) as [|[rest c] tl]; [exact Hstep|].
    apply Forall_cons in Hm as [[Hrest Hc] _].
    apply Forall_cons in Hlen as [Hle _]. cbn [fst snd] in *.
    assert (Hexp : Forall Q (expand repl c))
      by (by apply (expand_forall Q c (length repl))).
    destruct (Nat.ltb_spec (length rest) (length s)) as [Hlt|Hge].
    + apply Forall_app. split; [exact Hexp|]. apply IH; [lia | exact Hrest].
    + apply Forall_app. split; [exact Hexp | exact Hstep].
Qed.

Lemma replace_all_forall (Q : N -> Prop) r repl s :
  Forall Q repl -> Forall Q s -> Forall Q (replace_all r repl s).
Proof. intros. by apply (replace_from_forall Q r repl (length s)). Qed.

Lemma nl_to_br_no_newline s : Forall (fun c => c <> 10%N) (nl_to_br s).
Proof.
  induction s as [|x s IH]; [constructor|]. rewrite nl_to_br_cons.
  apply Forall_app. split; [|exact IH].
  unfold is_nl. destruct (N.eqb_spec x 10).
  - repeat constructor; discriminate.
  - by repeat constructor.
Qed.

End ReplaceFacts.

Ltac literal_forall := vm_compute; repeat constructor; discriminate.

(** X1: what the two formatters give holds no newline, whatever the text:
    every newline has become a line break. *)
Theorem formatted_text_has_no_newline (text : jsstring) :
  Forall (fun c => c <> 10%N) (formatDiseaseInfo text)
  /\ Forall (fun c => c <> 10%N) (formatCropRecommendations text).
Proof.
  split.
  - unfold formatDiseaseInfo. rewrite replace_all_newline.
    apply replace_all_forall; [literal_forall|].
    apply replace_all_forall; [literal_forall|].
    apply replace_all_forall; [literal_forall|].
    apply nl_to_br_no_newline.
  - unfold formatCropRecommendations.
    unfold replace_all at 2 3.
    rewrite (replace_from_blank_line (length text)) by lia.
    rewrite replace_from_newline by lia.
    rewrite (nl_to_br_blank_lines (length text)) by lia.
    repeat (apply Forall_app; split; [literal_forall|]).
    apply Forall_app; split; [|literal_forall].
    apply replace_all_forall; [literal_forall|].
    apply nl_to_br_no_newline.
Qed.

Section PlainText.

Lemma rmatch_literal_miss c lit r2 x t cap :
  (c =? x)%N = false ->
  rmatch (RSeq (RLit (c :: lit)) r2) (x :: t) cap = [].
Proof. intros H. cbn [rmatch RLit flat_map]. by rewrite H. Qed.

Lemma rmatch_literal_end c lit r2 cap :
  rmatch (RSeq (RLit (c :: lit)) r2) [] cap = [].
Proof. reflexivity. Qed.

Lemma rmatch_bold_miss x t : (42 =? x)%N = false -> rmatch re_bold (x :: t) None = [].
Proof. apply rmatch_literal_miss. Qed.

Lemma rmatch_bullet_miss x t : (45 =? x)%N = false -> rmatch re_bullet (x :: t) None = [].
Proof. apply rmatch_literal_miss. Qed.

Lemma rmatch_items_miss x t : (60 =? x)%N = false -> rmatch re_items (x :: t) None = [].
Proof.
  intros H. unfold re_items, RPlus.
  change (u "<li>") with (60%N :: u "li>").
  cbn [rmatch RLit flat_map]. by rewrite H.
Qed.

Lemma rmatch_newline_miss x t : is_nl x = false -> rmatch re_newline (x :: t) None = [].
Proof. intros H. unfold re_newline. cbn [rmatch]. by rewrite H. Qed.

Lemma rmatch_ordinal_miss x t :
  is_digit x = false -> rmatch re_ordinal (x :: t) None = [].
Proof.
  intros H. pose proof (rmatch_ordinal (x :: t)) as Hm.
  unfold ordinal_at in Hm. cbn [span] in Hm. by rewrite H in Hm.
Qed.

Lemma nl_to_br_forall (Q : N -> Prop) s :
  Forall Q (u "<br>") -> Forall Q s -> Forall Q (nl_to_br s).
Proof.
  intros Hbr. induction 1 as [|x s Hx _ IH]; [constructor|].
  rewrite nl_to_br_cons. apply Forall_app. split; [|exact IH].
  destruct (is_nl x); [exact Hbr | by repeat constructor].
Qed.

End PlainText.

(** X2: a text without newline, asterisk, hyphen and less-than sign comes
    back from [formatDiseaseInfo] as it went in. *)
Theorem formatDiseaseInfo_plain_text (info : jsstring) :
  Forall (fun c => c <> 10 /\ c <> 42 /\ c <> 45 /\ c <> 60)%N info ->
  formatDiseaseInfo info = info.
Proof.
  intros Hplain. unfold formatDiseaseInfo.
  assert (Hstart : forall k : N, (k = 10 \/ k = 42 \/ k = 45 \/ k = 60)%N ->
                   Forall (fun x => (k =? x)%N = false) info).
  { intros k Hk. eapply Forall_impl; [exact Hplain|].
    intros x (H10 & H42 & H45 & H60). apply N.eqb_neq.
    destruct Hk as [-> | [-> | [-> | ->]]]; congruence. }
  rewrite (replace_all_absent re_newline _ (N.eqb 10) info).
  2:{ intros x t Hx. apply rmatch_newline_miss. unfold is_nl.
      by rewrite N.eqb_sym. }
  2: reflexivity.
  2: apply Hstart; tauto.
  rewrite (replace_all_absent re_bold _ (N.eqb 42) info);
    [|apply rmatch_bold_miss|reflexivity|apply Hstart; tauto].
  rewrite (replace_all_absent re_bullet _ (N.eqb 45) info);
    [|apply rmatch_bullet_miss|reflexivity|apply Hstart; tauto].
  apply (replace_all_absent re_items _ (N.eqb 60) info);
    [apply rmatch_items_miss|reflexivity|apply Hstart; tauto].
Qed.

(** X3: in a text without a digit nothing is set in bold: only its
    newlines become line breaks. *)
Theorem formatCropRecommendations_no_digit (text : jsstring) :
  Forall (fun c => is_digit c = false) text ->
  formatCropRecommendations text
  = u "<div style=" ++ q ++ u "line-height: 1.8;" ++ q ++ u ">"
      ++ nl_to_br text ++ u "</div>".
Proof.
  intros Hdigits. unfold formatCropRecommendations.
  unfold replace_all at 2 3.
  rewrite (replace_from_blank_line (length text)) by lia.
  rewrite replace_from_newline by lia.
  rewrite (nl_to_br_blank_lines (length text)) by lia.
  rewrite (replace_all_absent re_ordinal _ is_digit (nl_to_br text));
    [reflexivity|apply rmatch_ordinal_miss|reflexivity|].
  apply nl_to_br_forall; [|exact Hdigits].
  vm_compute. repeat constructor.
Qed.

Section Spans.

Lemma plain_spec x :
  plain x = true ->
  is_dot x = true /\ is_nl x = false /\ (10 =? x)%N = false
  /\ (42 =? x)%N = false /\ (45 =? x)%N = false /\ (60 =? x)%N = false.
Proof.
  unfold plain, is_dot, is_line_terminator, is_nl.
  rewrite !(N.eqb_sym _ x).
  destruct (x =? 10)%N, (x =? 13)%N, (x =? 0x2028)%N, (x =? 0x2029)%N,
    (x =? 42)%N, (x =? 45)%N, (x =? 60)%N; cbn; intros H;
    try discriminate H; repeat split.
Qed.

Lemma plain_forall (Q : N -> Prop) s :
  (forall x, plain x = true -> Q x) ->
  Forall (fun x => plain x = true) s -> Forall Q s.
Proof. intros HQ Hs. eapply Forall_impl; [exact Hs | exact HQ]. Qed.

Lemma rmatch_lit l t c : rmatch (RLit l) (l ++ t) c = [(t, c)].
Proof.
  revert c. induction l as [|x l IH]; intros c; [reflexivity|].
  cbn [RLit rmatch app]. rewrite N.eqb_refl. cbn [flat_map fst snd].
  rewrite IH. reflexivity.
Qed.

Lemma rmatch_lit_miss c0 l x t c :
  (c0 =? x)%N = false -> rmatch (RLit (c0 :: l)) (x :: t) c = [].
Proof. intros H. cbn [RLit rmatch]. by rewrite H. Qed.

Lemma star_loop_lazy p s : forall fuel c,
  (length s <= fuel)%nat ->
  star_loop (rmatch (RChar p)) false fuel s c = lazy_char_results p s c.
Proof.
  induction s as [|x s IH]; intros [|fuel] c Hlen; simpl in Hlen; try lia;
    try reflexivity.
  cbn [star_loop rmatch lazy_char_results].
  destruct (p x); [|reflexivity].
  cbn [flat_map fst snd]. rewrite ltb_cons, app_nil_r, IH by lia.
  reflexivity.
Qed.

Lemma lazy_char_results_head p s c :
  exists tl, lazy_char_results p s c = (s, c) :: tl.
Proof. destruct s as [|x s]; cbn; [eauto|]. destruct (p x); eauto. Qed.

(** A lazy run of ordinary code units that a literal follows stops at the
    literal: the first way to match takes the run as the group. *)
Lemma lazy_then_literal c0 lit b cap w : forall pre,
  Forall (fun x => is_dot x = true /\ (c0 =? x)%N = false) w ->
  exists tl,
    flat_map (fun sc => rmatch (RLit (c0 :: lit)) (fst sc) (snd sc))
      (List.map
         (fun sc =>
            (fst sc,
             Some (firstn
                     (length (pre ++ w ++ (c0 :: lit) ++ b) - length (fst sc))
                     (pre ++ w ++ (c0 :: lit) ++ b))))
         (lazy_char_results is_dot (w ++ (c0 :: lit) ++ b) cap))
    = (b, Some (pre ++ w)) :: tl.
Proof.
  induction w as [|x w IH]; intros pre Hw.
  - change ([] ++ (c0 :: lit) ++ b) with ((c0 :: lit) ++ b).
    destruct (lazy_char_results_head is_dot ((c0 :: lit) ++ b) cap)
      as [others ->].
    cbn [List.map flat_map fst snd]. rewrite rmatch_lit. cbn [app].
    eexists. f_equal. f_equal. f_equal.
    rewrite app_nil_r, length_app, Nat.add_sub. apply take_app_length.
  - apply Forall_cons in Hw as [[Hdot Hx] Hw].
    cbn [app lazy_char_results]. rewrite Hdot.
    cbn [List.map flat_map fst snd]. rewrite rmatch_lit_miss by exact Hx.
    cbn [app]. destruct (IH (pre ++ [x]) Hw) as [tl Htl].
    rewrite <- !app_assoc in Htl. cbn [app] in Htl. eauto.
Qed.

Lemma rmatch_lazy_group_then r l s cap :
  rmatch (RSeq (RGroup (RStar false r)) (RLit l)) s cap
  = flat_map (fun sc => rmatch (RLit l) (fst sc) (snd sc))
      (List.map
         (fun sc => (fst sc, Some (firstn (length s - length (fst sc)) s)))
         (star_loop (rmatch r) false (length s) s cap)).
Proof. reflexivity. Qed.

Lemma rmatch_group_then_literal c0 lit b w cap :
  Forall (fun x => is_dot x = true /\ (c0 =? x)%N = false) w ->
  exists tl,
    rmatch (RSeq (RGroup (RStar false (RChar is_dot))) (RLit (c0 :: lit)))
           (w ++ (c0 :: lit) ++ b) cap
    = (b, Some w) :: tl.
Proof.
  intros Hw. rewrite rmatch_lazy_group_then, star_loop_lazy by lia.
  exact (lazy_then_literal c0 lit b cap w [] Hw).
Qed.

(** The bold pattern on a span. *)
Lemma rmatch_bold_span w b :
  Forall (fun x => plain x = true) w ->
  exists tl,
    rmatch re_bold (u "**" ++ w ++ u "**" ++ b) None = (b, Some w) :: tl.
Proof.
  intros Hw. unfold re_bold.
  change (rmatch (RSeq (RLit (u "**")) ?r) ?s ?c)
    with (flat_map (fun sc => rmatch r (fst sc) (snd sc))
                   (rmatch (RLit (u "**")) s c)).
  rewrite rmatch_lit. cbn [flat_map fst snd].
  destruct (rmatch_group_then_literal 42%N [42%N] b w None) as [tl Htl].
  { eapply Forall_impl; [exact Hw|]. intros x Hx.
    destruct (plain_spec x Hx) as (? & ? & ? & ? & ? & ?). by split. }
  change (u "**") with [42%N; 42%N]. rewrite Htl. cbn [app]. eauto.
Qed.

(** The bullet pattern on a bullet that a line break ends. *)
Lemma rmatch_bullet_line w b :
  Forall (fun x => plain x = true) w ->
  exists tl,
    rmatch re_bullet (u "- " ++ w ++ u "<br>" ++ b) None = (b, Some w) :: tl.
Proof.
  intros Hw. unfold re_bullet.
  change (rmatch (RSeq (RLit (u "- ")) ?r) ?s ?c)
    with (flat_map (fun sc => rmatch r (fst sc) (snd sc))
                   (rmatch (RLit (u "- ")) s c)).
  rewrite rmatch_lit. cbn [flat_map fst snd].
  destruct (rmatch_group_then_literal 60%N (u "br>") b w None) as [tl Htl].
  { eapply Forall_impl; [exact Hw|]. intros x Hx.
    destruct (plain_spec x Hx) as (? & ? & ? & ? & ? & ?). by split. }
  change (u "<br>") with (60%N :: u "br>"). rewrite Htl. cbn [app]. eauto.
Qed.

End Spans.

Section Lists.

Lemma star_char_results_cons p x s c :
  p x = true ->
  star_char_results p (x :: s) c = star_char_results p s c ++ [(x :: s, c)].
Proof. intros H. cbn [star_char_results]. by rewrite H. Qed.

Lemma greedy_plain_no_close b c :
  Forall (fun x => plain x = true) b ->
  flat_map (fun sc => rmatch (RLit (u "</li>")) (fst sc) (snd sc))
           (star_char_results is_dot b c) = [].
Proof.
  induction 1 as [|x b Hx _ IH]; [reflexivity|].
  destruct (plain_spec x Hx) as (Hdot & _ & _ & _ & _ & H60).
  rewrite star_char_results_cons, flat_map_app, IH by exact Hdot.
  cbn [flat_map fst snd app]. change (u "</li>") with (60%N :: u "/li>").
  by rewrite rmatch_lit_miss.
Qed.

Lemma greedy_then_close w b c :
  Forall (fun x => plain x = true) w ->
  Forall (fun x => plain x = true) b ->
  flat_map (fun sc => rmatch (RLit (u "</li>")) (fst sc) (snd sc))
           (star_char_results is_dot (w ++ u "</li>" ++ b) c) = [(b, c)].
Proof.
  intros Hw Hb. induction Hw as [|x w Hx _ IH].
  - change ([] ++ u "</li>" ++ b)
      with (60%N :: 47%N :: 108%N :: 105%N :: 62%N :: b).
    rewrite !star_char_results_cons by reflexivity.
    rewrite !flat_map_app, greedy_plain_no_close by exact Hb.
    cbn [flat_map fst snd app].
    change (u "</li>") with (60%N :: u "/li>").
    rewrite !rmatch_lit_miss by reflexivity.
    change (60%N :: 47%N :: 108%N :: 105%N :: 62%N :: b)
      with ((60%N :: u "/li>") ++ b).
    rewrite rmatch_lit. reflexivity.
  - destruct (plain_spec x Hx) as (Hdot & _ & _ & _ & _ & H60).
    cbn [app]. rewrite star_char_results_cons, flat_map_app, IH by exact Hdot.
    cbn [flat_map fst snd app]. change (u "</li>") with (60%N :: u "/li>").
    by rewrite rmatch_lit_miss.
Qed.

Lemma rmatch_item_eq s cap :
  rmatch re_item s cap
  = List.map
      (fun sc => (fst sc, Some (firstn (length s - length (fst sc)) s)))
      (flat_map
         (fun sc =>
            flat_map (fun sc' => rmatch (RLit (u "</li>")) (fst sc') (snd sc'))
              (star_loop (rmatch (RChar is_dot)) true
                 (length (fst sc)) (fst sc) (snd sc)))
         (rmatch (RLit (u "<li>")) s cap)).
Proof. reflexivity. Qed.

Lemma rmatch_item_miss x t cap :
  (60 =? x)%N = false -> rmatch re_item (x :: t) cap = [].
Proof.
  intros H. rewrite rmatch_item_eq. change (u "<li>") with (60%N :: u "li>").
  by rewrite rmatch_lit_miss.
Qed.

Lemma rmatch_item w b cap :
  Forall (fun x => plain x = true) w ->
  Forall (fun x => plain x = true) b ->
  rmatch re_item (u "<li>" ++ w ++ u "</li>" ++ b) cap
  = [(b, Some (u "<li>" ++ w ++ u "</li>"))].
Proof.
  intros Hw Hb. rewrite rmatch_item_eq, rmatch_lit.
  cbn [flat_map fst snd]. rewrite star_loop_char by lia.
  rewrite greedy_then_close, app_nil_r by assumption.
  cbn [List.map fst snd]. f_equal. f_equal. f_equal.
  replace (u "<li>" ++ w ++ u "</li>" ++ b)
    with ((u "<li>" ++ w ++ u "</li>") ++ b) by (by rewrite <- !app_assoc).
  rewrite length_app, Nat.add_sub. apply take_app_length.
Qed.

Lemma star_item_plain fuel b cap :
  Forall (fun x => plain x = true) b ->
  star_loop (rmatch re_item) true fuel b cap = [(b, cap)].
Proof.
  intros Hb. destruct fuel as [|fuel]; [reflexivity|]. cbn [star_loop].
  destruct Hb as [|x b Hx Hb]; [reflexivity|].
  destruct (plain_spec x Hx) as (_ & _ & _ & _ & _ & H60).
  by rewrite rmatch_item_miss.
Qed.

Lemma rmatch_items_eq s cap :
  rmatch re_items s cap
  = flat_map (fun sc => star_loop (rmatch re_item) true (length (fst sc))
                          (fst sc) (snd sc))
             (rmatch re_item s cap).
Proof. reflexivity. Qed.

Lemma rmatch_items_item w b :
  Forall (fun x => plain x = true) w ->
  Forall (fun x => plain x = true) b ->
  rmatch re_items (u "<li>" ++ w ++ u "</li>" ++ b) None
  = [(b, Some (u "<li>" ++ w ++ u "</li>"))].
Proof.
  intros Hw Hb. rewrite rmatch_items_eq, rmatch_item by assumption.
  cbn [flat_map fst snd]. by rewrite star_item_plain, app_nil_r.
Qed.

End Lists.

(** Split a text into its pieces; settle the ordinary ones by what [plain]
    gives and the literal ones by evaluation. *)
Ltac plain_pieces :=
  repeat (apply Forall_app; split);
  first
    [ eapply plain_forall; [|eassumption];
      let x := fresh "x" in let Hx := fresh "Hx" in
      intros x Hx; destruct (plain_spec x Hx) as (? & ? & ? & ? & ? & ?);
      done
    | vm_compute; repeat constructor ].

(** X4: a bold span of ordinary text becomes a strong element. *)
Theorem formatDiseaseInfo_bold_span (a w b : jsstring) :
  Forall (fun x => plain x = true) a ->
  Forall (fun x => plain x = true) w ->
  Forall (fun x => plain x = true) b ->
  formatDiseaseInfo (a ++ u "**" ++ w ++ u "**" ++ b)
  = a ++ u "<strong>" ++ w ++ u "</strong>" ++ b.
Proof.
  intros Ha Hw Hb. unfold formatDiseaseInfo.
  rewrite (replace_all_absent re_newline _ (N.eqb 10));
    [|intros x t Hx; apply rmatch_newline_miss; unfold is_nl;
      by rewrite N.eqb_sym|reflexivity|plain_pieces].
  rewrite (replace_all_app_absent re_bold _ (N.eqb 42));
    [|apply rmatch_bold_miss|plain_pieces].
  destruct (rmatch_bold_span w b Hw) as [tl Hbold].
  rewrite (replace_all_hit _ _ _ _ _ _ Hbold)
    by (rewrite !length_app; cbn; lia).
  rewrite expand_strong. cbn [default from_option id].
  rewrite (replace_all_absent re_bold _ (N.eqb 42) b);
    [|apply rmatch_bold_miss|reflexivity|plain_pieces].
  rewrite <- !app_assoc.
  rewrite (replace_all_absent re_bullet _ (N.eqb 45));
    [|apply rmatch_bullet_miss|reflexivity|plain_pieces].
  rewrite (replace_all_app_absent re_items _ (N.eqb 60));
    [|apply rmatch_items_miss|plain_pieces].
  f_equal.
  change (u "<strong>" ++ w ++ u "</strong>" ++ b)
    with (60%N :: 115%N :: 116%N :: 114%N :: 111%N :: 110%N :: 103%N
            :: 62%N :: w ++ u "</strong>" ++ b).
  rewrite !replace_all_skip by reflexivity.
  rewrite (replace_all_app_absent re_items _ (N.eqb 60));
    [|apply rmatch_items_miss|plain_pieces].
  change (u "</strong>" ++ b)
    with (60%N :: 47%N :: 115%N :: 116%N :: 114%N :: 111%N :: 110%N
            :: 103%N :: 62%N :: b).
  rewrite !replace_all_skip by reflexivity.
  rewrite (replace_all_absent re_items _ (N.eqb 60) b);
    [|apply rmatch_items_miss|reflexivity|plain_pieces].
  reflexivity.
Qed.

(** X5: a bullet of ordinary text that a newline ends becomes a list of one
    item. *)
Theorem formatDiseaseInfo_bullet_line (a w b : jsstring) :
  Forall (fun x => plain x = true) a ->
  Forall (fun x => plain x = true) w ->
  Forall (fun x => plain x = true) b ->
  formatDiseaseInfo (a ++ u "- " ++ w ++ nl ++ b)
  = a ++ u "<ul><li>" ++ w ++ u "</li></ul>" ++ b.
Proof.
  intros Ha Hw Hb. unfold formatDiseaseInfo.
  rewrite replace_all_newline.
  assert (Hbr : nl_to_br (a ++ u "- " ++ w ++ nl ++ b)
                = a ++ u "- " ++ w ++ u "<br>" ++ b).
  { assert (Hid : forall s, Forall (fun x => plain x = true) s ->
                            nl_to_br s = s).
    { induction 1 as [|x s Hx _ IH]; [reflexivity|].
      destruct (plain_spec x Hx) as (_ & Hnl & _).
      by rewrite nl_to_br_cons, Hnl, IH. }
    rewrite !nl_to_br_app, (Hid a Ha), (Hid w Hw), (Hid b Hb). reflexivity. }
  rewrite Hbr.
  rewrite (replace_all_absent re_bold _ (N.eqb 42));
    [|apply rmatch_bold_miss|reflexivity|plain_pieces].
  rewrite (replace_all_app_absent re_bullet _ (N.eqb 45));
    [|apply rmatch_bullet_miss|plain_pieces].
  destruct (rmatch_bullet_line w b Hw) as [tl Hbullet].
  rewrite (replace_all_hit _ _ _ _ _ _ Hbullet)
    by (rewrite !length_app; cbn; lia).
  change (expand (u "<li>$1</li>") (Some w)) with (u "<li>" ++ w ++ u "</li>").
  rewrite (replace_all_absent re_bullet _ (N.eqb 45) b);
    [|apply rmatch_bullet_miss|reflexivity|plain_pieces].
  rewrite <- !app_assoc.
  rewrite (replace_all_app_absent re_items _ (N.eqb 60));
    [|apply rmatch_items_miss|plain_pieces].
  rewrite (replace_all_hit _ _ _ _ _ _ (rmatch_items_item w b Hw Hb))
    by (rewrite !length_app; cbn; lia).
  change (expand (u "<ul>$1</ul>") (Some (u "<li>" ++ w ++ u "</li>")))
    with (u "<ul>" ++ (u "<li>" ++ w ++ u "</li>") ++ u "</ul>").
  rewrite (replace_all_absent re_items _ (N.eqb 60) b);
    [|apply rmatch_items_miss|reflexivity|plain_pieces].
  rewrite <- !app_assoc. reflexivity.
Qed.

Section Unfinished.

Lemma lazy_no_literal c0 lit cap (f : jsstring -> capture) w :
  Forall (fun x => is_dot x = true /\ (c0 =? x)%N = false) w ->
  flat_map (fun sc => rmatch (RLit (c0 :: lit)) (fst sc) (snd sc))
    (List.map (fun sc => (fst sc, f (fst sc)))
              (lazy_char_results is_dot w cap)) = [].
Proof.
  induction 1 as [|x w [Hdot Hx] _ IH]; [reflexivity|].
  cbn [lazy_char_results]. rewrite Hdot.
  cbn [List.map flat_map fst snd]. by rewrite rmatch_lit_miss, IH.
Qed.

Lemma rmatch_bullet_open w :
  Forall (fun x => plain x = true) w ->
  rmatch re_bullet (u "- " ++ w) None = [].
Proof.
  intros Hw. unfold re_bullet.
  change (rmatch (RSeq (RLit (u "- ")) ?r) ?s ?c)
    with (flat_map (fun sc => rmatch r (fst sc) (snd sc))
                   (rmatch (RLit (u "- ")) s c)).
  rewrite rmatch_lit. cbn [flat_map fst snd].
  rewrite rmatch_lazy_group_then, star_loop_lazy by lia.
  change (u "<br>") with (60%N :: u "br>").
  rewrite (lazy_no_literal 60%N (u "br>") None
             (fun t => Some (firstn (length w - length t) w))); [reflexivity|].
  eapply Forall_impl; [exact Hw|]. intros x Hx.
  destruct (plain_spec x Hx) as (? & ? & ? & ? & ? & ?). by split.
Qed.

End Unfinished.

(** X6: a bullet of ordinary text that no newline ends is left as it is:
    the bullet pattern wants the line break after it. *)
Theorem formatDiseaseInfo_open_bullet (a w : jsstring) :
  Forall (fun x => plain x = true) a ->
  Forall (fun x => plain x = true) w ->
  formatDiseaseInfo (a ++ u "- " ++ w) = a ++ u "- " ++ w.
Proof.
  intros Ha Hw. unfold formatDiseaseInfo.
  rewrite (replace_all_absent re_newline _ (N.eqb 10));
    [|intros x t Hx; apply rmatch_newline_miss; unfold is_nl;
      by rewrite N.eqb_sym|reflexivity|plain_pieces].
  rewrite (replace_all_absent re_bold _ (N.eqb 42));
    [|apply rmatch_bold_miss|reflexivity|plain_pieces].
  assert (Hbullet : replace_all re_bullet (u "<li>$1</li>") (a ++ u "- " ++ w)
                    = a ++ u "- " ++ w).
  { rewrite (replace_all_app_absent re_bullet _ (N.eqb 45));
      [|apply rmatch_bullet_miss|plain_pieces].
    change (u "- " ++ w) with (45%N :: 32%N :: w).
    rewrite replace_all_skip by (apply (rmatch_bullet_open w Hw)).
    rewrite replace_all_skip by (by apply rmatch_bullet_miss).
    rewrite (replace_all_absent re_bullet _ (N.eqb 45) w);
      [reflexivity|apply rmatch_bullet_miss|reflexivity|plain_pieces]. }
  rewrite Hbullet.
  apply (replace_all_absent re_items _ (N.eqb 60));
    [apply rmatch_items_miss|reflexivity|plain_pieces].
Qed.

Section OneList.

Lemma nl_to_br_plain s :
  Forall (fun x => plain x = true) s -> nl_to_br s = s.
Proof.
  induction 1 as [|x s Hx _ IH]; [reflexivity|].
  destruct (plain_spec x Hx) as (_ & Hnl & _).
  by rewrite nl_to_br_cons, Hnl, IH.
Qed.

Lemma nl_to_br_lines (Q : N -> Prop) s :
  Forall Q (u "<br>") ->
  Forall (fun x => plain x = true \/ x = 10%N) s ->
  (forall x, plain x = true -> Q x) ->
  Forall Q (nl_to_br s).
Proof.
  intros Hbr Hs HQ. induction Hs as [|x s Hx _ IH]; [constructor|].
  rewrite nl_to_br_cons. apply Forall_app. split; [|exact IH].
  destruct Hx as [Hx | ->]; [|exact Hbr].
  destruct (plain_spec x Hx) as (_ & -> & _). repeat constructor. by apply HQ.
Qed.

Lemma star_char_results_app p t rest c :
  Forall (fun x => p x = true) t ->
  exists more,
    star_char_results p (t ++ rest) c = star_char_results p rest c ++ more.
Proof.
  induction 1 as [|x t Hx _ [more IH]].
  - exists []. by rewrite app_nil_r.
  - exists (more ++ [(x :: t ++ rest, c)]). cbn [app].
    by rewrite star_char_results_cons, IH, app_assoc.
Qed.

(** A greedy run that a closing tag follows gives the text after the last
    closing tag first. *)
Lemma greedy_last_close t b c :
  Forall (fun x => is_dot x = true) t ->
  Forall (fun x => plain x = true) b ->
  exists tl,
    flat_map (fun sc => rmatch (RLit (u "</li>")) (fst sc) (snd sc))
             (star_char_results is_dot (t ++ u "</li>" ++ b) c)
    = (b, c) :: tl.
Proof.
  intros Ht Hb.
  destruct (star_char_results_app is_dot t (u "</li>" ++ b) c Ht) as [more ->].
  rewrite flat_map_app.
  pose proof (greedy_then_close [] b c (List.Forall_nil _) Hb) as Hclose.
  cbn [app] in Hclose. cbn [app]. rewrite Hclose. cbn [app]. eauto.
Qed.

Lemma rmatch_items_span t b :
  Forall (fun x => is_dot x = true) t ->
  Forall (fun x => plain x = true) b ->
  exists tl,
    rmatch re_items (u "<li>" ++ t ++ u "</li>" ++ b) None
    = (b, Some (u "<li>" ++ t ++ u "</li>")) :: tl.
Proof.
  intros Ht Hb. rewrite rmatch_items_eq, rmatch_item_eq, rmatch_lit.
  cbn [flat_map fst snd]. rewrite star_loop_char by lia.
  destruct (greedy_last_close t b None Ht Hb) as [tl ->].
  rewrite app_nil_r. cbn [List.map flat_map fst snd].
  rewrite star_item_plain by exact Hb. cbn [app].
  replace (u "<li>" ++ t ++ u "</li>" ++ b)
    with ((u "<li>" ++ t ++ u "</li>") ++ b) by (by rewrite <- !app_assoc).
  rewrite length_app, Nat.add_sub, take_app_length. eauto.
Qed.

End OneList.

(** X7: two bullets of ordinary text, each ended by a newline, come out as
    one list that runs from the first item to the last and takes along
    whatever lines lie between them. *)
Theorem formatDiseaseInfo_one_list (a w1 m w2 b : jsstring) :
  Forall (fun x => plain x = true) a ->
  Forall (fun x => plain x = true) w1 ->
  Forall (fun x => plain x = true \/ x = 10%N) m ->
  Forall (fun x => plain x = true) w2 ->
  Forall (fun x => plain x = true) b ->
  formatDiseaseInfo (a ++ u "- " ++ w1 ++ nl ++ m ++ u "- " ++ w2 ++ nl ++ b)
  = a ++ u "<ul><li>" ++ w1 ++ u "</li>"
      ++ replace_all re_newline (u "<br>") m
      ++ u "<li>" ++ w2 ++ u "</li></ul>" ++ b.
Proof.
  intros Ha Hw1 Hm Hw2 Hb. unfold formatDiseaseInfo.
  rewrite !replace_all_newline.
  rewrite !nl_to_br_app, (nl_to_br_plain a Ha), (nl_to_br_plain w1 Hw1),
    (nl_to_br_plain w2 Hw2), (nl_to_br_plain b Hb).
  change (nl_to_br nl) with (u "<br>").
  change (nl_to_br (u "- ")) with (u "- ").
  assert (Hdot : Forall (fun x => is_dot x = true) (nl_to_br m)).
  { apply nl_to_br_lines; [vm_compute; repeat constructor|exact Hm|].
    intros x Hx. by destruct (plain_spec x Hx) as (? & _). }
  assert (H42 : Forall (fun x => (42 =? x)%N = false) (nl_to_br m)).
  { apply nl_to_br_lines; [vm_compute; repeat constructor|exact Hm|].
    intros x Hx. by destruct (plain_spec x Hx) as (_ & _ & _ & ? & _). }
  assert (H45 : Forall (fun x => (45 =? x)%N = false) (nl_to_br m)).
  { apply nl_to_br_lines; [vm_compute; repeat constructor|exact Hm|].
    intros x Hx. by destruct (plain_spec x Hx) as (_ & _ & _ & _ & ? & _). }
  generalize dependent (nl_to_br m). intros m' Hdot H42 H45.
  rewrite (replace_all_absent re_bold _ (N.eqb 42));
    [|apply rmatch_bold_miss|reflexivity|].
  2:{ repeat (apply Forall_app; split); try exact H42; plain_pieces. }
  (* the bullets *)
  rewrite (replace_all_app_absent re_bullet _ (N.eqb 45));
    [|apply rmatch_bullet_miss|plain_pieces].
  destruct (rmatch_bullet_line w1 (m' ++ u "- " ++ w2 ++ u "<br>" ++ b) Hw1)
    as [tl1 Hfirst].
  rewrite (replace_all_hit _ _ _ _ _ _ Hfirst)
    by (rewrite !length_app; cbn; lia).
  change (expand (u "<li>$1</li>") (Some w1))
    with (u "<li>" ++ w1 ++ u "</li>").
  rewrite (replace_all_app_absent re_bullet _ (N.eqb 45));
    [|apply rmatch_bullet_miss|exact H45].
  destruct (rmatch_bullet_line w2 b Hw2) as [tl2 Hsecond].
  rewrite (replace_all_hit _ _ _ _ _ _ Hsecond)
    by (rewrite !length_app; cbn; lia).
  change (expand (u "<li>$1</li>") (Some w2))
    with (u "<li>" ++ w2 ++ u "</li>").
  rewrite (replace_all_absent re_bullet _ (N.eqb 45) b);
    [|apply rmatch_bullet_miss|reflexivity|plain_pieces].
  (* the list *)
  rewrite (replace_all_app_absent re_items _ (N.eqb 60));
    [|apply rmatch_items_miss|plain_pieces].
  assert (Hspan : Forall (fun x => is_dot x = true)
                    (w1 ++ u "</li>" ++ m' ++ u "<li>" ++ w2)).
  { repeat (apply Forall_app; split); try exact Hdot;
      first [ eapply plain_forall; [|eassumption];
              intros x Hx; by destruct (plain_spec x Hx) as (? & _)
            | vm_compute; repeat constructor ]. }
  destruct (rmatch_items_span _ b Hspan Hb) as [tl3 Hitems].
  replace ((u "<li>" ++ w1 ++ u "</li>") ++ m'
             ++ (u "<li>" ++ w2 ++ u "</li>") ++ b)
    with (u "<li>" ++ (w1 ++ u "</li>" ++ m' ++ u "<li>" ++ w2)
            ++ u "</li>" ++ b)
    by (by rewrite <- !app_assoc).
  rewrite (replace_all_hit _ _ _ _ _ _ Hitems)
    by (rewrite !length_app; cbn; lia).
  change (expand (u "<ul>$1</ul>") (Some ?x)) with (u "<ul>" ++ x ++ u "</ul>").
  rewrite (replace_all_absent re_items _ (N.eqb 60) b);
    [|apply rmatch_items_miss|reflexivity|plain_pieces].
  rewrite <- !app_assoc. reflexivity.
Qed.

(* ===================================================================== *)
(** ** Properties of the remaining handlers *)
(* ===================================================================== *)

Section Session.




Lemma keeps_emit_quiet I e :
  (forall s, I s -> I (with_log (log s ++ [e]) s)) -> keeps I (emit e).
Proof. intros He s HI. by apply He. Qed.

Lemma requested_dom_stable l f : dom_stable (requested l) f.
Proof. by intros s id. Qed.

Lemma requested_alert l message s :
  requested l s -> requested l (with_log (log s ++ [EAlert message]) s).
Proof.
  unfold requested, requests. cbn [log with_log]. rewrite List.filter_app.
  cbn. by rewrite app_nil_r.
Qed.

Lemma requested_console_error l label s :
  requested l s -> requested l (with_log (log s ++ [EConsoleError label]) s).
Proof.
  unfold requested, requests. cbn [log with_log]. rewrite List.filter_app.
  cbn. by rewrite app_nil_r.
Qed.

Lemma requested_fetch l url method body s :
  requested l s ->
  requested (l ++ [EFetch url method body])
            (with_log (log s ++ [EFetch url method body]) s).
Proof.
  unfold requested, requests. cbn [log with_log]. rewrite List.filter_app.
  by intros ->.
Qed.

End Session.



(** Statements that issue no request. *)
Ltac keeps_requested :=
  repeat first
    [ apply keeps_emit_quiet; intros ?; apply requested_alert
    | apply keeps_emit_quiet; intros ?; apply requested_console_error
    | keeps_step ltac:(apply requested_dom_stable) ].

Section Remaining.
Context {P : Platform}.
Variable parseFloat : jsstring -> spec_float.
Variable JSON_stringify : val -> jsstring.



(** A request inside a [try]: it is issued once, whatever comes back, when
    neither what follows nor the handler issues another. *)
Lemma requested_try_fetch {A} url method body resp (k : val -> M A)
    (h : error -> M A) l s :
  (forall d, keeps (requested (l ++ [EFetch url method body])) (k d)) ->
  (forall e, keeps (requested (l ++ [EFetch url method body])) (h e)) ->
  requested l s ->
  requested (l ++ [EFetch url method body])
            (snd (try_catch (bind (fetch_json url method body resp) k) h s)).
Proof.
  intros Hk Hh Hs.
  pose proof (requested_fetch l url method body s Hs) as Hs1.
  unfold try_catch, fetch_json. rewrite run_bind_assoc, run_emit.
  destruct resp as [| |data].
  - rewrite run_throw. by apply Hh.
  - rewrite run_throw. by apply Hh.
  - rewrite run_ret. specialize (Hk data _ Hs1).
    destruct (k data _) as [[a|e] s2]; cbn [snd] in *; [done | by apply Hh].
Qed.

(** X9: past its guard, on a page with the language select, the spinner,
    the result display and the plant label, [detectDisease] issues exactly
    one request, whatever comes back: a POST to /api/detect-disease with the
    selected image, the chosen language and the selected plant. *)
Theorem detectDisease_one_request (resp : response) (s : page) (img : file)
    (lang : element) :
  truthy (plant_val (selectedPlant s)) = true ->
  selectedImage s = Some img ->
  dom s !! "languageSelect" = Some lang ->
  present ["loadingSpinner"; "resultDisplay"; "analyzingPlant"] s = true ->
  requests (log (snd (detectDisease resp s)))
  = requests (log s)
      ++ [EFetch (u "/api/detect-disease") "POST"
                 [("image", PFile img); ("language", PText (value lang));
                  ("plant_name", PText (plant_text (selectedPlant s)))]].
Proof.
  intros Hplant Himage Hlang Hpresent. split_present Hpresent.
  pose proof (has_element_lookup _ _ _ Hlang) as Hhas.
  unfold detectDisease.
  step. rewrite Hplant. page_simpl. step. rewrite Himage. page_simpl.
  do 9 step.
  apply requested_try_fetch; [intros d|intros e|reflexivity];
    keeps_requested.
Qed.

(** X10: when the request fails, the body does not parse, the answer is null,
    or a success envelope carries no text as its disease information, the
    result display shows the generic error, the third step is not marked
    completed, and the error goes to the console; the handler itself
    returns normally. *)
Theorem detectDisease_generic_error (resp : response) (s : page) (img : file)
    (lang : element) :
  truthy (plant_val (selectedPlant s)) = true ->
  selectedImage s = Some img ->
  dom s !! "languageSelect" = Some lang ->
  present ["loadingSpinner"; "resultDisplay"; "analyzingPlant";
           "step3-indicator"] s = true ->
  resp = NetworkError \/ resp = BadJson \/ resp = Json VNull
  \/ (exists fields, resp = Json (VObj fields)
       /\ truthy (lookup_field "success" fields) = true
       /\ forall info, lookup_field "disease_info" fields <> VStr info) ->
  let r := detectDisease resp s in
  fst r = Done tt
  /\ innerHTML <$> dom (snd r) !! "resultDisplay" = Some html_detect_error
  /\ dom (snd r) !! "step3-indicator" = dom s !! "step3-indicator"
  /\ log (snd r)
     = log s
         ++ [EFetch (u "/api/detect-disease") "POST"
                    [("image", PFile img); ("language", PText (value lang));
                     ("plant_name", PText (plant_text (selectedPlant s)))];
             EConsoleError (u "Detection error:")].
Proof.
  intros Hplant Himage Hlang Hpresent Hresp r. split_present Hpresent.
  pose proof (has_element_lookup _ _ _ Hlang) as Hhas.
  destruct (lookup_has_element _ _ Hin0) as [display Hdisplay].
  subst r. unfold detectDisease.
  run. rewrite Hplant. run. rewrite Himage. run.
  destruct Hresp as [-> | [-> | [-> | (fields & -> & Hsuccess & Hinfo)]]].
  - run. rewrite <- app_assoc.
    repeat split; try done.
    + rewrite lookup_alter_eq, !lookup_alter_ne by done.
      rewrite lookup_alter_eq, !lookup_alter_ne by done.
      by rewrite Hdisplay.
    + by rewrite !lookup_alter_ne by done.
  - run. rewrite <- app_assoc.
    repeat split; try done.
    + rewrite lookup_alter_eq, !lookup_alter_ne by done.
      rewrite lookup_alter_eq, !lookup_alter_ne by done.
      by rewrite Hdisplay.
    + by rewrite !lookup_alter_ne by done.
  - run. cbv [get]. run. rewrite <- app_assoc.
    repeat split; try done.
    + rewrite lookup_alter_eq, !lookup_alter_ne by done.
      rewrite lookup_alter_eq, !lookup_alter_ne by done.
      by rewrite Hdisplay.
    + by rewrite !lookup_alter_ne by done.
  - run. cbv [get]. run. rewrite Hsuccess. run.
    destruct (to_string _) as [?|name]; run;
      [|destruct (strict_eq_str (lookup_field "method" fields) (u "model"));
        run;
        [destruct (confidence_class _) as [?|badge]; run;
         [|destruct (confidence_percent _) as [?|percent]; run;
           [|destruct (to_string _) as [?|disease]; run]]|]];
      try (destruct (lookup_field "disease_info" fields) as [| | | |info| |]
             eqn:Hfield; [| | | |by destruct (Hinfo info)| |]; run);
      rewrite <- app_assoc;
      (repeat split; try done;
       [ rewrite lookup_alter_eq, !lookup_alter_ne by done;
         rewrite lookup_alter_eq, !lookup_alter_ne by done;
         by rewrite Hdisplay
       | by rewrite !lookup_alter_ne by done ]).
Qed.

(** X11: a failure envelope whose message has a text is shown with that
    text and the plant, and nothing goes to the console; one whose message
    has no text (an object with a property [toString] of its own) ends in
    the generic error, with the error on the console.  Either way the
    handler returns normally and the third step is not marked completed. *)
Theorem detectDisease_failure_envelope (s : page) (img : file)
    (lang : element) (fields : list (string * val)) :
  truthy (plant_val (selectedPlant s)) = true ->
  selectedImage s = Some img ->
  dom s !! "languageSelect" = Some lang ->
  present ["loadingSpinner"; "resultDisplay"; "analyzingPlant";
           "step3-indicator"] s = true ->
  truthy (lookup_field "success" fields) = false ->
  let r := detectDisease (Json (VObj fields)) s in
  let request :=
    EFetch (u "/api/detect-disease") "POST"
           [("image", PFile img); ("language", PText (value lang));
            ("plant_name", PText (plant_text (selectedPlant s)))] in
  fst r = Done tt
  /\ dom (snd r) !! "step3-indicator" = dom s !! "step3-indicator"
  /\ (forall text,
        to_string (lookup_field "message" fields) = inr text ->
        innerHTML <$> dom (snd r) !! "resultDisplay"
        = Some (html_detect_failed text (plant_text (selectedPlant s)))
        /\ log (snd r) = log s ++ [request])
  /\ (to_string (lookup_field "message" fields) = inl TypeError ->
      innerHTML <$> dom (snd r) !! "resultDisplay" = Some html_detect_error
      /\ log (snd r)
         = log s ++ [request; EConsoleError (u "Detection error:")]).
Proof.
  intros Hplant Himage Hlang Hpresent Hsuccess r request.
  split_present Hpresent.
  pose proof (has_element_lookup _ _ _ Hlang) as Hhas.
  destruct (lookup_has_element _ _ Hin0) as [display Hdisplay].
  subst r request. unfold detectDisease.
  run. rewrite Hplant. run. rewrite Himage. run.
  cbv [get]. run. rewrite Hsuccess. run.
  destruct (to_string (lookup_field "message" fields)) as [e|text]; run;
    rewrite <- ?app_assoc;
    (split; [reflexivity|]; split; [by rewrite !lookup_alter_ne by done|];
     split; [intros ? [=]; subst|intros [=]; subst]);
    (split; [|reflexivity]);
    rewrite lookup_alter_eq, !lookup_alter_ne by done;
    rewrite lookup_alter_eq, !lookup_alter_ne by done;
    by rewrite Hdisplay.
Qed.

(** A success envelope whose method is not the string "model" and whose
    plant has a text is shown with the narrative badge and without
    confidence or disease name, and the third step is marked completed. *)
Lemma detectDisease_narrative (s : page) (img : file) (lang : element)
    (fields : list (string * val)) (name info : jsstring) :
  truthy (plant_val (selectedPlant s)) = true ->
  selectedImage s = Some img ->
  dom s !! "languageSelect" = Some lang ->
  present ["loadingSpinner"; "resultDisplay"; "analyzingPlant";
           "step3-indicator"] s = true ->
  truthy (lookup_field "success" fields) = true ->
  to_string (or_else (lookup_field "plant_name" fields)
                     (plant_val (selectedPlant s))) = inr name ->
  strict_eq_str (lookup_field "method" fields) (u "model") = false ->
  lookup_field "disease_info" fields = VStr info ->
  let r := detectDisease (Json (VObj fields)) s in
  fst r = Done tt
  /\ innerHTML <$> dom (snd r) !! "resultDisplay"
     = Some (html_result_open
               ++ html_plant_info name
               ++ html_ai_badge
               ++ html_disease_info (formatDiseaseInfo info))
  /\ classList <$> dom (snd r) !! "step3-indicator"
     = (fun e => {["completed"]} ∪ classList e)
         <$> dom s !! "step3-indicator".
Proof.
  intros Hplant Himage Hlang Hpresent Hsuccess Hname Hmethod Hinfo r.
  split_present Hpresent.
  pose proof (has_element_lookup _ _ _ Hlang) as Hhas.
  destruct (lookup_has_element _ _ Hin0) as [display Hdisplay].
  destruct (lookup_has_element _ _ Hin2) as [third Hthird].
  subst r. unfold detectDisease.
  run. rewrite Hplant. run. rewrite Himage. run.
  cbv [get]. run. rewrite Hsuccess. run. rewrite Hname. run.
  rewrite Hmethod. run. rewrite Hinfo. run.
  repeat split.
  - rewrite lookup_alter_ne by done. rewrite lookup_alter_eq.
    rewrite !lookup_alter_ne by done. rewrite lookup_alter_eq.
    rewrite !lookup_alter_ne by done. rewrite Hdisplay.
    cbn [fmap option_fmap option_map set_innerHTML innerHTML].
    by rewrite <- !app_assoc.
  - rewrite lookup_alter_eq, !lookup_alter_ne by done. by rewrite Hthird.
Qed.

End Remaining.

Section Weather.
Context {P : Platform}.

Lemma try_catch_ret {A B} (a : A) (k : A -> M B) h s :
  try_catch (bind (ret a) k) h s = try_catch (k a) h s.
Proof. reflexivity. Qed.

Lemma displayWeather_requested l w c : keeps (requested l) (displayWeather w c).
Proof. unfold displayWeather. keeps_requested. Qed.

(** X12: for a city that is neither blank nor the placeholder and that can
    be encoded, [getWeather] issues exactly one request, whatever comes
    back: a GET of /api/weather with the trimmed and encoded city as the
    [city] parameter. *)
Theorem getWeather_one_request (resp : response) (s : page) (input : element)
    (encoded : jsstring) :
  dom s !! "cityInput" = Some input ->
  has_element (dom s) "weatherDisplay" = true ->
  trim (value input) <> [] ->
  trim (value input) <> placeholder_city ->
  encodeURIComponent (trim (value input)) = Some encoded ->
  requests (log (snd (getWeather resp s)))
  = requests (log s) ++ [EFetch (u "/api/weather?city=" ++ encoded) "GET" []].
Proof.
  intros Hinput Hdisplay Hcity Hplace Hencoded.
  pose proof (has_element_lookup _ _ _ Hinput) as Hhas.
  unfold getWeather. do 3 step.
  replace (negb (truthy (VStr (trim (value input))))
           || bool_decide (trim (value input) = placeholder_city))
    with false.
  2:{ symmetry. apply orb_false_iff. split.
      - by destruct (trim (value input)).
      - by apply bool_decide_eq_false. }
  step. unfold encode_component. rewrite Hencoded, try_catch_ret.
  apply requested_try_fetch; [intros d|intros e|reflexivity];
    keeps_requested; apply displayWeather_requested.
Qed.

(** X13: a city that [encodeURIComponent] refuses is never sent: the weather
    display shows the fetch error and the error goes to the console. *)
Theorem getWeather_unencodable (resp : response) (s : page) (input : element) :
  dom s !! "cityInput" = Some input ->
  has_element (dom s) "weatherDisplay" = true ->
  trim (value input) <> [] ->
  trim (value input) <> placeholder_city ->
  encodeURIComponent (trim (value input)) = None ->
  let r := getWeather resp s in
  fst r = Done tt
  /\ innerHTML <$> dom (snd r) !! "weatherDisplay" = Some html_weather_error
  /\ log (snd r) = log s ++ [EConsoleError (u "Weather error:")].
Proof.
  intros Hinput Hdisplay Hcity Hplace Hencoded r.
  pose proof (has_element_lookup _ _ _ Hinput) as Hhas.
  destruct (lookup_has_element _ _ Hdisplay) as [shown Hshown].
  subst r. unfold getWeather. do 3 step.
  replace (negb (truthy (VStr (trim (value input))))
           || bool_decide (trim (value input) = placeholder_city))
    with false.
  2:{ symmetry. apply orb_false_iff. split.
      - by destruct (trim (value input)).
      - by apply bool_decide_eq_false. }
  step. unfold encode_component. rewrite Hencoded.
  run. repeat split. rewrite !lookup_alter_eq. by rewrite Hshown.
Qed.

(** X14: a weather object without its [current] part makes [displayWeather]
    throw a TypeError before it writes anything: the page is as before. *)
Theorem displayWeather_without_current (weatherData cityName : val)
    (s : page) :
  weatherData = VUndef \/ weatherData = VNull
  \/ (exists fields, weatherData = VObj fields
      /\ (lookup_field "current" fields = VUndef
          \/ lookup_field "current" fields = VNull)) ->
  displayWeather weatherData cityName s = (Throw TypeError, s).
Proof.
  intros [-> | [-> | (fields & -> & Hcurrent)]]; unfold displayWeather;
    rewrite run_getElementById_any; try reflexivity.
  cbn [get]. do 2 rewrite run_lift. by destruct Hcurrent as [-> | ->].
Qed.

(** X15: with the [current] part but without the [daily] part,
    [displayWeather] throws a TypeError.  When the four readings have a
    text it does so half way: the cards, the temperature and the humidity
    are written; when one of them has none, nothing is written.  Either
    way the rainfall input, the crop button and the crop display are as
    before. *)
Theorem displayWeather_without_daily (cityName : val) (s : page)
    (weather current : list (string * val)) :
  lookup_field "current" weather = VObj current ->
  lookup_field "daily" weather = VUndef \/ lookup_field "daily" weather = VNull ->
  present ["weatherDisplay"; "temperature"; "humidity"] s = true ->
  let r := displayWeather (VObj weather) cityName s in
  let temperature_2m := lookup_field "temperature_2m" current in
  let relative_humidity_2m := lookup_field "relative_humidity_2m" current in
  let wind_speed_10m := lookup_field "wind_speed_10m" current in
  let precipitation := lookup_field "precipitation" current in
  fst r = Throw TypeError
  /\ dom (snd r) !! "rainfall" = dom s !! "rainfall"
  /\ dom (snd r) !! "cropRecommendBtn" = dom s !! "cropRecommendBtn"
  /\ dom (snd r) !! "cropDisplay" = dom s !! "cropDisplay"
  /\ (forall temperature humidity wind rain,
        to_string temperature_2m = inr temperature ->
        to_string relative_humidity_2m = inr humidity ->
        to_string wind_speed_10m = inr wind ->
        to_string precipitation = inr rain ->
        innerHTML <$> dom (snd r) !! "weatherDisplay"
        = Some (html_weather temperature humidity wind rain)
        /\ (exists shown, input_text temperature_2m = inr shown
             /\ value <$> dom (snd r) !! "temperature" = Some shown)
        /\ (exists shown, input_text relative_humidity_2m = inr shown
             /\ value <$> dom (snd r) !! "humidity" = Some shown))
  /\ (to_string temperature_2m = inl TypeError
      \/ to_string relative_humidity_2m = inl TypeError
      \/ to_string wind_speed_10m = inl TypeError
      \/ to_string precipitation = inl TypeError ->
      snd r = s).
Proof.
  intros Hcurrent Hdaily Hpresent r temperature_2m relative_humidity_2m
    wind_speed_10m precipitation.
  split_present Hpresent.
  destruct (lookup_has_element _ _ Hin) as [cards Hcards].
  destruct (lookup_has_element _ _ Hin0) as [tinput Htinput].
  destruct (lookup_has_element _ _ Hin1) as [hinput Hhinput].
  assert (Hnothing : r = (Throw TypeError, s) ->
    to_string temperature_2m = inl TypeError
    \/ to_string relative_humidity_2m = inl TypeError
    \/ to_string wind_speed_10m = inl TypeError
    \/ to_string precipitation = inl TypeError ->
    fst r = Throw TypeError
    /\ dom (snd r) !! "rainfall" = dom s !! "rainfall"
    /\ dom (snd r) !! "cropRecommendBtn" = dom s !! "cropRecommendBtn"
    /\ dom (snd r) !! "cropDisplay" = dom s !! "cropDisplay"
    /\ (forall temperature humidity wind rain,
          to_string temperature_2m = inr temperature ->
          to_string relative_humidity_2m = inr humidity ->
          to_string wind_speed_10m = inr wind ->
          to_string precipitation = inr rain ->
          innerHTML <$> dom (snd r) !! "weatherDisplay"
          = Some (html_weather temperature humidity wind rain)
          /\ (exists shown, input_text temperature_2m = inr shown
               /\ value <$> dom (snd r) !! "temperature" = Some shown)
          /\ (exists shown, input_text relative_humidity_2m = inr shown
               /\ value <$> dom (snd r) !! "humidity" = Some shown))
    /\ (to_string temperature_2m = inl TypeError
        \/ to_string relative_humidity_2m = inl TypeError
        \/ to_string wind_speed_10m = inl TypeError
        \/ to_string precipitation = inl TypeError ->
        snd r = s)).
  { intros -> Hnone. cbn [fst snd]. do 4 (split; [reflexivity|]).
    split; [|reflexivity].
    intros t h w p Ht Hh Hw Hp.
    destruct Hnone as [H|[H|[H|H]]]; congruence. }
  assert (Hstart : r =
    (temperature_text <- lift (to_string temperature_2m) ;;
     relative_humidity <- lift (inr relative_humidity_2m) ;;
     humidity_text <- lift (to_string relative_humidity) ;;
     wind_speed <- lift (inr wind_speed_10m) ;;
     wind_text <- lift (to_string wind_speed) ;;
     rain <- lift (inr precipitation) ;;
     precipitation_text <- lift (to_string rain) ;;
     update (Some "weatherDisplay")
            (set_innerHTML (html_weather temperature_text humidity_text
                              wind_text precipitation_text)) ;;
     temperature <- getElementById "temperature" ;;
     temperature_value <- lift (input_text temperature_2m) ;;
     update temperature (set_value temperature_value) ;;
     humidity <- getElementById "humidity" ;;
     humidity_value <- lift (input_text relative_humidity) ;;
     update humidity (set_value humidity_value) ;;
     rainfall <- getElementById "rainfall" ;;
     precipitation_sum <-
       lift (get (lookup_field "daily" weather) "precipitation_sum") ;;
     first_day <- lift (get0 precipitation_sum) ;;
     rainfall_value <-
       lift (input_text (or_else first_day (VNum (S754_zero false)))) ;;
     update rainfall (set_value rainfall_value) ;;
     cropBtn <- getElementById "cropRecommendBtn" ;;
     update_if cropBtn (set_disabled false) ;;
     cropDisplay <- getElementById "cropDisplay" ;;
     update_if cropDisplay (set_innerHTML html_weather_loaded)) s).
  { subst r. unfold displayWeather. step. cbn [get]. rewrite Hcurrent.
    do 2 step. cbn [get]. step. reflexivity. }
  destruct (to_string temperature_2m) as [e|t] eqn:Ht.
  { apply to_string_error in Ht as Ht'. subst e. apply Hnothing; [|by left].
    rewrite Hstart. reflexivity. }
  destruct (to_string relative_humidity_2m) as [e|h] eqn:Hh.
  { apply to_string_error in Hh as Hh'. subst e.
    apply Hnothing; [|right; by left].
    rewrite Hstart. do 2 step. by rewrite Hh. }
  destruct (to_string wind_speed_10m) as [e|w] eqn:Hw.
  { apply to_string_error in Hw as Hw'. subst e.
    apply Hnothing; [|right; right; by left].
    rewrite Hstart. do 2 step. rewrite Hh. do 2 step. by rewrite Hw. }
  destruct (to_string precipitation) as [e|p] eqn:Hp.
  { apply to_string_error in Hp as Hp'. subst e.
    apply Hnothing; [|right; right; by right].
    rewrite Hstart. do 2 step. rewrite Hh. do 2 step. rewrite Hw.
    do 2 step. by rewrite Hp. }
  clear Hnothing.
  destruct (input_text_of_text _ _ Ht) as [tv Htv].
  destruct (input_text_of_text _ _ Hh) as [hv Hhv].
  assert (Hrun : r = (Throw TypeError,
    with_dom
      (alter (set_value hv) "humidity"
         (alter (set_value tv) "temperature"
            (alter (set_innerHTML (html_weather t h w p)) "weatherDisplay"
               (dom s)))) s)).
  { rewrite Hstart. do 2 step. rewrite Hh. do 2 step. rewrite Hw.
    do 2 step. rewrite Hp. do 3 step. rewrite Htv. do 3 step.
    rewrite Hhv. do 2 step. rewrite run_getElementById_any.
    by destruct Hdaily as [-> | ->]. }
  rewrite Hrun. cbn [fst snd dom with_dom].
  split; [reflexivity|].
  split; [by rewrite !lookup_alter_ne by done|].
  split; [by rewrite !lookup_alter_ne by done|].
  split; [by rewrite !lookup_alter_ne by done|].
  split; [|intros [H|[H|[H|H]]]; discriminate H].
  intros t' h' w' p' [= <-] [= <-] [= <-] [= <-]. repeat split.
  - rewrite !lookup_alter_ne by done. rewrite lookup_alter_eq.
    by rewrite Hcards.
  - exists tv. split; [exact Htv|].
    rewrite lookup_alter_ne by done. rewrite lookup_alter_eq.
    rewrite lookup_alter_ne by done. by rewrite Htinput.
  - exists hv. split; [exact Hhv|].
    rewrite lookup_alter_eq. rewrite !lookup_alter_ne by done.
    by rewrite Hhinput.
Qed.

End Weather.

Section Located.
Context {P : Platform}.

(** What [displayWeather] leaves behind on a full snapshot whose readings
    have a text. *)
Lemma displayWeather_done (s : page) (cityName : val)
    (weather current daily : list (string * val)) (sums : list val)
    (temperature humidity wind precipitation rain : jsstring) :
  lookup_field "current" weather = VObj current ->
  lookup_field "daily" weather = VObj daily ->
  lookup_field "precipitation_sum" daily = VArr sums ->
  to_string (lookup_field "temperature_2m" current) = inr temperature ->
  to_string (lookup_field "relative_humidity_2m" current) = inr humidity ->
  to_string (lookup_field "wind_speed_10m" current) = inr wind ->
  to_string (lookup_field "precipitation" current) = inr precipitation ->
  input_text (or_else (hd VUndef sums) (VNum (S754_zero false))) = inr rain ->
  present ["weatherDisplay"; "temperature"; "humidity"; "rainfall"] s = true ->
  let r := displayWeather (VObj weather) cityName s in
  fst r = Done tt
  /\ innerHTML <$> dom (snd r) !! "weatherDisplay"
     = Some (html_weather temperature humidity wind precipitation)
  /\ dom (snd r) !! "cityInput" = dom s !! "cityInput"
  /\ log (snd r) = log s.
Proof.
  intros Hcurrent Hdaily Hsums Htemperature Hhumidity Hwind Hprecipitation
    Hrain Hpresent r.
  split_present Hpresent.
  destruct (lookup_has_element _ _ Hin) as [cards Hcards].
  destruct (input_text_of_text _ _ Htemperature) as [tv Htv].
  destruct (input_text_of_text _ _ Hhumidity) as [hv Hhv].
  subst r. unfold displayWeather.
  step. cbn [get]. rewrite Hcurrent, Hdaily. do 2 step.
  cbn [get]. step. rewrite Htemperature. step.
  step. rewrite Hhumidity. step.
  step. rewrite Hwind. step.
  step. rewrite Hprecipitation. step.
  do 2 step. rewrite Htv. do 2 step.
  step. rewrite Hhv. do 2 step.
  step. cbn [get]. rewrite Hsums. step. cbn [get0]. step.
  rewrite Hrain. do 2 step.
  rewrite run_getElementById_any, run_update_if. page_simpl.
  rewrite run_getElementById_any, run_update_if_last. page_simpl.
  destruct (has_element (dom s) "cropRecommendBtn");
    page_simpl; destruct (has_element (dom s) "cropDisplay");
    page_simpl; (repeat split;
    [ rewrite !lookup_alter_ne by done; rewrite lookup_alter_eq;
      by rewrite Hcards
    | by rewrite !lookup_alter_ne by done ]).
Qed.

(** A browser without geolocation gets an alert and nothing else: no
    element is written, whether it exists or not, and no callback is
    registered. *)
Lemma getUserLocation_unsupported (s : page) :
  getUserLocation false s
  = (Done None, with_log (log s ++ [EAlert msg_no_geolocation]) s).
Proof.
  unfold getUserLocation. by rewrite !run_getElementById_any.
Qed.

(** X16: while the position is awaited the city input holds the placeholder,
    so a [getWeather] in between is refused with the alert and issues no
    request. *)
Theorem getUserLocation_blocks_getWeather (resp : response) (s : page) :
  present ["cityInput"; "weatherDisplay"] s = true ->
  let s1 := snd (getUserLocation true s) in
  fst (getUserLocation true s)
  = Done (Some (Some "cityInput", Some "weatherDisplay"))
  /\ value <$> dom s1 !! "cityInput" = Some placeholder_city
  /\ getWeather resp s1
     = (Done tt, with_log (log s1 ++ [EAlert msg_enter_city]) s1).
Proof.
  intros Hpresent s1. split_present Hpresent.
  destruct (lookup_has_element _ _ Hin) as [city Hcity].
  assert (Hrun : getUserLocation true s
    = (Done (Some (Some "cityInput", Some "weatherDisplay")),
       with_dom (alter (set_value placeholder_city) "cityInput"
                   (alter (set_innerHTML html_locating) "weatherDisplay"
                      (dom s))) s)).
  { unfold getUserLocation. by repeat step. }
  subst s1. rewrite Hrun. cbn [fst snd].
  match goal with |- context [getWeather _ ?s1] => set (s2 := s1) end.
  assert (Hinput : dom s2 !! "cityInput"
                   = Some (set_value placeholder_city city)).
  { subst s2. cbn [dom with_dom].
    rewrite lookup_alter_eq, lookup_alter_ne by done. by rewrite Hcity. }
  pose proof (has_element_lookup _ _ _ Hinput) as Hhas.
  clearbody s2. repeat split.
  - by rewrite Hinput.
  - unfold getWeather. do 2 step. rewrite run_getElementById_any.
    reflexivity.
Qed.

(** X17: when the position is denied the weather display shows the location
    error, the city input is emptied and the error goes to the console. *)
Theorem getUserLocation_denied_clears (s : page) :
  present ["cityInput"; "weatherDisplay"] s = true ->
  let r := getUserLocation_denied (Some "cityInput") (Some "weatherDisplay") s in
  fst r = Done tt
  /\ innerHTML <$> dom (snd r) !! "weatherDisplay" = Some html_location_denied
  /\ value <$> dom (snd r) !! "cityInput" = Some []
  /\ log (snd r) = log s ++ [EConsoleError (u "Geolocation error:")].
Proof.
  intros Hpresent r. split_present Hpresent.
  destruct (lookup_has_element _ _ Hin) as [city Hcity].
  destruct (lookup_has_element _ _ Hin0) as [shown Hshown].
  subst r. unfold getUserLocation_denied. run. repeat split.
  - rewrite lookup_alter_ne by done. rewrite lookup_alter_eq.
    by rewrite Hshown.
  - rewrite lookup_alter_eq, lookup_alter_ne by done. by rewrite Hcity.
Qed.

(** X18: the success callback asks for the forecast first and for the place
    name only once the forecast has arrived: a failed forecast request
    leaves one request, anything else two, on any page. *)
Theorem getUserLocation_located_requests (cityInput weatherDisplay : ref)
    (lat lon : spec_float) (forecast geocoding : response) (s : page) :
  requests (log (snd (getUserLocation_located cityInput weatherDisplay
                        lat lon forecast geocoding s)))
  = requests (log s)
      ++ EFetch (forecast_url (number_to_string lat) (number_to_string lon))
                "GET" []
      :: match forecast with
         | Json _ =>
             [EFetch (geocoding_url (number_to_string lat)
                                    (number_to_string lon)) "GET" []]
         | _ => []
         end.
Proof.
  unfold getUserLocation_located, try_catch, fetch_json.
  set (first := EFetch (forecast_url _ _) "GET" []).
  set (second := EFetch (geocoding_url _ _) "GET" []).
  assert (Hfirst : requested (requests (log s) ++ [first])
                     (with_log (log s ++ [first]) s))
    by (by apply requested_fetch).
  assert (Hhandler : forall l,
    keeps (requested l)
      (update weatherDisplay (set_innerHTML html_location_error) ;;
       update cityInput (set_value []) ;;
       console_error (u "Location error:"))).
  { intros l. keeps_requested. }
  rewrite run_bind_assoc, run_emit.
  destruct forecast as [| |weather].
  - rewrite run_throw. by apply (Hhandler _).
  - rewrite run_throw. by apply (Hhandler _).
  - rewrite run_ret, run_bind_assoc, run_emit.
    match goal with |- context [with_log (log ?s1 ++ [second]) ?s1] =>
      assert (Hsecond : requested (requests (log s) ++ [first; second])
                          (with_log (log s1 ++ [second]) s1))
    end.
    { replace (requests (log s) ++ [first; second])
        with ((requests (log s) ++ [first]) ++ [second])
        by (by rewrite <- app_assoc).
      by apply requested_fetch. }
    destruct geocoding as [| |geo].
    + rewrite run_throw. by apply (Hhandler _).
    + rewrite run_throw. by apply (Hhandler _).
    + rewrite run_ret.
      match goal with |- context [bind ?m ?k ?s2] =>
        assert (Hkeep : keeps (requested (requests (log s) ++ [first; second]))
                          (bind m k))
          by (keeps_requested; apply displayWeather_requested);
        specialize (Hkeep s2 Hsecond);
        destruct (bind m k s2) as [[a|e] s3]
      end.
      * exact Hkeep.
      * by apply (Hhandler _).
Qed.

(** X19: when both requests succeed on a full snapshot whose readings
    have a text, on a page with the five elements used, the callback
    returns normally, the weather display shows the four cards and the city
    input takes the name of the first place found, or "Your Location" when
    no place was found; the name is a text of one line. *)
Theorem getUserLocation_located_names_city (lat lon : spec_float) (s : page)
    (weather current daily geo : list (string * val)) (sums : list val)
    (name : val)
    (city temperature humidity wind precipitation rain : jsstring) :
  lookup_field "current" weather = VObj current ->
  lookup_field "daily" weather = VObj daily ->
  lookup_field "precipitation_sum" daily = VArr sums ->
  to_string (lookup_field "temperature_2m" current) = inr temperature ->
  to_string (lookup_field "relative_humidity_2m" current) = inr humidity ->
  to_string (lookup_field "wind_speed_10m" current) = inr wind ->
  to_string (lookup_field "precipitation" current) = inr precipitation ->
  input_text (or_else (hd VUndef sums) (VNum (S754_zero false))) = inr rain ->
  present ["cityInput"; "weatherDisplay"; "temperature"; "humidity";
           "rainfall"] s = true ->
  (exists place rest,
      lookup_field "results" geo = VArr (VObj place :: rest)
      /\ name = lookup_field "name" place)
  \/ ((lookup_field "results" geo = VArr []
       \/ truthy (lookup_field "results" geo) = false)
      /\ name = VStr your_location) ->
  input_text name = inr city ->
  Forall (fun c => c <> 10%N /\ c <> 13%N) city ->
  let r := getUserLocation_located (Some "cityInput") (Some "weatherDisplay")
             lat lon (Json (VObj weather)) (Json (VObj geo)) s in
  fst r = Done tt
  /\ value <$> dom (snd r) !! "cityInput" = Some city
  /\ innerHTML <$> dom (snd r) !! "weatherDisplay"
     = Some (html_weather temperature humidity wind precipitation).
Proof.
  intros Hcurrent Hdaily Hsums Htemperature Hhumidity Hwind Hprecipitation
    Hrain Hpresent Hname Hcity _ r.
  split_present Hpresent.
  destruct (lookup_has_element _ _ Hin) as [input Hinput].
  assert (Hshow : forall s1 : page,
    dom s1 = alter (set_value city) "cityInput" (dom s) ->
    let r1 := displayWeather (VObj weather) name s1 in
    fst r1 = Done tt
    /\ value <$> dom (snd r1) !! "cityInput" = Some city
    /\ innerHTML <$> dom (snd r1) !! "weatherDisplay"
       = Some (html_weather temperature humidity wind precipitation)).
  { intros s1 Hdom r1.
    destruct (displayWeather_done s1 name weather current daily sums
                temperature humidity wind precipitation rain
                Hcurrent Hdaily Hsums Htemperature Hhumidity Hwind
                Hprecipitation Hrain) as (Hdone & Hcards & Hsame & _).
    { unfold present. cbn [forallb]. rewrite Hdom, !has_element_alter.
      by rewrite Hin0, Hin1, Hin2, Hin3. }
    subst r1. repeat split; [exact Hdone| |exact Hcards].
    rewrite Hsame, Hdom, lookup_alter_eq. by rewrite Hinput. }
  subst r. unfold getUserLocation_located, try_catch, fetch_json.
  rewrite run_bind_assoc, run_emit, run_ret.
  rewrite run_bind_assoc, run_emit, run_ret. cbn [get]. rewrite run_lift.
  destruct Hname as [(place & rest & Hresults & ->)
                    | [[Hresults | Hresults] ->]];
    rewrite ?Hresults; cbn [truthy length_above_zero get0 hd lift];
    repeat (first [rewrite run_bind_assoc | rewrite run_ret
                  | rewrite run_lift | rewrite run_update]);
    cbn [negb length Nat.ltb Nat.leb get];
    repeat (first [rewrite run_bind_assoc | rewrite run_ret
                  | rewrite run_lift | rewrite run_update]);
    cbn [get];
    repeat (first [rewrite run_bind_assoc | rewrite run_ret
                  | rewrite run_lift | rewrite run_update]);
    rewrite Hcity;
    repeat (first [rewrite run_bind_assoc | rewrite run_ret
                  | rewrite run_lift | rewrite run_update]);
    page_simpl;
    match goal with
    | |- context [displayWeather ?w ?c ?s1] =>
        destruct (Hshow s1 eq_refl) as (Hdone & Hvalue & Hcards);
        destruct (displayWeather w c s1) as [[[]|e] s2];
        [exact (conj Hdone (conj Hvalue Hcards)) | discriminate Hdone]
    end.
Qed.

End Located.

Section CropAdvice.
Context {P : Platform}.
Variable parseFloat : jsstring -> spec_float.
Variable JSON_stringify : val -> jsstring.

(** X20: while one of the three weather inputs is empty,
    [getCropRecommendation] only alerts that the weather is to be fetched
    first; with the three filled and no soil type chosen it only alerts that
    a soil type is to be selected.  Either way the page is as before but for
    the alert, and no request is issued. *)
Theorem getCropRecommendation_guard (resp : response) (s : page)
    (temperature humidity rainfall soilType : element) :
  dom s !! "temperature" = Some temperature ->
  dom s !! "humidity" = Some humidity ->
  dom s !! "rainfall" = Some rainfall ->
  dom s !! "soilType" = Some soilType ->
  let r := getCropRecommendation parseFloat JSON_stringify resp s in
  (value temperature = [] \/ value humidity = [] \/ value rainfall = [] ->
   r = (Done tt, with_log (log s ++ [EAlert msg_fetch_weather_first]) s))
  /\ (value temperature <> [] -> value humidity <> [] ->
      value rainfall <> [] -> value soilType = [] ->
      r = (Done tt, with_log (log s ++ [EAlert msg_select_soil]) s)).
Proof.
  intros Htemperature Hhumidity Hrainfall Hsoil r.
  pose proof (has_element_lookup _ _ _ Htemperature).
  pose proof (has_element_lookup _ _ _ Hhumidity).
  pose proof (has_element_lookup _ _ _ Hrainfall).
  pose proof (has_element_lookup _ _ _ Hsoil).
  subst r. unfold getCropRecommendation. do 8 step. split.
  - intros Hempty.
    replace (negb (truthy (VStr (value temperature)))
             || negb (truthy (VStr (value humidity)))
             || negb (truthy (VStr (value rainfall)))) with true;
      [reflexivity|].
    destruct Hempty as [-> | [-> | ->]]; cbn [truthy negb orb];
      by rewrite ?orb_true_r.
  - intros Ht Hh Hr Hs.
    destruct (value temperature); [done|].
    destruct (value humidity); [done|].
    destruct (value rainfall); [done|].
    by rewrite Hs.
Qed.

(** X21: with the three weather inputs filled, a soil type chosen and the
    crop display in the page, [getCropRecommendation] issues exactly one
    request, whatever comes back: a POST to /api/crop-recommendation whose
    body is the JSON text of the three inputs as numbers and the soil type
    as text. *)
Theorem getCropRecommendation_one_request (resp : response) (s : page)
    (temperature humidity rainfall soilType : element) :
  dom s !! "temperature" = Some temperature ->
  dom s !! "humidity" = Some humidity ->
  dom s !! "rainfall" = Some rainfall ->
  dom s !! "soilType" = Some soilType ->
  has_element (dom s) "cropDisplay" = true ->
  value temperature <> [] -> value humidity <> [] ->
  value rainfall <> [] -> value soilType <> [] ->
  requests (log (snd (getCropRecommendation parseFloat JSON_stringify resp s)))
  = requests (log s)
      ++ [EFetch (u "/api/crop-recommendation") "POST"
            [("body",
              PText (JSON_stringify
                (VObj [("temperature", VNum (parseFloat (value temperature)));
                       ("humidity", VNum (parseFloat (value humidity)));
                       ("rainfall", VNum (parseFloat (value rainfall)));
                       ("soil_type", VStr (value soilType))])))]].
Proof.
  intros Htemperature Hhumidity Hrainfall Hsoil Hdisplay Ht Hh Hr Hs.
  pose proof (has_element_lookup _ _ _ Htemperature).
  pose proof (has_element_lookup _ _ _ Hhumidity).
  pose proof (has_element_lookup _ _ _ Hrainfall).
  pose proof (has_element_lookup _ _ _ Hsoil).
  unfold getCropRecommendation. do 8 step.
  destruct (value temperature) as [|c1 v1]; [done|].
  destruct (value humidity) as [|c2 v2]; [done|].
  destruct (value rainfall) as [|c3 v3]; [done|].
  destruct (value soilType) as [|c4 v4]; [done|].
  cbn [truthy negb orb]. do 2 step.
  apply requested_try_fetch; [intros d|intros e|reflexivity];
    keeps_requested.
Qed.

(** X22: past the guards, on a page with the four inputs and the crop
    display, the handler returns normally and the crop display shows in the
    end: the formatted recommendations of a success envelope that carries
    them as text; the message of a failure envelope whose message has a
    text; and the generic error, with the error on the console, when the
    request fails, the body does not parse, the body is null, a success
    envelope carries no text, or the message of a failure envelope has no
    text. *)
Theorem getCropRecommendation_display (resp : response) (s : page)
    (temperature humidity rainfall soilType : element) :
  dom s !! "temperature" = Some temperature ->
  dom s !! "humidity" = Some humidity ->
  dom s !! "rainfall" = Some rainfall ->
  dom s !! "soilType" = Some soilType ->
  has_element (dom s) "cropDisplay" = true ->
  value temperature <> [] -> value humidity <> [] ->
  value rainfall <> [] -> value soilType <> [] ->
  let r := getCropRecommendation parseFloat JSON_stringify resp s in
  let shown := innerHTML <$> dom (snd r) !! "cropDisplay" in
  let logged := List.filter (fun e => negb (is_fetch e)) (log (snd r)) in
  let before := List.filter (fun e => negb (is_fetch e)) (log s) in
  fst r = Done tt
  /\ (forall fields text, resp = Json (VObj fields) ->
      truthy (lookup_field "success" fields) = true ->
      lookup_field "recommendations" fields = VStr text ->
      shown = Some (formatCropRecommendations text) /\ logged = before)
  /\ (forall fields text, resp = Json (VObj fields) ->
      truthy (lookup_field "success" fields) = false ->
      to_string (lookup_field "message" fields) = inr text ->
      shown = Some (html_red text) /\ logged = before)
  /\ (resp = NetworkError \/ resp = BadJson \/ resp = Json VNull
      \/ (exists fields, resp = Json (VObj fields)
          /\ truthy (lookup_field "success" fields) = true
          /\ forall text, lookup_field "recommendations" fields <> VStr text)
      \/ (exists fields, resp = Json (VObj fields)
          /\ truthy (lookup_field "success" fields) = false
          /\ to_string (lookup_field "message" fields) = inl TypeError) ->
      shown = Some html_crop_error
      /\ logged = before ++ [EConsoleError (u "Recommendation error:")]).
Proof.
  intros Htemperature Hhumidity Hrainfall Hsoil Hdisplay Ht Hh Hr Hs.
  pose proof (has_element_lookup _ _ _ Htemperature).
  pose proof (has_element_lookup _ _ _ Hhumidity).
  pose proof (has_element_lookup _ _ _ Hrainfall).
  pose proof (has_element_lookup _ _ _ Hsoil).
  destruct (lookup_has_element _ _ Hdisplay) as [crop Hcrop].
  cbv zeta. unfold getCropRecommendation. do 8 step.
  destruct (value temperature) as [|c1 v1]; [done|].
  destruct (value humidity) as [|c2 v2]; [done|].
  destruct (value rainfall) as [|c3 v3]; [done|].
  destruct (value soilType) as [|c4 v4]; [done|].
  cbn [truthy negb orb]. do 2 step.
  assert (Hlog : forall l url method body,
    List.filter (fun e => negb (is_fetch e)) (l ++ [EFetch url method body])
    = List.filter (fun e => negb (is_fetch e)) l).
  { intros. rewrite List.filter_app. apply app_nil_r. }
  assert (Hconsole : forall l url method body label,
    List.filter (fun e => negb (is_fetch e))
                ((l ++ [EFetch url method body]) ++ [EConsoleError label])
    = List.filter (fun e => negb (is_fetch e)) l ++ [EConsoleError label]).
  { intros. rewrite List.filter_app, Hlog. reflexivity. }
  split; [|split; [|split]].
  - destruct resp as [| |data]; run; try reflexivity.
    destruct data as [| | | | | |fields]; cbv [get]; run; try reflexivity.
    destruct (truthy (lookup_field "success" fields)); run.
    + by destruct (lookup_field "recommendations" fields).
    + by destruct (to_string (lookup_field "message" fields)).
  - intros fields text -> Hsuccess Htext. run. cbv [get]. run.
    rewrite Hsuccess. run. rewrite Htext. run.
    split; [|apply Hlog]. rewrite !lookup_alter_eq. by rewrite Hcrop.
  - intros fields text -> Hsuccess Hmessage. run. cbv [get]. run.
    rewrite Hsuccess. run. rewrite Hmessage. run.
    split; [|apply Hlog]. rewrite !lookup_alter_eq. by rewrite Hcrop.
  - intros [-> | [-> | [-> | [(fields & -> & Hsuccess & Htext)
                            | (fields & -> & Hsuccess & Hmessage)]]]];
      run; cbv [get]; run; rewrite ?Hsuccess; run; rewrite ?Hmessage; run;
      try (destruct (lookup_field "recommendations" fields) as [| | | |text| |];
           [| | | |by destruct (Htext text)| |]; run);
      (split; [|apply Hconsole]); rewrite !lookup_alter_eq; by rewrite Hcrop.
Qed.

End CropAdvice.

(** *** The detect button *)

Section Guard.

Lemma keeps_bind_get I {B} id (k : ref -> M B) :
  (forall r, r = Some id \/ r = None -> keeps I (k r)) ->
  keeps I (bind (getElementById id) k).
Proof.
  intros Hk s HI. rewrite run_getElementById_any.
  apply Hk; [|exact HI]. destruct (has_element (dom s) id); auto.
Qed.

Lemma keeps_update_at I r id f :
  r = Some id \/ r = None -> dom_stable_at I id f -> keeps I (update r f).
Proof. intros [-> | ->] Hf s HI; cbn; [by apply Hf | done]. Qed.

Lemma keeps_update_if_at I r id f :
  r = Some id \/ r = None -> dom_stable_at I id f -> keeps I (update_if r f).
Proof. intros [-> | ->] Hf s HI; cbn; [by apply Hf | done]. Qed.

Lemma detect_guarded_elsewhere id f :
  id <> "detectBtn" -> dom_stable_at detect_guarded id f.
Proof.
  intros Hne s. unfold detect_guarded. cbn [dom with_dom selectedImage].
  by rewrite lookup_alter_ne.
Qed.

Lemma detect_guarded_log_stable : log_stable detect_guarded.
Proof. by intros s l. Qed.

Lemma detect_guarded_reset :
  keeps detect_guarded
    (modify (with_selectedImage None) ;;
     detectBtn <- getElementById "detectBtn" ;;
     update detectBtn (set_disabled true)).
Proof.
  intros s _. rewrite run_modify, run_getElementById_any. page_simpl.
  destruct (has_element (dom s) "detectBtn") eqn:Hbutton;
    unfold detect_guarded; cbn.
  - rewrite lookup_alter_eq. by destruct (dom s !! "detectBtn").
  - unfold has_element in Hbutton. by destruct (dom s !! "detectBtn").
Qed.

Lemma image_selected_guarded s : image_selected s -> detect_guarded s.
Proof. by intros Himage _. Qed.

Lemma image_selected_dom_stable f : dom_stable image_selected f.
Proof. by intros s id. Qed.

Lemma image_selected_log_stable : log_stable image_selected.
Proof. by intros s l. Qed.

End Guard.

Ltac guard_side :=
  first [ apply detect_guarded_log_stable
        | apply detect_guarded_elsewhere; discriminate
        | intros []; unfold detect_guarded; cbn; done ].

(** One rule for the detect button: the elements keep their ids. *)
Ltac guard_step :=
  lazymatch goal with
  | |- keeps _ (bind (getElementById _) _) =>
      apply keeps_bind_get; intros ? ?
  | |- keeps _ (bind (modify (with_selectedImage None)) _) =>
      apply detect_guarded_reset
  | |- keeps _ (update _ _) =>
      eapply keeps_update_at; [eassumption | guard_side]
  | |- keeps _ (update_if _ _) =>
      eapply keeps_update_if_at; [eassumption | guard_side]
  | |- _ => keeps_step guard_side
  end.

Ltac keeps_guard :=
  unfold console_error, alert, fetch_json, stop_tracks, encode_component,
         getUserMedia;
  repeat guard_step.

Ltac image_side :=
  first [ apply image_selected_log_stable
        | apply image_selected_dom_stable
        | intros []; unfold image_selected; cbn; done ].

Ltac keeps_image :=
  unfold console_error, alert, stop_tracks; repeat keeps_step image_side.

Section GuardInvariant.
Context {P : Platform}.
Variable parseFloat : jsstring -> spec_float.
Variable JSON_stringify : val -> jsstring.

Lemma stopCamera_guarded : keeps detect_guarded stopCamera.
Proof. unfold stopCamera. keeps_guard. Qed.

Lemma displayWeather_guarded w c : keeps detect_guarded (displayWeather w c).
Proof. unfold displayWeather. keeps_guard. Qed.

(** X23: the detect button is enabled only while an image is selected: every
    handler keeps this, on any page and however it ends, and the callback
    of the file reader keeps it when the image is still selected as it
    runs. *)
Theorem detect_button_needs_image (resp : response) (grant : option stream)
    (chosen : option file) (blob : option jsstring) (now : N)
    (dataURL result : jsstring) (weatherData cityName : val)
    (supported : bool) :
  keeps detect_guarded plantSelected
  /\ keeps detect_guarded (previewImage chosen)
  /\ (forall s, image_selected s ->
        detect_guarded (snd (previewImage_onload result s)))
  /\ (forall s, detect_guarded (snd (captureImage_callback blob now dataURL s)))
  /\ keeps detect_guarded switchToUpload
  /\ keeps detect_guarded switchToCamera
  /\ keeps detect_guarded (startCamera grant)
  /\ keeps detect_guarded captureImage
  /\ keeps detect_guarded stopCamera
  /\ keeps detect_guarded (detectDisease resp)
  /\ keeps detect_guarded (getCropRecommendation parseFloat JSON_stringify resp)
  /\ keeps detect_guarded (getWeather resp)
  /\ keeps detect_guarded (displayWeather weatherData cityName)
  /\ keeps detect_guarded (getUserLocation supported).
Proof.
  repeat split_and.
  - unfold plantSelected. keeps_guard.
  - unfold previewImage. keeps_guard.
  - intros s Himage. apply image_selected_guarded. revert s Himage.
    change (keeps image_selected (previewImage_onload result)).
    unfold previewImage_onload. keeps_image.
  - intros s. apply image_selected_guarded.
    unfold captureImage_callback. rewrite run_gets, run_modify.
    match goal with |- image_selected (snd (?m ?s1)) =>
      assert (Hk : keeps image_selected m)
        by (unfold stopCamera; keeps_image);
      apply Hk
    end.
    done.
  - unfold switchToUpload. keeps_guard; apply stopCamera_guarded.
  - unfold switchToCamera. keeps_guard.
  - unfold startCamera. keeps_guard.
  - unfold captureImage. keeps_guard.
  - apply stopCamera_guarded.
  - unfold detectDisease. keeps_guard.
  - unfold getCropRecommendation. keeps_guard.
  - unfold getWeather. keeps_guard; apply displayWeather_guarded.
  - apply displayWeather_guarded.
  - unfold getUserLocation. keeps_guard.
Qed.

(** X24: the callback of the file reader does not look at the selected image:
    when the plant is chosen anew between the choice of a file and the end
    of its decoding, the callback enables the detect button although no
    image is selected any more. *)
Theorem previewImage_onload_after_plantSelected (f : file)
    (result : jsstring) (s : page) (select : element) :
  dom s !! "plantSelect" = Some select ->
  value select <> [] ->
  present ["imageUploadSection"; "imageInput"; "selectedPlantInfo";
           "step1-indicator"; "step2-indicator"; "step3-indicator";
           "resultDisplay"; "imagePreview"; "detectBtn"] s = true ->
  let s1 := snd (previewImage (Some f) s) in
  let s2 := snd (plantSelected s1) in
  let s3 := snd (previewImage_onload result s2) in
  selectedImage s1 = Some f
  /\ selectedImage s3 = None
  /\ disabled <$> dom s3 !! "detectBtn" = Some false.
Proof.
  intros Hselect Hvalue Hpresent s1 s2 s3. split_present Hpresent.
  pose proof (has_element_lookup _ _ _ Hselect) as Hhas.
  destruct (lookup_has_element _ _ Hin7) as [button Hbutton].
  subst s3 s2 s1. cbn [previewImage modify snd].
  unfold plantSelected. repeat step.
  destruct (value select) as [|c chosen] eqn:Hchosen; [done|].
  cbn [plant_val truthy]. repeat step. rewrite run_update_last. page_simpl.
  unfold previewImage_onload. repeat step. rewrite run_update_last.
  page_simpl. repeat split.
  rewrite !lookup_alter_ne by done. rewrite lookup_alter_eq.
  rewrite !lookup_alter_ne by done.  rewrite lookup_alter_eq.
  rewrite !lookup_alter_ne by done. by rewrite Hbutton.
Qed.

End GuardInvariant.

(** *** The camera, once more *)

Section CameraRoundTrip.

Lemma startCamera_stream (st : stream) (s : page) :
  cameraStream (snd (startCamera (Some st) s)) = Some st
  /\ live (snd (startCamera (Some st) s)) = live s ∪ list_to_set st
  /\ selectedImage (snd (startCamera (Some st) s)) = selectedImage s.
Proof.
  destruct s as [img plant cam d cont g lv lg]. unfold startCamera.
  destruct (has_element d "cameraVideo") eqn:Hvideo;
    destruct (has_element d "startCameraBtn") eqn:Hstart;
    destruct (has_element d "captureBtn") eqn:Hcapture;
    destruct (has_element d "stopCameraBtn") eqn:Hstop;
    destruct cont; destruct g as [|g0 g];
    run; done.
Qed.

Lemma camera_idle_after_start (st : stream) d :
  camera_idle
    (alter (set_display (u "inline-block")) "stopCameraBtn"
       (alter (set_display (u "inline-block")) "captureBtn"
          (alter (set_display (u "none")) "startCameraBtn"
             (alter (set_srcObject (Some st)) "cameraVideo" d))))
  = camera_idle d.
Proof.
  apply map_eq. intros id. rewrite !lookup_camera_idle.
  unfold camera_idle_at.
  destruct (decide (id = "stopCameraBtn")) as [->|Hstop].
  { rewrite lookup_alter_eq, !lookup_alter_ne by done.
    by destruct (d !! "stopCameraBtn"). }
  rewrite lookup_alter_ne by done.
  destruct (decide (id = "captureBtn")) as [->|Hcapture].
  { rewrite lookup_alter_eq, !lookup_alter_ne by done.
    by destruct (d !! "captureBtn"). }
  rewrite lookup_alter_ne by done.
  destruct (decide (id = "startCameraBtn")) as [->|Hstart].
  { rewrite lookup_alter_eq, !lookup_alter_ne by done.
    by destruct (d !! "startCameraBtn"). }
  rewrite lookup_alter_ne by done.
  destruct (decide (id = "cameraVideo")) as [->|Hvideo].
  { rewrite lookup_alter_eq. by destruct (d !! "cameraVideo"). }
  by rewrite lookup_alter_ne by done.
Qed.

(** X25: when the platform refuses the camera, [startCamera] writes nothing:
    on any page it ends normally with the error on the console and the
    alert, and no stream is taken. *)
Theorem startCamera_rejected (s : page) :
  startCamera None s
  = (Done tt,
     with_log (log s ++ [EConsoleError (u "Camera error:"); EAlert msg_camera])
              s).
Proof.
  unfold startCamera. rewrite !run_getElementById_any.
  unfold try_catch, getUserMedia. rewrite run_throw.
  unfold console_error, alert. rewrite run_emit. cbv [emit].
  cbv [modify]. page_simpl. by rewrite <- app_assoc.
Qed.

(** X26: [startCamera] takes the new stream without looking at the one it
    holds: after a start and the next [stopCamera] no stream is held, yet of
    the tracks that ran before only those of the new stream are stopped. *)
Theorem startCamera_forgets_stream (st : stream) (s : page) :
  let s1 := snd (startCamera (Some st) s) in
  let s2 := snd (stopCamera s1) in
  cameraStream s1 = Some st
  /\ cameraStream s2 = None
  /\ live s2 = live s ∖ list_to_set st.
Proof.
  intros s1 s2.
  destruct (startCamera_stream st s) as (Hheld & Hlive & _).
  destruct (stopCamera_releases s1 st Hheld) as (Hoff & Hstopped & _).
  subst s2. rewrite Hoff, Hstopped. subst s1. rewrite Hlive.
  repeat split; [assumption|]. apply set_eq. intros t.
  rewrite !elem_of_difference, elem_of_union. tauto.
Qed.

(** X27: from a page at rest, with the four camera elements and the camera
    container, whose tracks are not those of the granted stream, a start
    holds the stream, runs its tracks, shows it in the video and adds the
    guide overlay; the [stopCamera] after it gives the page back with the
    camera controls at rest. *)
Theorem startCamera_then_stopCamera (st : stream) (s : page) :
  present ["cameraVideo"; "startCameraBtn"; "captureBtn"; "stopCameraBtn"] s
  = true ->
  container s = true ->
  cameraStream s = None ->
  guides s = [] ->
  (forall t, t ∈ st -> t ∉ live s) ->
  let s1 := snd (startCamera (Some st) s) in
  cameraStream s1 = Some st
  /\ live s1 = live s ∪ list_to_set st
  /\ srcObject <$> dom s1 !! "cameraVideo" = Some (Some st)
  /\ guides s1 = [guide_text (plant_text (selectedPlant s))]
  /\ stopCamera s1 = (Done tt, with_dom (camera_idle (dom s)) s).
Proof.
  intros Hpresent Hcontainer Hcamera Hguides Hfresh s1.
  split_present Hpresent.
  destruct (lookup_has_element _ _ Hin) as [video Hvideo].
  destruct s as [img plant cam d cont g lv lg].
  cbn [dom container cameraStream guides live selectedPlant] in *.
  subst cont cam g.
  assert (Hrun : s1 = MkPage img plant (Some st)
    (alter (set_display (u "inline-block")) "stopCameraBtn"
       (alter (set_display (u "inline-block")) "captureBtn"
          (alter (set_display (u "none")) "startCameraBtn"
             (alter (set_srcObject (Some st)) "cameraVideo" d))))
    true [guide_text (plant_text plant)] (lv ∪ list_to_set st) lg).
  { subst s1. unfold startCamera. run. reflexivity. }
  rewrite Hrun. cbn [cameraStream live dom guides]. repeat split.
  - rewrite !lookup_alter_ne by done. rewrite lookup_alter_eq.
    by rewrite Hvideo.
  - rewrite stopCamera_eq. cbn [dom]. rewrite !has_element_alter, Hin.
    unfold release_camera, with_guides, with_dom, with_cameraStream,
      with_live. cbn. f_equal. f_equal.
    + apply camera_idle_after_start.
    + apply set_eq. intros t. specialize (Hfresh t).
      rewrite elem_of_difference, elem_of_union, elem_of_list_to_set.
      tauto.
Qed.

(** X28: with its four mode elements in the page, [switchToUpload] shows the
    upload option, hides the camera option and releases the stream that is
    held: every track of it is stopped. *)
Theorem switchToUpload_releases_camera (s : page) (st : stream) :
  cameraStream s = Some st ->
  present ["uploadBtn"; "cameraBtn"; "uploadOption"; "cameraOption"] s = true ->
  let r := switchToUpload s in
  cameraStream (snd r) = None
  /\ live (snd r) = live s ∖ list_to_set st
  /\ display <$> dom (snd r) !! "uploadOption" = Some (u "block")
  /\ display <$> dom (snd r) !! "cameraOption" = Some (u "none")
  /\ (has_element (dom s) "cameraVideo" = true -> fst r = Done tt).
Proof.
  intros Hcam Hpresent r. split_present Hpresent.
  destruct (lookup_has_element _ _ Hin1) as [upload Hupload].
  destruct (lookup_has_element _ _ Hin2) as [camera Hcamera].
  subst r. unfold switchToUpload. repeat step.
  rewrite stopCamera_eq. unfold release_camera. page_simpl. rewrite Hcam.
  destruct (has_element (dom s) "cameraVideo"); page_simpl;
    (repeat split; try done);
    rewrite ?lookup_camera_idle; unfold camera_idle_at;
    repeat (case_decide; [discriminate|]);
    rewrite ?lookup_alter_eq, ?lookup_alter_ne by done;
    rewrite ?lookup_alter_eq, ?lookup_alter_ne by done;
    by rewrite ?Hupload, ?Hcamera.
Qed.

(** X29: leaving the page releases the stream that is held, on any page:
    even where the video element is missing and [stopCamera] throws, the
    tracks are stopped first. *)
Theorem on_beforeunload_releases (s : page) (st : stream) :
  cameraStream s = Some st ->
  cameraStream (snd (on_beforeunload s)) = None
  /\ forall t, t ∈ st -> t ∉ live (snd (on_beforeunload s)).
Proof.
  intros Hcam. unfold on_beforeunload.
  destruct (stopCamera_releases s st Hcam) as (Hoff & Hlive & _).
  split; [exact Hoff|]. intros t Ht. rewrite Hlive.
  rewrite elem_of_difference, elem_of_list_to_set. tauto.
Qed.

(** With the video and the canvas in the page, [captureImage] sizes the
    canvas to the video and draws one frame of that size; without one of
    them it throws a TypeError before it writes anything. *)
Lemma captureImage_frame (s : page) :
  (forall video, dom s !! "cameraVideo" = Some video ->
     has_element (dom s) "cameraCanvas" = true ->
     captureImage s
     = (Done tt,
        with_log (log s ++ [EDrawImage (videoWidth video) (videoHeight video)])
          (with_dom
             (alter (set_height (videoHeight video)) "cameraCanvas"
                (alter (set_width (videoWidth video)) "cameraCanvas" (dom s)))
             s)))
  /\ (has_element (dom s) "cameraVideo" = false
      \/ has_element (dom s) "cameraCanvas" = false ->
      captureImage s = (Throw TypeError, s)).
Proof.
  split.
  - intros video Hvideo Hcanvas.
    pose proof (has_element_lookup _ _ _ Hvideo) as Hhas.
    destruct (lookup_has_element _ _ Hcanvas) as [canvas Hcan].
    unfold captureImage. do 5 step.
    erewrite run_read;
      [|page_simpl; rewrite lookup_alter_ne by done; exact Hvideo].
    step.
    erewrite run_read;
      [|page_simpl; rewrite lookup_alter_eq, lookup_alter_eq, Hcan;
        reflexivity].
    erewrite run_read;
      [|page_simpl; rewrite lookup_alter_eq, lookup_alter_eq, Hcan;
        reflexivity].
    reflexivity.
  - intros Hmissing. unfold captureImage.
    rewrite !run_getElementById_any.
    destruct (has_element (dom s) "cameraCanvas") eqn:Hcanvas.
    + destruct Hmissing as [Hvideo|]; [|discriminate].
      rewrite Hvideo.
      destruct (lookup_has_element _ _ Hcanvas) as [canvas Hcan].
      erewrite run_read by exact Hcan. reflexivity.
    + reflexivity.
Qed.

End CameraRoundTrip.

(** *** The plant select *)

(** Look an element up under a stack of writes. *)
Ltac alter_lookup :=
  repeat first [ rewrite lookup_alter_eq | rewrite lookup_alter_ne by done ].

Section PlantSelect.

Lemma class_add_idempotent c e : class_add c (class_add c e) = class_add c e.
Proof.
  destruct e. unfold class_add, set_classList. cbn. f_equal.
  apply set_eq. intros x. rewrite !elem_of_union. tauto.
Qed.

Lemma class_remove_idempotent c e :
  class_remove c (class_remove c e) = class_remove c e.
Proof.
  destruct e. unfold class_remove, set_classList. cbn. f_equal.
  apply set_eq. intros x. rewrite !elem_of_difference. tauto.
Qed.

Lemma plant_chosen_idempotent plant d :
  plant_chosen plant (plant_chosen plant d) = plant_chosen plant d.
Proof.
  apply map_eq. intros id. unfold plant_chosen.
  destruct (decide (id = "detectBtn")) as [->|?];
    [alter_lookup; by destruct (d !! _)|].
  destruct (decide (id = "imagePreview")) as [->|?];
    [alter_lookup; by destruct (d !! _)|].
  destruct (decide (id = "resultDisplay")) as [->|?];
    [alter_lookup; by destruct (d !! _)|].
  destruct (decide (id = "step2-indicator")) as [->|?];
    [alter_lookup; destruct (d !! _); cbn; [|done];
     by rewrite class_add_idempotent|].
  destruct (decide (id = "step1-indicator")) as [->|?];
    [alter_lookup; destruct (d !! _); cbn; [|done];
     by rewrite class_add_idempotent|].
  destruct (decide (id = "selectedPlantInfo")) as [->|?];
    [alter_lookup; by destruct (d !! _)|].
  destruct (decide (id = "imageInput")) as [->|?];
    [alter_lookup; by destruct (d !! _)|].
  destruct (decide (id = "imageUploadSection")) as [->|?];
    [alter_lookup; by destruct (d !! _)|].
  by alter_lookup.
Qed.

Lemma plant_cleared_idempotent d :
  plant_cleared (plant_cleared d) = plant_cleared d.
Proof.
  apply map_eq. intros id. unfold plant_cleared.
  destruct (decide (id = "step2-indicator")) as [->|?];
    [alter_lookup; destruct (d !! _); cbn; [|done];
     by rewrite class_remove_idempotent|].
  destruct (decide (id = "step1-indicator")) as [->|?];
    [alter_lookup; destruct (d !! _); cbn; [|done];
     by rewrite class_remove_idempotent|].
  destruct (decide (id = "selectedPlantInfo")) as [->|?];
    [alter_lookup; by destruct (d !! _)|].
  destruct (decide (id = "imageInput")) as [->|?];
    [alter_lookup; by destruct (d !! _)|].
  destruct (decide (id = "imageUploadSection")) as [->|?];
    [alter_lookup; by destruct (d !! _)|].
  by alter_lookup.
Qed.

Lemma plantSelected_eq (s : page) (select : element) :
  dom s !! "plantSelect" = Some select ->
  present ["imageUploadSection"; "imageInput"; "selectedPlantInfo";
           "step1-indicator"; "step2-indicator"; "resultDisplay";
           "imagePreview"; "detectBtn"] s = true ->
  plantSelected s
  = (Done tt,
     if truthy (VStr (value select))
     then with_dom (plant_chosen (value select) (dom s))
            (with_selectedImage None
               (with_selectedPlant (Some (value select)) s))
     else with_dom (plant_cleared (dom s))
            (with_selectedPlant (Some (value select)) s)).
Proof.
  intros Hselect Hpresent. split_present Hpresent.
  pose proof (has_element_lookup _ _ _ Hselect) as Hhas.
  unfold plantSelected. repeat step.
  destruct (value select) as [|c chosen] eqn:Hvalue;
    cbn [plant_val truthy]; repeat step; rewrite run_update_last; page_simpl;
    by destruct s.
Qed.

End PlantSelect.

(** X30: on a page with its elements [plantSelected] is idempotent: a second
    run on the same choice ends as the first did and leaves the page of the
    first as it is. *)
Theorem plantSelected_idempotent (s : page) :
  present ["plantSelect"; "imageUploadSection"; "imageInput";
           "selectedPlantInfo"; "step1-indicator"; "step2-indicator";
           "resultDisplay"; "imagePreview"; "detectBtn"] s = true ->
  plantSelected (snd (plantSelected s)) = plantSelected s.
Proof.
  intros Hpresent.
  assert (Hall := Hpresent). unfold present in Hall. cbn [forallb] in Hall.
  apply andb_prop in Hall. destruct Hall as [Hhas Hrest].
  destruct (lookup_has_element _ _ Hhas) as [select Hselect].
  assert (Hothers : present ["imageUploadSection"; "imageInput";
    "selectedPlantInfo"; "step1-indicator"; "step2-indicator";
    "resultDisplay"; "imagePreview"; "detectBtn"] s = true) by exact Hrest.
  rewrite (plantSelected_eq s select Hselect Hothers). cbn [snd].
  destruct (truthy (VStr (value select))) eqn:Hchosen.
  - erewrite (plantSelected_eq _ select).
    + rewrite Hchosen. destruct s. cbn. by rewrite plant_chosen_idempotent.
    + cbn [dom with_dom]. unfold plant_chosen.
      by rewrite !lookup_alter_ne by done.
    + unfold present, plant_chosen. cbn [dom with_dom with_selectedImage
        with_selectedPlant forallb]. rewrite !has_element_alter.
      exact Hrest.
  - erewrite (plantSelected_eq _ select).
    + rewrite Hchosen. destruct s. cbn. by rewrite plant_cleared_idempotent.
    + cbn [dom with_dom]. unfold plant_cleared.
      by rewrite !lookup_alter_ne by done.
    + unfold present, plant_cleared. cbn [dom with_dom with_selectedImage
        with_selectedPlant forallb]. rewrite !has_element_alter.
      exact Hrest.
Qed.

(* ===================================================================== *)
(** ** The further properties on sample pages *)
(* ===================================================================== *)

(** Ordinary text comes back as it went in. *)
Lemma formatDiseaseInfo_plain_text_witness :
  formatDiseaseInfo (u "Healthy leaf") = u "Healthy leaf".
Proof.
  apply (formatDiseaseInfo_plain_text (u "Healthy leaf")).
  vm_compute. repeat constructor; discriminate.
Defined.

(** Two crops on two lines, without a digit. *)
Lemma formatCropRecommendations_no_digit_witness :
  formatCropRecommendations (u "Rice" ++ nl ++ u "Wheat")
  = u "<div style=" ++ q ++ u "line-height: 1.8;" ++ q ++ u ">"
      ++ nl_to_br (u "Rice" ++ nl ++ u "Wheat") ++ u "</div>".
Proof.
  apply (formatCropRecommendations_no_digit (u "Rice" ++ nl ++ u "Wheat")).
  vm_compute. repeat constructor.
Defined.

(** A bold word inside a sentence. *)
Lemma formatDiseaseInfo_bold_span_witness :
  formatDiseaseInfo (u "Cause: " ++ u "**" ++ u "fungus" ++ u "**" ++ u " spreads")
  = u "Cause: " ++ u "<strong>" ++ u "fungus" ++ u "</strong>" ++ u " spreads".
Proof.
  apply (formatDiseaseInfo_bold_span (u "Cause: ") (u "fungus") (u " spreads"));
    vm_compute; repeat constructor.
Defined.

(** One bullet with its newline. *)
Lemma formatDiseaseInfo_bullet_line_witness :
  formatDiseaseInfo ([] ++ u "- " ++ u "water less" ++ nl ++ [])
  = [] ++ u "<ul><li>" ++ u "water less" ++ u "</li></ul>" ++ [].
Proof.
  apply (formatDiseaseInfo_bullet_line [] (u "water less") []);
    vm_compute; repeat constructor.
Defined.

(** One bullet at the end of the text, without a newline. *)
Lemma formatDiseaseInfo_open_bullet_witness :
  formatDiseaseInfo ([] ++ u "- " ++ u "water less")
  = [] ++ u "- " ++ u "water less".
Proof.
  apply (formatDiseaseInfo_open_bullet [] (u "water less"));
    vm_compute; repeat constructor.
Defined.

(** Two bullets with a line of text between them. *)
Lemma formatDiseaseInfo_one_list_witness :
  formatDiseaseInfo
    ([] ++ u "- " ++ u "a" ++ nl ++ (u "text" ++ nl) ++ u "- " ++ u "b"
        ++ nl ++ [])
  = [] ++ u "<ul><li>" ++ u "a" ++ u "</li>"
       ++ replace_all re_newline (u "<br>") (u "text" ++ nl)
       ++ u "<li>" ++ u "b" ++ u "</li></ul>" ++ [].
Proof.
  apply (formatDiseaseInfo_one_list [] (u "a") (u "text" ++ nl) (u "b") []);
    vm_compute; repeat constructor; by right.
Defined.

(** A detection whose request fails. *)
Lemma detectDisease_one_request_witness :
  requests (log (snd (detectDisease NetworkError Sample.ready)))
  = requests (log Sample.ready)
      ++ [EFetch (u "/api/detect-disease") "POST"
                 [("image", PFile Sample.leaf);
                  ("language", PText (value Sample.blank));
                  ("plant_name", PText (plant_text (selectedPlant Sample.ready)))]].
Proof.
  apply (detectDisease_one_request NetworkError Sample.ready Sample.leaf
           Sample.blank); reflexivity.
Defined.

(** A success envelope without disease information. *)
Lemma detectDisease_generic_error_witness :
  innerHTML <$> dom (snd (detectDisease (Json (VObj Scene.unrenderable))
                            Sample.ready)) !! "resultDisplay"
  = Some html_detect_error.
Proof.
  refine (proj1 (proj2 (detectDisease_generic_error
            (Json (VObj Scene.unrenderable)) Sample.ready Sample.leaf
            Sample.blank eq_refl eq_refl eq_refl eq_refl _))).
  right. right. right. exists Scene.unrenderable.
  split; [reflexivity|]. split; [reflexivity|]. intros info. discriminate.
Defined.

(** A failure envelope with its message. *)
Lemma detectDisease_failure_envelope_witness :
  innerHTML <$> dom (snd (detectDisease (Json (VObj Scene.not_a_leaf))
                            Sample.ready)) !! "resultDisplay"
  = Some (html_detect_failed (u "Not a leaf") (u "Tomato")).
Proof.
  exact (proj1 (proj1 (proj2 (proj2 (detectDisease_failure_envelope
           Sample.ready Sample.leaf Sample.blank Scene.not_a_leaf
           eq_refl eq_refl eq_refl eq_refl eq_refl)))
           (u "Not a leaf") eq_refl)).
Defined.

(** A narrative answer. *)
Lemma detectDisease_narrative_witness :
  classList <$> dom (snd (detectDisease (Json (VObj Scene.narrative))
                            Sample.ready)) !! "step3-indicator"
  = (fun e => {["completed"]} ∪ classList e)
      <$> dom Sample.ready !! "step3-indicator".
Proof.
  exact (proj2 (proj2 (detectDisease_narrative Sample.ready Sample.leaf
           Sample.blank Scene.narrative (u "Tomato") (u "Healthy")
           eq_refl eq_refl eq_refl eq_refl eq_refl eq_refl eq_refl
           eq_refl))).
Defined.

(** Pune, typed between two spaces. *)
Lemma getWeather_one_request_witness :
  requests (log (snd (getWeather NetworkError Scene.city)))
  = requests (log Scene.city)
      ++ [EFetch (u "/api/weather?city=" ++ u "Pune") "GET" []].
Proof.
  apply (getWeather_one_request NetworkError Scene.city
           (set_value (u " Pune ") Sample.blank) (u "Pune"));
    try reflexivity; vm_compute; discriminate.
Defined.

(** A lone surrogate as the city, on a platform that refuses it. *)
Lemma getWeather_unencodable_witness :
  let r := getWeather (P := strict_platform) NetworkError Scene.bad_city in
  fst r = Done tt
  /\ innerHTML <$> dom (snd r) !! "weatherDisplay" = Some html_weather_error
  /\ log (snd r) = log Scene.bad_city ++ [EConsoleError (u "Weather error:")].
Proof.
  apply (getWeather_unencodable (P := strict_platform) NetworkError
           Scene.bad_city (set_value [0xD800%N] Sample.blank));
    try reflexivity; vm_compute; discriminate.
Defined.

(** A weather object that holds the daily part only. *)
Lemma displayWeather_without_current_witness :
  displayWeather (VObj Sample.daily) VUndef Sample.fresh
  = (Throw TypeError, Sample.fresh).
Proof.
  apply (displayWeather_without_current (VObj Sample.daily) VUndef Sample.fresh).
  right. right. exists Sample.daily. split; [reflexivity|]. left. reflexivity.
Defined.

(** A weather object that holds the current part only. *)
Lemma displayWeather_without_daily_witness :
  fst (displayWeather (VObj Scene.no_daily) VUndef Sample.fresh)
  = Throw TypeError
  /\ dom (snd (displayWeather (VObj Scene.no_daily) VUndef Sample.fresh))
       !! "rainfall" = dom Sample.fresh !! "rainfall"
  /\ innerHTML <$> dom (snd (displayWeather (VObj Scene.no_daily) VUndef
                               Sample.fresh)) !! "weatherDisplay"
     = Some (html_weather (number_to_string lit_100)
               (number_to_string lit_100) (u "0") (u "0")).
Proof.
  destruct (displayWeather_without_daily VUndef Sample.fresh Scene.no_daily
              Sample.current eq_refl (or_introl eq_refl) eq_refl)
    as (Hthrown & Hrain & _ & _ & Hshown & _).
  split; [exact Hthrown|]. split; [exact Hrain|].
  exact (proj1 (Hshown (number_to_string lit_100) (number_to_string lit_100)
                  (u "0") (u "0") eq_refl eq_refl eq_refl eq_refl)).
Defined.

(** A fresh page while the position is awaited. *)
Lemma getUserLocation_blocks_getWeather_witness :
  getWeather NetworkError (snd (getUserLocation true Sample.fresh))
  = (Done tt,
     with_log (log (snd (getUserLocation true Sample.fresh))
                 ++ [EAlert msg_enter_city])
              (snd (getUserLocation true Sample.fresh))).
Proof.
  exact (proj2 (proj2 (getUserLocation_blocks_getWeather NetworkError
           Sample.fresh eq_refl))).
Defined.

(** A fresh page and a denied position. *)
Lemma getUserLocation_denied_clears_witness :
  value <$> dom (snd (getUserLocation_denied (Some "cityInput")
                        (Some "weatherDisplay") Sample.fresh)) !! "cityInput"
  = Some [].
Proof.
  exact (proj1 (proj2 (proj2 (getUserLocation_denied_clears Sample.fresh
           eq_refl)))).
Defined.

(** Pune is found for the position. *)
Lemma getUserLocation_located_names_city_witness :
  value <$> dom (snd (getUserLocation_located (Some "cityInput")
                        (Some "weatherDisplay") lit_100 lit_100
                        (Json (VObj Sample.weather)) (Json (VObj Scene.found))
                        Sample.fresh)) !! "cityInput"
  = Some (u "Pune").
Proof.
  refine (proj1 (proj2 (getUserLocation_located_names_city lit_100 lit_100
            Sample.fresh Sample.weather Sample.current Sample.daily
            Scene.found [] (VStr (u "Pune")) (u "Pune")
            (number_to_string lit_100) (number_to_string lit_100)
            (u "0") (u "0") (u "0")
            eq_refl eq_refl eq_refl eq_refl eq_refl eq_refl eq_refl eq_refl
            eq_refl _ eq_refl _))).
  - left. exists [("name", VStr (u "Pune"))], []. split; reflexivity.
  - repeat constructor; discriminate.
Defined.

(** The weather is filled in and no soil type is chosen. *)
Lemma getCropRecommendation_guard_witness :
  getCropRecommendation Scene.parseFloat Scene.JSON_stringify NetworkError
    Scene.farm
  = (Done tt, with_log (log Scene.farm ++ [EAlert msg_select_soil]) Scene.farm).
Proof.
  refine (proj2 (getCropRecommendation_guard Scene.parseFloat
            Scene.JSON_stringify NetworkError Scene.farm
            (set_value (u "30") Sample.blank) (set_value (u "60") Sample.blank)
            (set_value (u "0") Sample.blank) (set_value [] Sample.blank)
            eq_refl eq_refl eq_refl eq_refl) _ _ _ eq_refl);
    discriminate.
Defined.

(** The weather is filled in and a soil type is chosen. *)
Lemma getCropRecommendation_one_request_witness :
  requests (log (snd (getCropRecommendation Scene.parseFloat
                        Scene.JSON_stringify NetworkError Scene.field)))
  = requests (log Scene.field)
      ++ [EFetch (u "/api/crop-recommendation") "POST"
            [("body", PText (u "{}"))]].
Proof.
  apply (getCropRecommendation_one_request Scene.parseFloat
           Scene.JSON_stringify NetworkError Scene.field
           (set_value (u "30") Sample.blank) (set_value (u "60") Sample.blank)
           (set_value (u "0") Sample.blank)
           (set_value (u "Loamy") Sample.blank));
    try reflexivity; discriminate.
Defined.

(** Recommendations that arrive as text. *)
Lemma getCropRecommendation_display_witness :
  innerHTML <$> dom (snd (getCropRecommendation Scene.parseFloat
                            Scene.JSON_stringify (Json (VObj Scene.advice))
                            Scene.field)) !! "cropDisplay"
  = Some (formatCropRecommendations (u "1. Rice")).
Proof.
  assert (Hshown := getCropRecommendation_display Scene.parseFloat
           Scene.JSON_stringify (Json (VObj Scene.advice)) Scene.field
           (set_value (u "30") Sample.blank) (set_value (u "60") Sample.blank)
           (set_value (u "0") Sample.blank)
           (set_value (u "Loamy") Sample.blank)
           eq_refl eq_refl eq_refl eq_refl eq_refl).
  refine (proj1 (proj1 (proj2 (Hshown _ _ _ _)) Scene.advice (u "1. Rice")
                   eq_refl eq_refl eq_refl));
    discriminate.
Defined.

(** A file is chosen and Tomato is chosen again before the file is read. *)
Lemma previewImage_onload_after_plantSelected_witness :
  let s1 := snd (previewImage (Some Sample.leaf) Sample.choosing) in
  let s2 := snd (plantSelected s1) in
  let s3 := snd (previewImage_onload (u "data:,") s2) in
  selectedImage s1 = Some Sample.leaf
  /\ selectedImage s3 = None
  /\ disabled <$> dom s3 !! "detectBtn" = Some false.
Proof.
  apply (previewImage_onload_after_plantSelected Sample.leaf (u "data:,")
           Sample.choosing (set_value (u "Tomato") Sample.blank));
    try reflexivity; discriminate.
Defined.

(** The camera is started and stopped on a fresh page. *)
Lemma startCamera_then_stopCamera_witness :
  stopCamera (snd (startCamera (Some [1%nat]) Sample.fresh))
  = (Done tt, with_dom (camera_idle (dom Sample.fresh)) Sample.fresh).
Proof.
  refine (proj2 (proj2 (proj2 (proj2 (startCamera_then_stopCamera [1%nat]
            Sample.fresh eq_refl eq_refl eq_refl eq_refl _))))).
  intros t _. apply not_elem_of_empty.
Defined.

(** The mode is switched while the camera runs. *)
Lemma switchToUpload_releases_camera_witness :
  cameraStream (snd (switchToUpload Scene.filming)) = None
  /\ live (snd (switchToUpload Scene.filming))
     = live Scene.filming ∖ list_to_set [1%nat].
Proof.
  destruct (switchToUpload_releases_camera Scene.filming [1%nat]
              eq_refl eq_refl) as (Hoff & Hlive & _).
  split; [exact Hoff | exact Hlive].
Defined.

(** The page is left while the camera runs. *)
Lemma on_beforeunload_releases_witness :
  cameraStream (snd (on_beforeunload Sample.busy)) = None
  /\ forall t, t ∈ [1%nat] -> t ∉ live (snd (on_beforeunload Sample.busy)).
Proof.
  apply (on_beforeunload_releases Sample.busy [1%nat]). reflexivity.
Defined.

(** Tomato is chosen twice. *)
Lemma plantSelected_idempotent_witness :
  plantSelected (snd (plantSelected Sample.choosing))
  = plantSelected Sample.choosing.
Proof.
  apply (plantSelected_idempotent Sample.choosing). reflexivity.
Defined.

